(** * Goodreads ETL pipeline: a shallow embedding of [goodreads_etl.py]

    The development follows the script top-down: the values a pandas cell
    can hold, the [RATING_MAP] vocabulary and the label normalisation of
    line 71, the data-frame operations the script calls, the SQLite tables
    with the [INSERT OR IGNORE] policy of [insert_ignore], the chunk loop of
    [process_single_file] with its [try]/[finally], and the orchestration of
    [run_production_etl]; then the two readers of the store, the top-5
    query of the report and the query of [search_books.py].

    The library functions whose result depends on the text they read are
    parameters of the model (Section [Pipeline]): Python's [str.lower] and
    [str.strip], the number parser of [read_csv] and [pd.to_numeric], the
    fields that [read_csv] takes for missing values, and the texts that
    SQLite keeps for a whole number and for a float.  ASCII instances are
    defined first and are used to run the model on concrete inputs.

    A cell holds a missing value, a text or a number, numbers being exact.
    A column has a type as well, which [read_csv] decides for each chunk
    on the fields of the column in that chunk (Section [Pipeline],
    [read_frame]): whole numbers, floats, or objects.  The type decides
    whether the column has the [.str] accessor that line 71 asks for, and
    whether an identifier reaches the store as a whole number or as a
    float; [book_id] is a [TEXT] column and keeps the text of what it
    receives, so 1 and 1.0 are two keys.  Columns of booleans are left
    out: a field such as [True] is read as a text.  Titles, users and
    labels are kept as the cells they were.

    What the connection, the reader, the store and the clock answer is an
    input of each call ([file_env]).  The worker pool of line 112 is a
    set of threads that take the files in order and are interleaved
    between two turns of a loop, each [to_sql] being one transaction.  A
    text is a string with one element for each character; SQLite's [LIKE]
    and the text it keeps for a number are parameters of the search
    (Section [Search]). *)

From Stdlib Require Import String Ascii List ZArith QArith Qround Bool Lia.
From Stdlib Require Import Permutation Sorted DecimalString.
Import ListNotations.

Local Open Scope string_scope.
Local Open Scope list_scope.

(** ** ASCII instances of the library functions *)

Module Ascii_text.

Definition is_upper (c : ascii) : bool :=
  let n := nat_of_ascii c in (65 <=? n)%nat && (n <=? 90)%nat.

Definition lower_char (c : ascii) : ascii :=
  if is_upper c then ascii_of_nat (nat_of_ascii c + 32) else c.

(** [str.lower] on ASCII text. *)
Fixpoint lower (s : string) : string :=
  match s with
  | EmptyString => EmptyString
  | String c r => String (lower_char c) (lower r)
  end.

(** The ASCII characters for which [str.isspace] holds. *)
Definition is_space (c : ascii) : bool :=
  let n := nat_of_ascii c in
  ((9 <=? n)%nat && (n <=? 13)%nat) || ((28 <=? n)%nat && (n <=? 32)%nat).

Fixpoint lstrip (s : string) : string :=
  match s with
  | EmptyString => EmptyString
  | String c r => if is_space c then lstrip r else s
  end.

Fixpoint rstrip (s : string) : string :=
  match s with
  | EmptyString => EmptyString
  | String c r =>
      match rstrip r with
      | EmptyString => if is_space c then EmptyString else String c EmptyString
      | r' => String c r'
      end
  end.

(** [str.strip] on ASCII text. *)
Definition strip (s : string) : string := rstrip (lstrip s).

Definition digit_of (c : ascii) : option Z :=
  let n := Z.of_nat (nat_of_ascii c) in
  if (48 <=? n)%Z && (n <=? 57)%Z then Some (n - 48)%Z else None.

(** Reads a run of decimal digits: the number read so far, how many
    digits were consumed, and the rest of the text. *)
Fixpoint read_digits (s : string) (acc : Z) (n : nat) : Z * nat * string :=
  match s with
  | EmptyString => (acc, n, s)
  | String c r =>
      match digit_of c with
      | Some d => read_digits r (10 * acc + d)%Z (S n)
      | None => (acc, n, s)
      end
  end.

Definition parse_unsigned (s : string) : option Q :=
  let '(ip, ni, r) := read_digits s 0%Z 0%nat in
  match r with
  | EmptyString => if (ni =? 0)%nat then None else Some (inject_Z ip)
  | String c r' =>
      if Ascii.eqb c "."%char then
        let '(m, nf, r'') := read_digits r' ip 0%nat in
        match r'' with
        | EmptyString =>
            if (ni + nf =? 0)%nat then None
            else Some (Qred (m # Z.to_pos (10 ^ Z.of_nat nf)))
        | String _ _ => None
        end
      else None
  end.

(** Plain decimal literals, with an optional sign and an optional
    fraction: [1], [-12], [4.5], [3.0].  Everything else is rejected. *)
Definition parse_decimal (s : string) : option Q :=
  match s with
  | String c r =>
      if Ascii.eqb c "-"%char then option_map Qopp (parse_unsigned r)
      else if Ascii.eqb c "+"%char then parse_unsigned r
      else parse_unsigned s
  | EmptyString => None
  end.

(** SQLite's [LIKE] on ASCII text: [%] in the pattern stands for any run
    of characters, [_] for any single one, and letters match without
    regard to case. *)
Fixpoint like_pattern (pattern : string) : string -> bool :=
  match pattern with
  | EmptyString => fun s => match s with EmptyString => true | String _ _ => false end
  | String c rest =>
      if Ascii.eqb c "%"%char then
        fix any (s : string) : bool :=
          like_pattern rest s ||
          match s with EmptyString => false | String _ r => any r end
      else if Ascii.eqb c "_"%char then
        fun s => match s with EmptyString => false | String _ r => like_pattern rest r end
      else
        fun s =>
          match s with
          | EmptyString => false
          | String d r => Ascii.eqb (lower_char c) (lower_char d) && like_pattern rest r
          end
  end.

Definition like (s pattern : string) : bool := like_pattern pattern s.

Fixpoint all_digits (s : string) : bool :=
  match s with
  | EmptyString => true
  | String c r => match digit_of c with Some _ => all_digits r | None => false end
  end.

(** The literals that are read as whole numbers: digits, after an
    optional sign. *)
Definition is_integer (s : string) : bool :=
  match s with
  | EmptyString => false
  | String c r =>
      if Ascii.eqb c "-"%char || Ascii.eqb c "+"%char
      then negb (String.eqb r EmptyString) && all_digits r
      else all_digits s
  end.

(** The fields that [read_csv] takes for missing values by default. *)
Definition na_field (s : string) : bool :=
  String.eqb s EmptyString ||
  existsb (String.eqb s)
    [ "#N/A"; "#N/A N/A"; "#NA"; "-1.#IND"; "-1.#QNAN"; "-NaN"; "-nan";
      "1.#IND"; "1.#QNAN"; "<NA>"; "N/A"; "NA"; "NULL"; "NaN"; "None";
      "n/a"; "nan"; "null" ].

(** The text of a whole number. *)
Definition text_of_Z (z : Z) : string := NilZero.string_of_int (Z.to_int z).

(** The digits of the fraction [n / d], at most [k] of them. *)
Fixpoint fraction_digits (k : nat) (n : Z) (d : Z) : string :=
  match k with
  | O => EmptyString
  | S k' =>
      if (n =? 0)%Z then EmptyString
      else (text_of_Z (10 * n / d) ++ fraction_digits k' (10 * n mod d) d)%string
  end.

(** The text of a float that has a short decimal expansion: 1.0, 4.5,
    -0.25. *)
Definition text_of_real (x : Q) : string :=
  let n := Z.abs (Qnum x) in
  let d := Zpos (Qden x) in
  let fraction := fraction_digits 15 (n mod d) d in
  ((if (Qnum x <? 0)%Z then "-" else EmptyString) ++ text_of_Z (n / d) ++ "." ++
   (if String.eqb fraction EmptyString then "0" else fraction))%string.

End Ascii_text.

(** ** Cells, series and exceptions *)

(** What one cell of a data frame holds: a missing value, a text or a
    number. *)
Inductive cell : Type :=
| NaN
| Str (s : string)
| Num (x : Q).

Definition notna (c : cell) : bool :=
  match c with NaN => false | _ => true end.

Definition is_number (c : cell) : bool :=
  match c with Num _ => true | _ => false end.

Definition is_text (c : cell) : bool :=
  match c with Str _ => true | _ => false end.

(** The type pandas keeps for a column: whole numbers, floating-point
    numbers (also the type of a numeric column with a missing value, and
    of a column with nothing but missing values), or Python objects,
    which is how [read_csv] keeps a column that holds a text. *)
Inductive dtype : Type := int64 | float64 | object.

(** A column: its type and its elements. *)
Record Series : Type := mkSeries {
  dtype_of : dtype;
  values : list cell
}.

Inductive exn : Type :=
| KeyError (labels : list string)
| IndexError
| AttributeError
| UnboundLocalError (name : string)
| ZeroDivisionError
| EnvError (what : string).

Inductive result (A : Type) : Type :=
| Ok (a : A)
| Raise (e : exn).
Arguments Ok {A} a.
Arguments Raise {A} e.

Definition is_ok {A} (r : result A) : bool :=
  match r with Ok _ => true | Raise _ => false end.

(** ** The rating vocabulary (lines 24-27) *)

Definition dquote : string := String (ascii_of_nat 34) EmptyString.

Definition to_read_label : string :=
  Eval cbv in ("this user marked the book as " ++ dquote ++ "to-read" ++ dquote).

Definition RATING_MAP : list (string * Z) :=
  [ ("it was amazing", 5%Z); ("really liked it", 4%Z); ("liked it", 3%Z);
    ("it was ok", 2%Z); ("did not like it", 1%Z); (to_read_label, 0%Z) ].

(** Dictionary lookup: the value of the first entry with that key. *)
Fixpoint dict_get {V : Type} (k : string) (d : list (string * V)) : option V :=
  match d with
  | [] => None
  | (k', v) :: rest => if String.eqb k k' then Some v else dict_get k rest
  end.

(** [.str.<method>()] on one element: a text is transformed, every other
    value gives a missing value. *)
Definition str_method (f : string -> string) (c : cell) : cell :=
  match c with
  | Str s => Str (f s)
  | _ => NaN
  end.

(** [.map(d)] on one element: a text found in [d] gives its number,
    everything else a missing value. *)
Definition map_dict (d : list (string * Z)) (c : cell) : cell :=
  match c with
  | Str s =>
      match dict_get s d with
      | Some n => Num (inject_Z n)
      | None => NaN
      end
  | _ => NaN
  end.

(** [.fillna(v)] on one element. *)
Definition fillna (v : Q) (c : cell) : cell :=
  match c with
  | NaN => Num v
  | _ => c
  end.

Definition rbind {A B} (r : result A) (k : A -> result B) : result B :=
  match r with
  | Ok a => k a
  | Raise e => Raise e
  end.

Notation "x <-? c ;; k" := (rbind c (fun x => k))
  (at level 61, c at next level, right associativity).

(** [s.str]: pandas hands out the accessor for a column of objects
    unless its present elements are all numbers, and raises
    [AttributeError] ("Can only use .str accessor with string values")
    for every other column; a numeric column is what [read_csv] makes of
    a column in which every field of the chunk is empty or a number. *)
Definition str_accessor (s : Series) : result Series :=
  match dtype_of s with
  | object =>
      if existsb is_number (values s) && negb (existsb is_text (values s))
      then Raise AttributeError
      else Ok s
  | _ => Raise AttributeError
  end.

(** [s.str.<method>()]: a column of objects again. *)
Definition str_call (f : string -> string) (s : Series) : Series :=
  {| dtype_of := object; values := map (str_method f) (values s) |}.

(** [s.map(d)]: whole numbers when every element is found in [d],
    floats beside missing values otherwise. *)
Definition map_series (d : list (string * Z)) (s : Series) : Series :=
  {| dtype_of := if forallb notna (map (map_dict d) (values s)) then int64 else float64;
     values := map (map_dict d) (values s) |}.

(** [s.fillna(v)] *)
Definition fillna_series (v : Q) (s : Series) : Series :=
  {| dtype_of := dtype_of s; values := map (fillna v) (values s) |}.

(** ** Data frames

    A frame is its column labels, its rows and the types of its columns;
    a row binds labels to cells and [dtypes] labels to types, the first
    binding of a label being the current one. *)

Definition row := list (string * cell).

Record DataFrame : Type := mkFrame {
  columns : list string;
  rows : list row;
  dtypes : list (string * dtype)
}.

Definition has_label (c : string) (labels : list string) : bool :=
  existsb (String.eqb c) labels.

Definition field (c : string) (r : row) : cell :=
  match dict_get c r with
  | Some v => v
  | None => NaN
  end.

(** [len(df)] *)
Definition len (df : DataFrame) : nat := length (rows df).

(** The type of column [c]; a column that [dtypes] does not list holds
    objects. *)
Definition column_dtype (df : DataFrame) (c : string) : dtype :=
  match dict_get c (dtypes df) with
  | Some d => d
  | None => object
  end.

(** [df[c]]: the column as a series, [KeyError] when there is none. *)
Definition getitem (df : DataFrame) (c : string) : result Series :=
  if has_label c (columns df)
  then Ok {| dtype_of := column_dtype df c; values := map (field c) (rows df) |}
  else Raise (KeyError [c]).

(** [df[c] = s]: replaces the column, or adds it as the last one. *)
Definition setitem (df : DataFrame) (c : string) (s : Series) : DataFrame :=
  {| columns := if has_label c (columns df) then columns df else columns df ++ [c];
     rows := map (fun rv => (c, snd rv) :: fst rv) (combine (rows df) (values s));
     dtypes := (c, dtype_of s) :: dtypes df |}.

Definition missing_labels (subset labels : list string) : list string :=
  filter (fun c => negb (has_label c labels)) subset.

Definition complete (subset : list string) (r : row) : bool :=
  forallb (fun c => notna (field c r)) subset.

(** [df.dropna(subset=...)]: keeps the rows with no missing value in the
    columns of [subset]. *)
Definition dropna (subset : list string) (df : DataFrame) : result DataFrame :=
  match missing_labels subset (columns df) with
  | [] => Ok {| columns := columns df; rows := filter (complete subset) (rows df);
                dtypes := dtypes df |}
  | m => Raise (KeyError m)
  end.

Definition project (cols : list string) (r : row) : row :=
  map (fun c => (c, field c r)) cols.

(** [df[[c1, ..., cn]]] *)
Definition select (cols : list string) (df : DataFrame) : result DataFrame :=
  match missing_labels cols (columns df) with
  | [] => Ok {| columns := cols; rows := map (project cols) (rows df);
                dtypes := dtypes df |}
  | m => Raise (KeyError m)
  end.

Definition renamed (mapping : list (string * string)) (c : string) : string :=
  match dict_get c mapping with
  | Some c' => c'
  | None => c
  end.

(** [df.rename(columns=mapping)] *)
Definition rename (mapping : list (string * string)) (df : DataFrame) : DataFrame :=
  {| columns := map (renamed mapping) (columns df);
     rows := map (map (fun b => (renamed mapping (fst b), snd b))) (rows df);
     dtypes := map (fun b => (renamed mapping (fst b), snd b)) (dtypes df) |}.

(** [df.head(n)] *)
Definition head (n : nat) (df : DataFrame) : DataFrame :=
  {| columns := columns df; rows := firstn n (rows df); dtypes := dtypes df |}.

(** [row.iloc[i]] *)
Definition iloc (labels : list string) (i : nat) (r : row) : result cell :=
  match nth_error labels i with
  | Some c => Ok (field c r)
  | None => Raise IndexError
  end.

(** Cutting the lines of a file into chunks of [chunksize] lines (line 55
    asks for 100000): [k] counts the lines still missing from the chunk
    being filled, [cur] holds that chunk, last line first. *)
Fixpoint chunks_from {A} (chunksize k : nat) (cur data : list A) : list (list A) :=
  match data with
  | [] => match cur with [] => [] | _ => [rev cur] end
  | r :: rest =>
      match k with
      | O | S O => rev (r :: cur) :: chunks_from chunksize chunksize [] rest
      | S k' => chunks_from chunksize k' (r :: cur) rest
      end
  end.

(** The chunks of a file; a file with a header and no line gives one
    chunk, with no line. *)
Definition chunks_of {A} (chunksize : nat) (data : list A) : list (list A) :=
  match data with
  | [] => [[]]
  | _ :: _ => chunks_from chunksize chunksize [] data
  end.

(** ** The SQLite store

    [books(book_id TEXT PRIMARY KEY, title TEXT, avg_rating REAL)] and
    [ratings(rating_id INTEGER PRIMARY KEY AUTOINCREMENT, book_title TEXT,
    user_id TEXT, rating_text TEXT, rating_int INTEGER)]; a missing cell is
    stored as NULL. *)

Record book_row : Type := mkBook {
  book_id : cell;
  title : cell;
  avg_rating : cell
}.

Record rating_row : Type := mkRating {
  rating_id : Z;
  book_title : cell;
  user_id : cell;
  rating_text : cell;
  rating_int : cell
}.

(** The database file as a run finds it: each table may be absent. *)
Record db_file : Type := mkFile {
  file_books : option (list book_row);
  file_ratings : option (list rating_row);
  file_indexes : list string
}.

(** The database once the schema statements of lines 94-99 have run.
    [rating_seq] is the largest [rating_id] handed out so far. *)
Record database : Type := mkDb {
  books : list book_row;
  ratings : list rating_row;
  rating_seq : Z;
  indexes : list string
}.

(** SQLite's [=] on two stored values, which is also when two keys
    collide under the uniqueness constraint: texts are compared as texts,
    numbers as numbers, and NULL equals nothing.  The keys of [books] are
    texts, [book_id] being a [TEXT] column. *)
Definition same_key (a b : cell) : bool :=
  match a, b with
  | Num x, Num y => Qeq_bool x y
  | Str s, Str t => String.eqb s t
  | _, _ => false
  end.

Definition has_key (k : cell) (t : list book_row) : bool :=
  existsb (fun r => same_key k (book_id r)) t.

(** One [INSERT OR IGNORE INTO books ...] (line 31): a row whose key is
    already stored is dropped, any other row is added. *)
Definition insert_or_ignore (t : list book_row) (r : book_row) : list book_row :=
  if has_key (book_id r) t then t else t ++ [r].

(** [insert_ignore] (lines 30-32): [executemany] runs the statement once
    per row of [data_iter], in order. *)
Definition insert_ignore (t : list book_row) (data_iter : list book_row)
  : list book_row :=
  fold_left insert_or_ignore data_iter t.

(** One plain [INSERT INTO ratings ...]: the row gets the next
    [rating_id]. *)
Definition insert_rating (d : database) (r : row) : database :=
  let id := (rating_seq d + 1)%Z in
  {| books := books d;
     ratings := ratings d ++
       [ {| rating_id := id;
            book_title := field "book_title" r;
            user_id := field "user_id" r;
            rating_text := field "rating_text" r;
            rating_int := field "rating_int" r |} ];
     rating_seq := id;
     indexes := indexes d |}.

(** [clean_chunk.to_sql('ratings', conn, if_exists='append', index=False)]
    (line 77) *)
Definition to_sql_ratings (clean_chunk : DataFrame) (d : database) : database :=
  fold_left insert_rating (rows clean_chunk) d.

Definition add_index (name : string) (l : list string) : list string :=
  if has_label name l then l else l ++ [name].

(** Lines 94-99: [CREATE TABLE IF NOT EXISTS books], [DROP TABLE IF EXISTS
    ratings] (which also drops the index on it and its AUTOINCREMENT
    counter), [CREATE TABLE ratings]. *)
Definition init_schema (f : db_file) : database :=
  {| books := match file_books f with Some t => t | None => [] end;
     ratings := [];
     rating_seq := 0%Z;
     indexes := filter (fun i => negb (String.eqb i "idx_rating_title")) (file_indexes f) |}.

(** Lines 118-119: the two [CREATE INDEX IF NOT EXISTS]. *)
Definition create_indexes (d : database) : database :=
  {| books := books d;
     ratings := ratings d;
     rating_seq := rating_seq d;
     indexes := add_index "idx_rating_title" (add_index "idx_book_title" (indexes d)) |}.

(** The file a finished run leaves behind. *)
Definition stored (d : database) : db_file :=
  {| file_books := Some (books d);
     file_ratings := Some (ratings d);
     file_indexes := indexes d |}.

(** ** State, log and the exception monad *)

Inductive log_entry : Type :=
| TableView (filename : string)
| TableHeader
| TableRule
| TableRow (id_val name rating : cell)
| TableEnd
| Processed (total : nat) (type_label filename : string) (rows_per_sec : Q)
| EtlComplete.

(** What the workers share: the database, the log file, and the number of
    connections to the database that are currently open. *)
Record state : Type := mkState {
  db : database;
  log : list log_entry;
  open_connections : nat
}.

(** A computation may change the state and then return or raise; the
    state reached when it raises is kept. *)
Definition M (A : Type) : Type := state -> result A * state.

Definition ret {A} (a : A) : M A := fun s => (Ok a, s).

Definition raise {A} (e : exn) : M A := fun s => (Raise e, s).

Definition bind {A B} (c : M A) (k : A -> M B) : M B :=
  fun s =>
    match c s with
    | (Ok a, s') => k a s'
    | (Raise e, s') => (Raise e, s')
    end.

Definition lift {A} (r : result A) : M A := fun s => (r, s).

(** [try: body finally: fin] *)
Definition try_finally {A} (body : M A) (fin : M unit) : M A :=
  fun s =>
    let (r, s1) := body s in
    match fin s1 with
    | (Ok _, s2) => (r, s2)
    | (Raise e, s2) => (Raise e, s2)
    end.

Notation "x <- c ;; k" := (bind c (fun x => k))
  (at level 61, c at next level, right associativity).
Notation "c ;; k" := (bind c (fun _ => k))
  (at level 61, right associativity).
Definition modify_db (f : database -> database) : M unit :=
  fun s => (Ok tt, {| db := f (db s); log := log s;
                      open_connections := open_connections s |}).

Definition get_db : M database := fun s => (Ok (db s), s).

(** [logging.info(...)] *)
Definition info (e : log_entry) : M unit :=
  fun s => (Ok tt, {| db := db s; log := log s ++ [e];
                      open_connections := open_connections s |}).

(** [sqlite3.connect(...)]: raises, or opens one more connection. *)
Definition connect (error : option exn) : M unit :=
  match error with
  | Some e => raise e
  | None => fun s => (Ok tt, {| db := db s; log := log s;
                                open_connections := S (open_connections s) |})
  end.

(** [conn.close()] *)
Definition close : M unit :=
  fun s => (Ok tt, {| db := db s; log := log s;
                      open_connections := pred (open_connections s) |}).

(** A [to_sql] call is one transaction: it raises and leaves the database
    as it was, or it writes. *)
Definition to_sql (write : database -> database) (error : option exn) : M unit :=
  match error with
  | Some e => raise e
  | None => modify_db write
  end.

(** ** The environment of one file *)

(** What one turn of the [for chunk in pd.read_csv(...)] loop meets: the
    reader raises, or it yields a chunk, for which [write_error] tells
    whether the store then refuses the insert. *)
Inductive read_event : Type :=
| ReadError (e : exn)
| Yield (chunk : DataFrame) (write_error : option exn).

Record file_env : Type := mkEnv {
  connect_error : option exn;
  reader : list read_event;
  elapsed : Q
}.

(** The local variables of [process_single_file] that the loop updates;
    [type_label] is unbound until a branch assigns it. *)
Record locals : Type := mkLocals {
  total_processed : nat;
  type_label : option string
}.

Record report : Type := mkReport {
  books_count : nat;
  ratings_count : nat
}.

(** What the run finds in the source folder: the directory listing with
    the environment of each file, and for each of the two preview targets
    whether it exists and what [pd.read_csv(target, nrows=5)] gives. *)
Record run_env : Type := mkRunEnv {
  listdir : list (string * file_env);
  preview_book : option (result DataFrame);
  preview_rating : option (result DataFrame)
}.

(** [f.endswith(suffix)] *)
Fixpoint endswith (suffix s : string) : bool :=
  String.eqb s suffix ||
  match s with
  | EmptyString => false
  | String _ r => endswith suffix r
  end.

Fixpoint insert_sorted {A} (x : string * A) (l : list (string * A)) : list (string * A) :=
  match l with
  | [] => [x]
  | y :: r => if String.leb (fst x) (fst y) then x :: l else y :: insert_sorted x r
  end.

(** [sorted(...)], on the file names. *)
Definition sorted {A} (l : list (string * A)) : list (string * A) :=
  fold_right insert_sorted [] l.

(** Line 42: a name longer than 37 characters is cut and marked. *)
Definition shorten (c : cell) : cell :=
  match c with
  | Str s => if (37 <? String.length s)%nat then Str (substring 0 37 s ++ "...") else c
  | _ => c
  end.

(** ** [peek_at_data] (lines 35-45) *)

Fixpoint peek_rows (labels : list string) (rs : list row) : M unit :=
  match rs with
  | [] => ret tt
  | r :: rest =>
      id_val <- lift (iloc labels 0 r) ;;
      name <- lift (iloc labels 1 r) ;;
      rating <- lift (iloc labels 2 r) ;;
      info (TableRow id_val (shorten name) rating) ;;
      peek_rows labels rest
  end.

Definition peek_at_data (df : DataFrame) (filename : string) : M unit :=
  info (TableView filename) ;;
  info TableHeader ;;
  info TableRule ;;
  peek_rows (columns df) (rows (head 5 df)) ;;
  info TableEnd.

(** Lines 104-105: [if os.path.exists(target): peek_at_data(pd.read_csv(target,
    nrows=5), name)] *)
Definition preview (target : option (result DataFrame)) (filename : string) : M unit :=
  match target with
  | None => ret tt
  | Some r => df <- lift r ;; peek_at_data df filename
  end.

(** ** The end-to-end scenario

    The file [book1-100k.csv] with the rows [(1, "Harry Potter", "4.5")],
    [(2, empty title, "3.0")] and [(abc, "BadId", "2.0")], as [read_csv]
    gives it in one chunk: the identifiers are texts because [abc] is one,
    the empty title is a missing value, the ratings are floats.  Nothing
    goes wrong with the connection, the reader or the store. *)

Definition harry_chunk : DataFrame :=
  {| columns := ["Id"; "Name"; "Rating"];
     rows := [ [("Id", Str "1"); ("Name", Str "Harry Potter"); ("Rating", Num (9 # 2))];
               [("Id", Str "2"); ("Name", NaN); ("Rating", Num 3)];
               [("Id", Str "abc"); ("Name", Str "BadId"); ("Rating", Num 2)] ];
     dtypes := [("Id", object); ("Name", object); ("Rating", float64)] |}.

Definition harry_file (elapsed : Q) : file_env :=
  {| connect_error := None;
     reader := [Yield harry_chunk None];
     elapsed := elapsed |}.

Definition harry_folder (elapsed : Q) : run_env :=
  {| listdir := [("book1-100k.csv", harry_file elapsed)];
     preview_book := Some (Ok harry_chunk);
     preview_rating := None |}.

(** The ratings file [user_rating_0_to_1000.csv] with the rows
    [("Harry Potter", "u1", "it was amazing")] and [("Dune", "u2",
    "unknown text")]. *)
Definition rating_chunk : DataFrame :=
  {| columns := ["ID"; "Name"; "Rating"];
     rows := [ [("ID", Str "u1"); ("Name", Str "Harry Potter");
                ("Rating", Str "it was amazing")];
               [("ID", Str "u2"); ("Name", Str "Dune");
                ("Rating", Str "unknown text")] ];
     dtypes := [("ID", object); ("Name", object); ("Rating", object)] |}.

Definition rating_file : file_env :=
  {| connect_error := None;
     reader := [Yield rating_chunk None];
     elapsed := 1 |}.

(** A folder that also holds a file of neither kind and a file that is
    not a CSV file; both preview targets are there. *)
Definition mixed_folder : run_env :=
  {| listdir := [ ("user_rating_0_to_1000.csv", rating_file);
                  ("notes.csv", harry_file 1);
                  ("book1-100k.csv", harry_file 1);
                  ("readme.txt", harry_file 1) ];
     preview_book := Some (Ok harry_chunk);
     preview_rating := Some (Ok rating_chunk) |}.

(** A database file with no table yet. *)
Definition fresh_file : db_file :=
  {| file_books := None; file_ratings := None; file_indexes := [] |}.

(** The state in which the workers of a first run start. *)
Definition first_run : state :=
  {| db := init_schema fresh_file; log := []; open_connections := 0 |}.

(** The row that the scenario leaves in the store: the identifier was
    bound as the float 1.0 and the [TEXT] column keeps its text. *)
Definition harry_row : book_row :=
  {| book_id := Str "1.0"; title := Str "Harry Potter"; avg_rating := Num (9 # 2) |}.

(** A second book, and a database file that already holds both. *)
Definition dune_row : book_row :=
  {| book_id := Str "2"; title := Str "Dune"; avg_rating := Num 4 |}.

Definition stocked_file : db_file :=
  {| file_books := Some [harry_row; dune_row]; file_ratings := None;
     file_indexes := [] |}.

(** A book file without its [Rating] column. *)
Definition narrow_chunk : DataFrame :=
  {| columns := ["Id"; "Name"];
     rows := [ [("Id", Num 1); ("Name", Str "Harry Potter")] ];
     dtypes := [("Id", int64); ("Name", object)] |}.

Definition narrow_file : file_env :=
  {| connect_error := None; reader := [Yield narrow_chunk None]; elapsed := 1 |}.

(** The folder of the scenario, the preview target being the narrow
    file. *)
Definition narrow_folder : run_env :=
  {| listdir := [("book1-100k.csv", narrow_file)];
     preview_book := Some (Ok narrow_chunk);
     preview_rating := None |}.

(** A book file whose reader fails after the first chunk. *)
Definition interrupted_file : file_env :=
  {| connect_error := None;
     reader := [ Yield harry_chunk None;
                 ReadError (EnvError "Error tokenizing data");
                 Yield harry_chunk None ];
     elapsed := 1 |}.

(** ** Files that a chunk boundary cuts

    A ratings file of [n] lines that carry a label followed by one line
    whose [Rating] field is empty, and a book file of [n] lines with the
    identifier 1 followed by one line whose identifier is not a number.
    Line 55 reads 100000 lines at a time: with [n = 100000] the last line
    of either file is a chunk of its own. *)

Definition labelled_line : list string := ["u1"; "Dune"; "it was amazing"].

Definition unlabelled_line : list string := ["u2"; "Dune"; EmptyString].

Definition late_blank_ratings (n : nat) : list (list string) :=
  repeat labelled_line n ++ [unlabelled_line].

Definition harry_line : list string := ["1"; "Harry Potter"; "4.5"].

Definition bad_id_line : list string := ["abc"; "BadId"; "2.0"].

Definition late_text_books (n : nat) : list (list string) :=
  repeat harry_line n ++ [bad_id_line].

(** The chunks that [read_csv] makes of these files: the [n] first lines
    of the ratings file, its last line alone, whose [Rating] column holds
    no text and is a column of floats, and the whole file. *)
Definition labelled_row : row :=
  [("ID", Str "u1"); ("Name", Str "Dune"); ("Rating", Str "it was amazing")].

Definition labelled_chunk (n : nat) : DataFrame :=
  {| columns := ["ID"; "Name"; "Rating"];
     rows := repeat labelled_row n;
     dtypes := [("ID", object); ("Name", object); ("Rating", object)] |}.

Definition blank_chunk : DataFrame :=
  {| columns := ["ID"; "Name"; "Rating"];
     rows := [ [("ID", Str "u2"); ("Name", Str "Dune"); ("Rating", NaN)] ];
     dtypes := [("ID", object); ("Name", object); ("Rating", float64)] |}.

Definition late_blank_chunk (n : nat) : DataFrame :=
  {| columns := ["ID"; "Name"; "Rating"];
     rows := repeat labelled_row n ++
             [ [("ID", Str "u2"); ("Name", Str "Dune"); ("Rating", NaN)] ];
     dtypes := [("ID", object); ("Name", object); ("Rating", object)] |}.

(** The same for the book file: in the [n] first lines the identifiers
    are whole numbers, in the last line and in the whole file they are
    texts. *)
Definition whole_id_chunk (n : nat) : DataFrame :=
  {| columns := ["Id"; "Name"; "Rating"];
     rows := repeat [("Id", Num 1); ("Name", Str "Harry Potter");
                     ("Rating", Num (9 # 2))] n;
     dtypes := [("Id", int64); ("Name", object); ("Rating", float64)] |}.

Definition bad_id_chunk : DataFrame :=
  {| columns := ["Id"; "Name"; "Rating"];
     rows := [ [("Id", Str "abc"); ("Name", Str "BadId"); ("Rating", Num 2)] ];
     dtypes := [("Id", object); ("Name", object); ("Rating", float64)] |}.

Definition late_text_chunk (n : nat) : DataFrame :=
  {| columns := ["Id"; "Name"; "Rating"];
     rows := repeat [("Id", Str "1"); ("Name", Str "Harry Potter");
                     ("Rating", Num (9 # 2))] n ++
             [ [("Id", Str "abc"); ("Name", Str "BadId"); ("Rating", Num 2)] ];
     dtypes := [("Id", object); ("Name", object); ("Rating", float64)] |}.

(** The row that [books] holds when the identifier 1 was bound as a whole
    number. *)
Definition harry_row_int : book_row :=
  {| book_id := Str "1"; title := Str "Harry Potter"; avg_rating := Num (9 # 2) |}.

(** ** Reading the store: the top-5 query and the search tool *)

Fixpoint insert_by {A} (le : A -> A -> bool) (x : A) (l : list A) : list A :=
  match l with
  | [] => [x]
  | y :: r => if le x y then x :: l else y :: insert_by le x r
  end.

(** [ORDER BY]: rows come out in an order that [le] accepts; among rows
    that [le] does not tell apart the engine is free, and this model keeps
    them as they were. *)
Definition sort_by {A} (le : A -> A -> bool) (l : list A) : list A :=
  fold_right (insert_by le) [] l.

(** [FROM books b JOIN ratings r ON b.title = r.book_title] (line 130):
    titles are compared as stored keys are, NULL matching nothing. *)
Definition joined (d : database) : list (book_row * rating_row) :=
  flat_map
    (fun b => map (fun r => (b, r))
                (filter (fun r => same_key (title b) (book_title r)) (ratings d)))
    (books d).

(** The groups of [GROUP BY b.title]: each title once, in the order of
    its first row. *)
Fixpoint group_keys (l : list cell) : list cell :=
  match l with
  | [] => []
  | t :: rest => t :: filter (fun u => negb (same_key t u)) (group_keys rest)
  end.

(** [COUNT(r.rating_id)] for the group of title [t]. *)
Definition reviews (d : database) (t : cell) : nat :=
  length (filter (fun p => same_key t (title (fst p))) (joined d)).

(** The query of lines 128-132. *)
Definition top_reviewed (d : database) : list (cell * nat) :=
  firstn 5
    (sort_by (fun a b => (snd b <=? snd a)%nat)
       (map (fun t => (t, reviews d t)) (group_keys (map (fun p => title (fst p)) (joined d))))).

(** How many books carry the title [t], and how many ratings name it. *)
Definition books_titled (d : database) (t : cell) : nat :=
  length (filter (fun b => same_key t (title b)) (books d)).

Definition ratings_titled (d : database) (t : cell) : nat :=
  length (filter (fun r => same_key t (book_title r)) (ratings d)).

(** The order of SQLite values of different kinds: NULL, then numbers,
    then texts. *)
Definition value_le (a b : cell) : bool :=
  match a, b with
  | NaN, _ => true
  | Num _, NaN => false
  | Num x, Num y => Qle_bool x y
  | Num _, Str _ => true
  | Str _, NaN => false
  | Str _, Num _ => false
  | Str s, Str t => String.leb s t
  end.

(** What [search_vault] prints (lines 8, 24, 26 and 30 of
    [search_books.py]). *)
(** [ORDER BY avg_rating DESC]: [a] may come before [b]. *)
Definition better_rated (a b : book_row) : bool :=
  value_le (avg_rating b) (avg_rating a).

Inductive printed : Type :=
| Welcome
| MatchesFor (keyword : string)
| NoBooksFound
| Found (avg_rating title : cell).

Record terminal : Type := mkTerminal {
  console : list printed;
  open_handles : nat
}.

Section Search.

(** SQLite's [LIKE] on two texts, and the text under which a number is
    kept in a [TEXT] column. *)
Variable sql_like : string -> string -> bool.
Variable sql_text : Q -> string.

(** [title LIKE pattern] on a stored title. *)
Definition title_like (pattern : string) (c : cell) : bool :=
  match c with
  | NaN => false
  | Str s => sql_like s pattern
  | Num x => sql_like (sql_text x) pattern
  end.

(** [WHERE title LIKE ?] with the parameter [%keyword%] of line 21. *)
Definition matches (keyword : string) (b : book_row) : bool :=
  title_like ("%" ++ keyword ++ "%") (title b).

(** The query of lines 13-21 of [search_books.py]. *)
Definition search_query (keyword : string) (t : list book_row) : list book_row :=
  firstn 10 (sort_by better_rated (filter (matches keyword) t)).

(** [search_vault] (lines 3-32 of [search_books.py]) on the database
    file [f], the user typing [keyword].  Without a books table the query
    raises and line 32 is not reached. *)
Definition search_vault (keyword : string) (f : db_file) : result unit * terminal :=
  match file_books f with
  | None =>
      (Raise (EnvError "no such table: books"),
       {| console := [Welcome]; open_handles := 1 |})
  | Some t =>
      let results := search_query keyword t in
      (Ok tt,
       {| console :=
            Welcome :: MatchesFor keyword ::
            match results with
            | [] => [NoBooksFound]
            | _ :: _ => map (fun b => Found (avg_rating b) (title b)) results
            end;
          open_handles := 0 |})
  end.

End Search.

Section Pipeline.

(** Python's [str.lower] and [str.strip]; the number that [read_csv] and
    [pd.to_numeric] read in a text, if they read one, and whether they
    read it as a whole number; the fields that [read_csv] takes for
    missing values (the empty field among them); and the texts that
    SQLite keeps in a [TEXT] column for a whole number and for a float
    (1 and 1.0). *)
Variable py_lower : string -> string.
Variable py_strip : string -> string.
Variable parse_number : string -> option Q.
Variable integer_literal : string -> bool.
Variable is_na : string -> bool.
Variable int_text : Z -> string.
Variable real_text : Q -> string.

(** *** Reading a chunk (line 55) *)

(** A line of the file: its fields, as texts, in the order of the
    header.  The lines are those the tokenizer keeps
    ([on_bad_lines='skip']); a line may be shorter than the header. *)
Definition line := list string.

(** The field of a line under the [j]-th label. *)
Definition raw_field (j : nat) (l : line) : option string := nth_error l j.

Definition missing (f : option string) : bool :=
  match f with
  | None => true
  | Some t => is_na t
  end.

Definition reads_number (t : string) : bool :=
  match parse_number t with Some _ => true | None => false end.

Definition number_field (f : option string) : bool :=
  match f with
  | None => false
  | Some t => negb (is_na t) && reads_number t
  end.

Definition integer_field (f : option string) : bool :=
  match f with
  | None => false
  | Some t => negb (is_na t) && reads_number t && integer_literal t
  end.

(** The type that [read_csv] gives a column of a chunk, which it decides
    on all the fields of the column in that chunk: whole numbers when
    each field is one, floats when each field is a number or missing,
    objects otherwise and for a chunk without lines. *)
Definition infer_dtype (fields : list (option string)) : dtype :=
  match fields with
  | [] => object
  | _ :: _ =>
      if forallb integer_field fields then int64
      else if forallb (fun f => missing f || number_field f) fields then float64
      else object
  end.

(** A field as a cell of a column of type [d]. *)
Definition decode (d : dtype) (f : option string) : cell :=
  match f with
  | None => NaN
  | Some t =>
      if is_na t then NaN
      else match d with
           | object => Str t
           | _ => match parse_number t with
                  | Some x => Num x
                  | None => NaN
                  end
           end
  end.

(** The chunk that [read_csv] makes of [lines] under the header
    [labels]. *)
Definition read_frame (labels : list string) (lines : list line) : DataFrame :=
  let types :=
    map (fun j => infer_dtype (map (raw_field j) lines)) (seq 0 (length labels)) in
  {| columns := labels;
     rows := map (fun l =>
                    map (fun jc => (fst (snd jc), decode (snd (snd jc)) (raw_field (fst jc) l)))
                      (combine (seq 0 (length labels)) (combine labels types)))
               lines;
     dtypes := combine labels types |}.

(** [pd.read_csv(path, chunksize=chunksize, ...)] on a file with the
    header [labels] and the lines [lines]. *)
Definition read_chunks (chunksize : nat) (labels : list string) (lines : list line)
  : list DataFrame :=
  map (read_frame labels) (chunks_of chunksize lines).

(** *** Rating Normalizer (line 71) *)

(** [Rating.str.lower().str.strip().map(RATING_MAP).fillna(0)] on one
    element of a column that has the [.str] accessor. *)
Definition rating_normalizer (c : cell) : cell :=
  fillna 0 (map_dict RATING_MAP (str_method py_strip (str_method py_lower c))).

(** The same on the whole column, one vectorised call after the other;
    each [.str] asks for the accessor. *)
Definition rating_int_column (s : Series) : result Series :=
  texts <-? str_accessor s ;;
  texts <-? str_accessor (str_call py_lower texts) ;;
  Ok (fillna_series 0 (map_series RATING_MAP (str_call py_strip texts))).

(** *** Schema Mapper (lines 56-64 and 69-76) *)

(** [pd.to_numeric(..., errors='coerce')] on one element. *)
Definition to_numeric (c : cell) : cell :=
  match c with
  | Str s =>
      match parse_number s with
      | Some x => Num x
      | None => NaN
      end
  | _ => c
  end.

(** A text that [pd.to_numeric] reads as a whole number. *)
Definition whole (c : cell) : bool :=
  match c with
  | Str s => reads_number s && integer_literal s
  | _ => false
  end.

(** [pd.to_numeric(s, errors='coerce')]: a numeric column is returned
    as it is; a column of objects becomes a column of whole numbers when
    each element is read as one, and a column of floats otherwise, so as
    soon as one element is missing, not a number or a fraction. *)
Definition to_numeric_series (s : Series) : Series :=
  {| dtype_of := match dtype_of s with
                 | object => if forallb whole (values s) then int64 else float64
                 | d => d
                 end;
     values := map to_numeric (values s) |}.

Definition transform_books (chunk : DataFrame) : result DataFrame :=
  ids <-? getitem chunk "Id" ;;
  let chunk := setitem chunk "Id" (to_numeric_series ids) in
  rs <-? getitem chunk "Rating" ;;
  let chunk := setitem chunk "Rating" (to_numeric_series rs) in
  chunk <-? dropna ["Id"; "Name"] chunk ;;
  sel <-? select ["Id"; "Name"; "Rating"] chunk ;;
  Ok (rename [("Id", "book_id"); ("Name", "title"); ("Rating", "avg_rating")] sel).

Definition transform_ratings (chunk : DataFrame) : result DataFrame :=
  rs <-? getitem chunk "Rating" ;;
  levels <-? rating_int_column rs ;;
  let chunk := setitem chunk "rating_int" levels in
  chunk <-? dropna ["Name"; "ID"] chunk ;;
  sel <-? select ["Name"; "ID"; "Rating"; "rating_int"] chunk ;;
  Ok (rename [("Name", "book_title"); ("ID", "user_id"); ("Rating", "rating_text")] sel).

(** *** Writing a chunk of books (line 65) *)

(** The text that a [TEXT] column keeps for a cell of a column of type
    [d]: pandas binds an element of a column of whole numbers as an
    integer and any other number as a float, and SQLite turns either into
    its text. *)
Definition text_affinity (d : dtype) (c : cell) : cell :=
  match c with
  | Num x =>
      match d with
      | int64 => Str (int_text (Qfloor x))
      | _ => Str (real_text (Qred x))
      end
  | _ => c
  end.

(** A row of the clean chunk as [books] keeps it, the identifier column
    of the chunk having the type [d]. *)
Definition book_of_row (d : dtype) (r : row) : book_row :=
  {| book_id := text_affinity d (field "book_id" r);
     title := field "title" r;
     avg_rating := field "avg_rating" r |}.

(** The rows that [to_sql] hands to [insert_ignore] as [data_iter]. *)
Definition sql_books (clean_chunk : DataFrame) : list book_row :=
  map (book_of_row (column_dtype clean_chunk "book_id")) (rows clean_chunk).

(** [clean_chunk.to_sql('books', conn, if_exists='append', index=False,
    method=insert_ignore)] (line 65) *)
Definition to_sql_books (clean_chunk : DataFrame) (d : database) : database :=
  {| books := insert_ignore (books d) (sql_books clean_chunk);
     ratings := ratings d;
     rating_seq := rating_seq d;
     indexes := indexes d |}.

(** *** Chunked File Processor (lines 48-85) *)

(** The body of the loop, lines 56-79. *)
Definition loop_body (filename : string) (chunk : DataFrame)
    (write_error : option exn) (v : locals) : M locals :=
  if prefix "book" filename then
    clean_chunk <- lift (transform_books chunk) ;;
    to_sql (to_sql_books clean_chunk) write_error ;;
    ret {| total_processed := total_processed v + len clean_chunk;
           type_label := Some "books" |}
  else if prefix "user_rating" filename then
    clean_chunk <- lift (transform_ratings chunk) ;;
    to_sql (to_sql_ratings clean_chunk) write_error ;;
    ret {| total_processed := total_processed v + len clean_chunk;
           type_label := Some "ratings" |}
  else ret v.

Fixpoint for_chunks (filename : string) (events : list read_event) (v : locals)
  : M locals :=
  match events with
  | [] => ret v
  | ReadError e :: _ => raise e
  | Yield chunk write_error :: rest =>
      v' <- loop_body filename chunk write_error v ;;
      for_chunks filename rest v'
  end.

(** Lines 81-82.  The message reads [total_processed], [type_label],
    [filename] and [total_processed/elapsed], in that order. *)
Definition log_processed (filename : string) (elapsed : Q) (v : locals) : M unit :=
  match type_label v with
  | None => raise (UnboundLocalError "type_label")
  | Some label =>
      if Qeq_bool elapsed 0 then raise ZeroDivisionError
      else info (Processed (total_processed v) label filename
                   (inject_Z (Z.of_nat (total_processed v)) / elapsed))
  end.

Definition process_single_file (filename : string) (env : file_env) : M nat :=
  connect (connect_error env) ;;
  v <- try_finally
         (v <- for_chunks filename (reader env)
                 {| total_processed := 0; type_label := None |} ;;
          log_processed filename (elapsed env) v ;;
          ret v)
         close ;;
  ret (total_processed v).

(** *** Orchestration (lines 88-140) *)

(** [executor.map(lambda f: process_single_file(f, args.db), csv_files)]
    (line 113): every file is processed, here one after the other in the
    order of submission; what a call returns or raises is kept in its
    future. *)
Fixpoint executor_map (csv_files : list (string * file_env)) (s : state)
  : list (result nat) * state :=
  match csv_files with
  | [] => ([], s)
  | (filename, env) :: rest =>
      let (future, s1) := process_single_file filename env s in
      let (futures, s2) := executor_map rest s1 in
      (future :: futures, s2)
  end.

(** Lines 112-113: the iterator that [executor.map] returns is dropped
    unread, and leaving the [with] block waits for every future. *)
Definition dispatch (csv_files : list (string * file_env)) : M unit :=
  fun s => (Ok tt, snd (executor_map csv_files s)).

(** Lines 104-105. *)
Definition previews (env : run_env) : M unit :=
  preview (preview_book env) "book1-100k.csv" ;;
  preview (preview_rating env) "user_rating_0_to_1000.csv".

(** Line 109. *)
Definition csv_files_of (env : run_env) : list (string * file_env) :=
  sorted (filter (fun f => endswith ".csv" (fst f)) (listdir env)).

Definition run_steps (env : run_env) : M report :=
  connect None ;;
  previews env ;;
  close ;;
  dispatch (csv_files_of env) ;;
  connect None ;;
  modify_db create_indexes ;;
  d <- get_db ;;
  info EtlComplete ;;
  close ;;
  ret {| books_count := length (books d); ratings_count := length (ratings d) |}.

(** [run_production_etl], on the database file [f]: the schema
    statements of lines 94-99, then the steps above.  The log file is
    opened empty (line 19).  The top-5 query, the console output and the
    dashboard (lines 125-174) only read the two counts and the tables and
    are left out. *)
Definition run_production_etl (env : run_env) (f : db_file) : result report * state :=
  run_steps env {| db := init_schema f; log := []; open_connections := 0 |}.

(** *** Notions used in the statements *)

(** A book row is quarantined when its identifier is not a number after
    coercion or its title is missing. *)
Definition quarantined (r : row) : bool :=
  negb (notna (to_numeric (field "Id" r))) || negb (notna (field "Name" r)).

(** A book row in the canonical columns. *)
Definition canonical_book (r : row) : row :=
  [ ("book_id", to_numeric (field "Id" r));
    ("title", field "Name" r);
    ("avg_rating", to_numeric (field "Rating" r)) ].

(** A rating row is discarded when its book title or its user is
    missing. *)
Definition discarded (r : row) : bool :=
  negb (notna (field "Name" r)) || negb (notna (field "ID" r)).

(** A rating row in the canonical columns. *)
Definition canonical_rating (r : row) : row :=
  [ ("book_title", field "Name" r);
    ("user_id", field "ID" r);
    ("rating_text", field "Rating" r);
    ("rating_int", rating_normalizer (field "Rating" r)) ].

(** The stored rows whose identifier collides with [k]. *)
Definition rows_with_key (k : cell) (t : list book_row) : list book_row :=
  filter (fun r => same_key k (book_id r)) t.

(** What the PRIMARY KEY constraint guarantees of a books table. *)
Definition keys_unique (t : list book_row) : Prop :=
  forall k, (length (rows_with_key k t) <= 1)%nat.

(** The rating rows that appending [rs] creates when [seq] is the last
    identifier handed out. *)
Fixpoint numbered (seq : Z) (rs : list row) : list rating_row :=
  match rs with
  | [] => []
  | r :: rest =>
      {| rating_id := (seq + 1)%Z;
         book_title := field "book_title" r;
         user_id := field "user_id" r;
         rating_text := field "rating_text" r;
         rating_int := field "rating_int" r |} :: numbered (seq + 1)%Z rest
  end.

(** The book rows that one call of [process_single_file] sends to the
    store: those of the chunks met before the first error. *)
Fixpoint written_books (filename : string) (events : list read_event)
  : list book_row :=
  match events with
  | [] => []
  | ReadError _ :: _ => []
  | Yield chunk write_error :: rest =>
      if prefix "book" filename then
        match transform_books chunk, write_error with
        | Ok clean_chunk, None =>
            sql_books clean_chunk ++ written_books filename rest
        | _, _ => []
        end
      else []
  end.

(** A file with the header [labels] and the lines [lines], read in
    chunks of [chunksize] lines, the reader raising nothing and the store
    accepting every insert. *)
Definition streamed (chunksize : nat) (labels : list string) (lines : list line)
    (elapsed : Q) : file_env :=
  {| connect_error := None;
     reader := map (fun c => Yield c None) (read_chunks chunksize labels lines);
     elapsed := elapsed |}.

(** The first error the reader raises, if it raises at all. *)
Fixpoint first_read_error (events : list read_event) : option exn :=
  match events with
  | [] => None
  | ReadError e :: _ => Some e
  | Yield _ _ :: rest => first_read_error rest
  end.

(** The log entry of line 82. *)
Definition is_processed (e : log_entry) : bool :=
  match e with
  | Processed _ _ _ _ => true
  | _ => false
  end.

(** The surviving book rows of [rs], in the canonical columns. *)
Definition kept_books (rs : list row) : list row :=
  map canonical_book (filter (fun r => negb (quarantined r)) rs).

(** The surviving rating rows of [rs], in the canonical columns. *)
Definition kept_ratings (rs : list row) : list row :=
  map canonical_rating (filter (fun r => negb (discarded r)) rs).

(** One of the six rating levels, as a number. *)
Definition is_level (c : cell) : Prop :=
  exists n : Z, (0 <= n <= 5)%Z /\ c = Num (inject_Z n).

(** What the ratings path guarantees of a stored rating. *)
Definition rating_ok (r : rating_row) : Prop :=
  notna (book_title r) = true /\ notna (user_id r) = true /\ is_level (rating_int r).

(** The text that [books] keeps for the number of an identifier. *)
Definition numeric_key (c : cell) : Prop :=
  exists d x, c = text_affinity d (Num x).

(** What the books path guarantees of a stored book. *)
Definition book_ok (b : book_row) : Prop :=
  numeric_key (book_id b) /\ notna (title b) = true /\
  is_text (avg_rating b) = false.

(** [chunk[c]], for a column that the chunk has. *)
Definition column (chunk : DataFrame) (c : string) : Series :=
  {| dtype_of := column_dtype chunk c; values := map (field c) (rows chunk) |}.

(** The column that line 71 computes on a column with the accessor. *)
Definition levels_of (s : Series) : Series :=
  fillna_series 0 (map_series RATING_MAP (str_call py_strip (str_call py_lower s))).

(** What the Schema Mapper makes of a book chunk that has its three
    columns: the surviving rows, and the types of the chunk's columns with
    those of the two coerced columns in front. *)
Definition clean_books (chunk : DataFrame) : DataFrame :=
  {| columns := ["book_id"; "title"; "avg_rating"];
     rows := kept_books (rows chunk);
     dtypes :=
       map (fun b => (renamed [("Id", "book_id"); ("Name", "title");
                               ("Rating", "avg_rating")] (fst b), snd b))
         (("Rating", dtype_of (to_numeric_series (column chunk "Rating"))) ::
          ("Id", dtype_of (to_numeric_series (column chunk "Id"))) :: dtypes chunk) |}.

(** The same for a rating chunk whose [Rating] column has the
    accessor. *)
Definition clean_ratings (chunk : DataFrame) : DataFrame :=
  {| columns := ["book_title"; "user_id"; "rating_text"; "rating_int"];
     rows := kept_ratings (rows chunk);
     dtypes :=
       map (fun b => (renamed [("Name", "book_title"); ("ID", "user_id");
                               ("Rating", "rating_text")] (fst b), snd b))
         (("rating_int", dtype_of (levels_of (column chunk "Rating"))) :: dtypes chunk) |}.

(** The rating identifiers are 1, 2, ... in the order of the rows, and
    the counter stands at the last one. *)
Definition well_numbered (d : database) : Prop :=
  map rating_id (ratings d) = map Z.of_nat (seq 1 (length (ratings d))) /\
  rating_seq d = Z.of_nat (length (ratings d)).

(** What the loop raises on the event [ev] of a file named [filename],
    if it raises on it. *)
Definition fails (filename : string) (ev : read_event) : option exn :=
  match ev with
  | ReadError e => Some e
  | Yield chunk write_error =>
      if prefix "book" filename then
        match transform_books chunk with
        | Raise e => Some e
        | Ok _ => write_error
        end
      else if prefix "user_rating" filename then
        match transform_ratings chunk with
        | Raise e => Some e
        | Ok _ => write_error
        end
      else None
  end.

(** Two tables of the same size that hold the same identifiers. *)
Definition same_keys (t t' : list book_row) : Prop :=
  length t = length t' /\ forall k, has_key k t = has_key k t'.

(** The rating rows that one call of [process_single_file] sends to the
    store: those of the chunks met before the first error. *)
Fixpoint written_ratings (filename : string) (events : list read_event)
  : list row :=
  match events with
  | [] => []
  | ReadError _ :: _ => []
  | Yield chunk write_error :: rest =>
      if prefix "book" filename then
        match transform_books chunk, write_error with
        | Ok _, None => written_ratings filename rest
        | _, _ => []
        end
      else if prefix "user_rating" filename then
        match transform_ratings chunk, write_error with
        | Ok clean_chunk, None => rows clean_chunk ++ written_ratings filename rest
        | _, _ => []
        end
      else written_ratings filename rest
  end.

(** What the file [fe] of the folder sends to each table, nothing when
    its connection fails. *)
Definition sent_books (fe : string * file_env) : list book_row :=
  match connect_error (snd fe) with
  | Some _ => []
  | None => written_books (fst fe) (reader (snd fe))
  end.

Definition sent_ratings (fe : string * file_env) : list row :=
  match connect_error (snd fe) with
  | Some _ => []
  | None => written_ratings (fst fe) (reader (snd fe))
  end.


(** *** The worker pool (lines 112-113)

    [ThreadPoolExecutor(max_workers=W)]: W threads take the files from
    the queue in the order of submission, and each runs
    [process_single_file] on the file it took.  The threads share the
    database and the log and nothing else.  A thread is interrupted
    between two turns of its loop only: a [to_sql] call is one
    transaction, and whether the store refuses it is part of the file's
    environment. *)

(** A thread: idle, or inside [process_single_file] at the head of its
    loop, with [events] still to come and the local variables [v]. *)
Inductive worker : Type :=
| Idle
| Busy (filename : string) (env : file_env) (events : list read_event) (v : locals).

(** One step of a thread.  An idle thread takes the next file and
    opens its connection (line 50).  A busy thread makes one turn of the
    loop; when the loop is over it writes the log line, and then, or when
    the turn raises, it leaves the [try] block through [finally]. *)
Definition worker_step (w : worker) (queue : list (string * file_env)) (s : state)
  : worker * list (string * file_env) * state :=
  match w with
  | Idle =>
      match queue with
      | [] => (Idle, [], s)
      | (filename, env) :: queue' =>
          match connect (connect_error env) s with
          | (Ok _, s1) =>
              (Busy filename env (reader env)
                 {| total_processed := 0; type_label := None |}, queue', s1)
          | (Raise _, s1) => (Idle, queue', s1)
          end
      end
  | Busy filename env [] v =>
      (Idle, queue, snd (try_finally (log_processed filename (elapsed env) v) close s))
  | Busy filename env (ReadError e :: _) v =>
      (Idle, queue, snd (close s))
  | Busy filename env (Yield chunk write_error :: rest) v =>
      match loop_body filename chunk write_error v s with
      | (Ok v', s1) => (Busy filename env rest v', queue, s1)
      | (Raise _, s1) => (Idle, queue, snd (close s1))
      end
  end.

(** The step of the [i]-th thread. *)
Fixpoint step_thread (i : nat) (threads : list worker)
    (queue : list (string * file_env)) (s : state) {struct threads}
  : list worker * list (string * file_env) * state :=
  match threads with
  | [] => ([], queue, s)
  | w :: rest =>
      match i with
      | O =>
          let '(w', queue', s') := worker_step w queue s in (w' :: rest, queue', s')
      | S j =>
          let '(rest', queue', s') := step_thread j rest queue s in
          (w :: rest', queue', s')
      end
  end.

(** A run of the pool under a schedule, which names the thread that
    makes each step. *)
Fixpoint run_pool (schedule : list nat) (threads : list worker)
    (queue : list (string * file_env)) (s : state)
  : list worker * list (string * file_env) * state :=
  match schedule with
  | [] => (threads, queue, s)
  | i :: later =>
      let '(threads', queue', s') := step_thread i threads queue s in
      run_pool later threads' queue' s'
  end.

Definition idle (w : worker) : bool :=
  match w with Idle => true | Busy _ _ _ _ => false end.

(** What a thread will still send to each table. *)
Definition pending_books (w : worker) : list book_row :=
  match w with
  | Idle => []
  | Busy filename _ events _ => written_books filename events
  end.

Definition pending_ratings (w : worker) : list row :=
  match w with
  | Idle => []
  | Busy filename _ events _ => written_ratings filename events
  end.

(** ** Rating Normalizer *)

Lemma rating_normalizer_lookup (raw : string) :
  rating_normalizer (Str raw) =
  match dict_get (py_strip (py_lower raw)) RATING_MAP with
  | Some n => Num (inject_Z n)
  | None => Num 0
  end.
Proof.
  unfold rating_normalizer, str_method, map_dict.
  destruct (dict_get (py_strip (py_lower raw)) RATING_MAP); reflexivity.
Qed.

Lemma dict_get_absent {V} (k : string) (d : list (string * V)) :
  (forall v, ~ In (k, v) d) -> dict_get k d = None.
Proof.
  induction d as [|[k' v'] d IH]; intros H; simpl; [reflexivity|].
  destruct (String.eqb k k') eqn:E.
  - apply String.eqb_eq in E. subst. exfalso. apply (H v'). left. reflexivity.
  - apply IH. intros v Hin. apply (H v). right. exact Hin.
Qed.

(** What a [.str] method returns has the accessor again. *)
Lemma str_call_accessor (f : string -> string) (s : Series) :
  str_accessor (str_call f s) = Ok (str_call f s).
Proof.
  unfold str_accessor, str_call. cbn [dtype_of values].
  replace (existsb is_number (map (str_method f) (values s))) with false;
    [reflexivity|].
  symmetry. induction (values s) as [|c vs IH]; [reflexivity|].
  cbn [map existsb]. rewrite IH. destruct c; reflexivity.
Qed.

Lemma levels_of_values (s : Series) :
  values (levels_of s) = map rating_normalizer (values s).
Proof.
  unfold levels_of, fillna_series, map_series, str_call. cbn [values].
  rewrite !map_map. reflexivity.
Qed.

(** With the accessor, line 71 maps each element; without it, it
    raises. *)
Lemma rating_int_column_ok (s : Series) :
  is_ok (str_accessor s) = true -> rating_int_column s = Ok (levels_of s).
Proof.
  unfold rating_int_column. intros H.
  assert (E : str_accessor s = Ok s).
  { unfold str_accessor in *. destruct (dtype_of s); try discriminate H.
    destruct (existsb is_number (values s) && negb (existsb is_text (values s)));
      [discriminate H|reflexivity]. }
  rewrite E. cbn [rbind]. rewrite str_call_accessor. reflexivity.
Qed.

Lemma rating_int_column_error (s : Series) :
  is_ok (str_accessor s) = false -> rating_int_column s = Raise AttributeError.
Proof.
  unfold rating_int_column. intros H.
  assert (E : str_accessor s = Raise AttributeError).
  { unfold str_accessor in *. destruct (dtype_of s); try reflexivity.
    destruct (existsb is_number (values s) && negb (existsb is_text (values s)));
      [reflexivity|discriminate H]. }
  rewrite E. reflexivity.
Qed.

(** C1: for a label that, lower-cased and trimmed, is one of the six
    entries of the vocabulary, the Rating Normalizer returns 5, 4, 3, 2,
    1 and 0 in that order; for every other label, the empty text and a
    missing value included, it returns 0, and its result is always one
    of the six levels.  Line 71 applies it to each element of a column
    that has the [.str] accessor, which a column of texts has; on any
    other column, a column of numbers or of nothing but missing values
    for one, it raises [AttributeError]. *)
Theorem rating_normalizer_levels :
  (forall raw : string,
     let label := py_strip (py_lower raw) in
     (label = "it was amazing" -> rating_normalizer (Str raw) = Num 5) /\
     (label = "really liked it" -> rating_normalizer (Str raw) = Num 4) /\
     (label = "liked it" -> rating_normalizer (Str raw) = Num 3) /\
     (label = "it was ok" -> rating_normalizer (Str raw) = Num 2) /\
     (label = "did not like it" -> rating_normalizer (Str raw) = Num 1) /\
     (label = to_read_label -> rating_normalizer (Str raw) = Num 0) /\
     (label = EmptyString -> rating_normalizer (Str raw) = Num 0) /\
     ((forall n, ~ In (label, n) RATING_MAP) -> rating_normalizer (Str raw) = Num 0)) /\
  rating_normalizer NaN = Num 0 /\
  (forall c, exists n, (0 <= n <= 5)%Z /\ rating_normalizer c = Num (inject_Z n)) /\
  (forall s, is_ok (str_accessor s) = true ->
     exists levels,
       rating_int_column s = Ok levels /\
       values levels = map rating_normalizer (values s)) /\
  (forall s, is_ok (str_accessor s) = false ->
     rating_int_column s = Raise AttributeError) /\
  (forall s, dtype_of s <> object -> is_ok (str_accessor s) = false) /\
  (forall s, dtype_of s = object -> existsb is_text (values s) = true ->
     is_ok (str_accessor s) = true).
Proof.
  split; [|split; [|split; [|split; [|split; [|split]]]]].
  - intros raw label. subst label.
    repeat split; intros H; rewrite rating_normalizer_lookup;
      try (rewrite H; reflexivity).
    rewrite (dict_get_absent _ _ H). reflexivity.
  - reflexivity.
  - intros [|raw|x]; try (exists 0%Z; split; [lia|reflexivity]).
    rewrite rating_normalizer_lookup. unfold RATING_MAP. simpl.
    repeat match goal with
    | |- context [if ?b then _ else _] => destruct b
    end;
    match goal with
    | |- exists n, _ /\ Num (inject_Z ?m) = _ => exists m; split; [lia|reflexivity]
    | |- exists n, _ /\ Num 0 = _ => exists 0%Z; split; [lia|reflexivity]
    end.
  - intros s H. exists (levels_of s).
    split; [apply rating_int_column_ok, H|apply levels_of_values].
  - exact rating_int_column_error.
  - intros s H. unfold str_accessor. destruct (dtype_of s); try reflexivity.
    contradiction H. reflexivity.
  - intros s Hd Ht. unfold str_accessor. rewrite Hd, Ht.
    rewrite andb_false_r. reflexivity.
Qed.

(** ** Schema Mapper *)

Lemma combine_map_self {A B} (f : A -> B) (l : list A) :
  combine l (map f l) = map (fun x => (x, f x)) l.
Proof.
  induction l as [|x l IH]; simpl; [reflexivity|]. rewrite IH. reflexivity.
Qed.

Lemma filter_map_comm {A B} (p : B -> bool) (f : A -> B) (l : list A) :
  filter p (map f l) = map f (filter (fun x => p (f x)) l).
Proof.
  induction l as [|x l IH]; simpl; [reflexivity|].
  destruct (p (f x)); simpl; rewrite IH; reflexivity.
Qed.

Lemma filter_partition_length {A} (p : A -> bool) (l : list A) :
  (length (filter (fun x => negb (p x)) l) + length (filter p l) = length l)%nat.
Proof.
  induction l as [|x l IH]; simpl; [reflexivity|].
  destruct (p x); simpl; lia.
Qed.

(** Assigning to column [c] a series computed element by element from
    column [c'] rewrites each row on its own. *)
Lemma setitem_rows (df : DataFrame) (c c' : string) (f : cell -> cell) (d : dtype) :
  setitem df c {| dtype_of := d; values := map f (map (field c') (rows df)) |} =
  {| columns := if has_label c (columns df) then columns df else columns df ++ [c];
     rows := map (fun r => (c, f (field c' r)) :: r) (rows df);
     dtypes := (c, d) :: dtypes df |}.
Proof.
  unfold setitem. cbn [values dtype_of]. f_equal.
  rewrite map_map, combine_map_self, map_map. reflexivity.
Qed.

Lemma getitem_ok (df : DataFrame) (c : string) :
  has_label c (columns df) = true -> getitem df c = Ok (column df c).
Proof. intros H. unfold getitem. rewrite H. reflexivity. Qed.

Lemma to_numeric_series_column (df : DataFrame) (c : string) :
  to_numeric_series (column df c) =
  {| dtype_of := dtype_of (to_numeric_series (column df c));
     values := map to_numeric (map (field c) (rows df)) |}.
Proof. reflexivity. Qed.

(** A column keeps its type and its elements when another column is
    assigned. *)
Lemma column_setitem_other (df : DataFrame) (c c' : string) (s : Series) :
  String.eqb c c' = false ->
  length (values s) = length (rows df) ->
  column (setitem df c' s) c = column df c.
Proof.
  intros H Hl. unfold column, setitem, column_dtype.
  cbn [rows dtypes dict_get]. rewrite H. f_equal.
  rewrite map_map. destruct s as [d vs]. cbn [values] in *.
  revert vs Hl. induction (rows df) as [|r rs IH]; intros [|v vs] Hl;
    try discriminate Hl; [reflexivity|].
  cbn [combine map fst snd]. rewrite IH by (injection Hl; auto).
  f_equal. unfold field. cbn [dict_get]. rewrite H. reflexivity.
Qed.

Lemma transform_books_rows (chunk : DataFrame) :
  has_label "Id" (columns chunk) = true ->
  has_label "Name" (columns chunk) = true ->
  has_label "Rating" (columns chunk) = true ->
  transform_books chunk = Ok (clean_books chunk).
Proof.
  intros HI HN HR. unfold transform_books.
  rewrite (getitem_ok _ _ HI). cbn [rbind].
  assert (HC : column (setitem chunk "Id" (to_numeric_series (column chunk "Id")))
                 "Rating" = column chunk "Rating").
  { apply column_setitem_other; [reflexivity|].
    cbn [to_numeric_series column values]. rewrite !length_map. reflexivity. }
  rewrite getitem_ok, HC.
  2:{ cbn [setitem columns]. rewrite HI. exact HR. }
  cbn [rbind].
  rewrite (to_numeric_series_column chunk "Id").
  rewrite setitem_rows.
  replace (to_numeric_series (column chunk "Rating")) with
    {| dtype_of := dtype_of (to_numeric_series (column chunk "Rating"));
       values := map to_numeric
                   (map (field "Rating")
                      (map (fun r => ("Id", to_numeric (field "Id" r)) :: r)
                         (rows chunk))) |}.
  2:{ rewrite (to_numeric_series_column chunk "Rating"). f_equal.
      rewrite (map_map _ (field "Rating")). reflexivity. }
  match goal with
  | |- context [setitem ?df "Rating" _] =>
      rewrite (setitem_rows df "Rating" "Rating" to_numeric)
  end.
  cbn [columns rows dtypes]. rewrite HI, HR.
  unfold dropna, select, missing_labels. cbn [columns rows dtypes filter].
  rewrite HI, HN. cbn [negb rbind columns rows dtypes filter].
  rewrite HI, HN, HR. cbn [negb rbind].
  unfold rename, clean_books, kept_books. cbn [columns rows dtypes]. f_equal. f_equal.
  rewrite !map_map, !filter_map_comm, !map_map.
  erewrite filter_ext; [apply map_ext|].
  - intros r. reflexivity.
  - intros r. unfold complete, quarantined, field. simpl.
    destruct (notna (to_numeric _)), (notna _); reflexivity.
Qed.

Lemma has_label_app (c : string) (l1 l2 : list string) :
  has_label c (l1 ++ l2) = has_label c l1 || has_label c l2.
Proof. unfold has_label. apply existsb_app. Qed.

Lemma transform_ratings_rows (chunk : DataFrame) :
  has_label "Rating" (columns chunk) = true ->
  has_label "Name" (columns chunk) = true ->
  has_label "ID" (columns chunk) = true ->
  is_ok (str_accessor (column chunk "Rating")) = true ->
  transform_ratings chunk = Ok (clean_ratings chunk).
Proof.
  intros HR HN HI HS. unfold transform_ratings.
  rewrite (getitem_ok _ _ HR). cbn [rbind].
  rewrite (rating_int_column_ok _ HS). cbn [rbind].
  replace (levels_of (column chunk "Rating")) with
    {| dtype_of := dtype_of (levels_of (column chunk "Rating"));
       values := map rating_normalizer (map (field "Rating") (rows chunk)) |}.
  2:{ pose proof (levels_of_values (column chunk "Rating")) as HV.
      cbn [column values] in HV. rewrite <- HV.
      destruct (levels_of _); reflexivity. }
  rewrite setitem_rows.
  set (labels := columns chunk) in *.
  assert (HN' : has_label "Name"
            (if has_label "rating_int" labels then labels
             else labels ++ ["rating_int"]) = true)
    by (destruct (has_label "rating_int" labels);
        [exact HN | rewrite has_label_app, HN; reflexivity]).
  assert (HI' : has_label "ID"
            (if has_label "rating_int" labels then labels
             else labels ++ ["rating_int"]) = true)
    by (destruct (has_label "rating_int" labels);
        [exact HI | rewrite has_label_app, HI; reflexivity]).
  assert (HR' : has_label "Rating"
            (if has_label "rating_int" labels then labels
             else labels ++ ["rating_int"]) = true)
    by (destruct (has_label "rating_int" labels);
        [exact HR | rewrite has_label_app, HR; reflexivity]).
  assert (HL' : has_label "rating_int"
            (if has_label "rating_int" labels then labels
             else labels ++ ["rating_int"]) = true)
    by (destruct (has_label "rating_int" labels) eqn:E;
        [exact E | rewrite has_label_app, orb_comm; reflexivity]).
  unfold dropna, select, missing_labels. cbn [columns rows dtypes filter].
  rewrite HN', HI'. cbn [negb rbind columns rows dtypes filter].
  rewrite HN', HI', HR', HL'. cbn [negb rbind].
  unfold rename, clean_ratings, kept_ratings. cbn [columns rows dtypes]. f_equal. f_equal.
  rewrite !map_map, !filter_map_comm, !map_map.
  erewrite filter_ext; [apply map_ext|].
  - intros r. reflexivity.
  - intros r. unfold complete, discarded, field. simpl.
    destruct (notna _), (notna _); reflexivity.
Qed.

(** Without the accessor the ratings mapper raises at line 71, whatever
    the other columns. *)
Lemma transform_ratings_attribute_error (chunk : DataFrame) :
  has_label "Rating" (columns chunk) = true ->
  is_ok (str_accessor (column chunk "Rating")) = false ->
  transform_ratings chunk = Raise AttributeError.
Proof.
  intros HR HS. unfold transform_ratings, getitem. rewrite HR. cbn [rbind].
  fold (column chunk "Rating"). rewrite (rating_int_column_error _ HS). reflexivity.
Qed.

(** When a column is missing the books mapper raises. *)
Lemma transform_books_error (chunk : DataFrame) :
  has_label "Id" (columns chunk) && has_label "Name" (columns chunk)
  && has_label "Rating" (columns chunk) = false ->
  is_ok (transform_books chunk) = false.
Proof.
  intros H. unfold transform_books, getitem.
  destruct (has_label "Id" (columns chunk)) eqn:HI; cbn [rbind]; [|reflexivity].
  cbn [setitem columns]. rewrite HI.
  destruct (has_label "Rating" (columns chunk)) eqn:HR; cbn [rbind]; [|reflexivity].
  destruct (has_label "Name" (columns chunk)) eqn:HN; [discriminate H|].
  unfold dropna, missing_labels. cbn [setitem columns filter].
  rewrite !HI. rewrite !HR. rewrite !HI, !HN. cbn [negb rbind]. reflexivity.
Qed.

Lemma transform_ratings_error (chunk : DataFrame) :
  has_label "Rating" (columns chunk) && has_label "Name" (columns chunk)
  && has_label "ID" (columns chunk) = false ->
  is_ok (transform_ratings chunk) = false.
Proof.
  intros H. unfold transform_ratings, getitem.
  destruct (has_label "Rating" (columns chunk)) eqn:HR; cbn [rbind]; [|reflexivity].
  destruct (rating_int_column _) as [levels|e]; cbn [rbind]; [|reflexivity].
  unfold dropna, missing_labels. cbn [setitem columns filter].
  destruct (has_label "rating_int" (columns chunk)) eqn:HL.
  - destruct (has_label "Name" (columns chunk)) eqn:HN; cbn [negb];
      [|reflexivity].
    destruct (has_label "ID" (columns chunk)) eqn:HI; [discriminate H|].
    reflexivity.
  - rewrite !has_label_app.
    destruct (has_label "Name" (columns chunk)) eqn:HN;
      cbn [negb orb has_label existsb String.eqb];
      [|reflexivity].
    destruct (has_label "ID" (columns chunk)) eqn:HI; [discriminate H|].
    reflexivity.
Qed.

(** C2: on a book-catalog chunk, the Schema Mapper keeps exactly the
    rows that are not quarantined (identifier not numeric after
    coercion, or title missing), in their order and renamed into the
    columns book_id, title and avg_rating; surviving plus quarantined
    rows make up the input, and no surviving row lacks its identifier
    or its title. *)
Theorem schema_mapper_books_quarantine (chunk : DataFrame) :
  has_label "Id" (columns chunk) = true ->
  has_label "Name" (columns chunk) = true ->
  has_label "Rating" (columns chunk) = true ->
  exists clean_chunk,
    transform_books chunk = Ok clean_chunk /\
    columns clean_chunk = ["book_id"; "title"; "avg_rating"] /\
    rows clean_chunk =
      map canonical_book (filter (fun r => negb (quarantined r)) (rows chunk)) /\
    (len clean_chunk + length (filter quarantined (rows chunk)) = len chunk)%nat /\
    (forall r, In r (rows chunk) -> quarantined r = true ->
               ~ In (canonical_book r) (rows clean_chunk)) /\
    Forall (fun r => notna (field "book_id" r) = true /\
                     notna (field "title" r) = true) (rows clean_chunk).
Proof.
  intros HI HN HR.
  exists (clean_books chunk). split; [apply transform_books_rows; assumption|].
  unfold clean_books, kept_books. cbn [columns rows len].
  set (rs := rows chunk).
  assert (Hkept : forall r,
            In r (map canonical_book (filter (fun r => negb (quarantined r)) rs)) ->
            notna (field "book_id" r) = true /\ notna (field "title" r) = true).
  { intros r Hin. apply in_map_iff in Hin. destruct Hin as (r0 & <- & Hin).
    apply filter_In in Hin. destruct Hin as [_ Hq].
    unfold quarantined in Hq. unfold canonical_book, field. simpl.
    fold (field "Id" r0). fold (field "Name" r0).
    destruct (notna (to_numeric (field "Id" r0))), (notna (field "Name" r0));
      try discriminate Hq; split; reflexivity. }
  repeat split.
  - unfold len. cbn [rows]. rewrite length_map. apply filter_partition_length.
  - intros r _ Hq Hin. apply Hkept in Hin.
    unfold quarantined in Hq. unfold canonical_book, field in Hin. simpl in Hin.
    fold (field "Id" r) in Hin. fold (field "Name" r) in Hin.
    destruct Hin as [H1 H2]. rewrite H1, H2 in Hq. discriminate Hq.
  - apply Forall_forall. exact Hkept.
Qed.

(** ** The books table: first write wins *)

Lemma same_key_sym (a b : cell) : same_key a b = same_key b a.
Proof.
  destruct a, b; simpl; try reflexivity.
  - apply String.eqb_sym.
  - apply Qeq_bool_comm.
Qed.

Lemma same_key_trans (a b c : cell) :
  same_key a b = true -> same_key b c = true -> same_key a c = true.
Proof.
  destruct a, b, c; simpl; try discriminate.
  - intros H1 H2. apply String.eqb_eq in H1, H2. subst. apply String.eqb_refl.
  - apply Qeq_bool_trans.
Qed.

Lemma same_key_refl (a : cell) : notna a = true -> same_key a a = true.
Proof.
  destruct a; simpl; intros H; [discriminate H|apply String.eqb_refl|apply Qeq_bool_refl].
Qed.

Lemma has_key_compat (a b : cell) (t : list book_row) :
  same_key a b = true -> has_key a t = true -> has_key b t = true.
Proof.
  unfold has_key. intros Hab H.
  apply existsb_exists in H. destruct H as (r & Hin & Hr).
  apply existsb_exists. exists r. split; [exact Hin|].
  apply same_key_trans with a; [rewrite same_key_sym|]; assumption.
Qed.

Lemma has_key_app (k : cell) (t1 t2 : list book_row) :
  has_key k (t1 ++ t2) = has_key k t1 || has_key k t2.
Proof. unfold has_key. apply existsb_app. Qed.

Lemma has_key_insert_or_ignore (k : cell) (t : list book_row) (r : book_row) :
  has_key k t = true -> has_key k (insert_or_ignore t r) = true.
Proof.
  intros H. unfold insert_or_ignore.
  destruct (has_key (book_id r) t); [exact H|].
  rewrite has_key_app, H. reflexivity.
Qed.

Lemma has_key_insert_ignore (k : cell) (data_iter : list book_row) :
  forall t, has_key k t = true -> has_key k (insert_ignore t data_iter) = true.
Proof.
  unfold insert_ignore.
  induction data_iter as [|r rest IH]; intros t H; simpl; [exact H|].
  apply IH, has_key_insert_or_ignore, H.
Qed.

(** A colliding row is dropped: the table is left as it was. *)
Lemma insert_or_ignore_collision (t : list book_row) (r : book_row) :
  has_key (book_id r) t = true -> insert_or_ignore t r = t.
Proof. intros H. unfold insert_or_ignore. rewrite H. reflexivity. Qed.

Lemma rows_with_key_insert_or_ignore (k : cell) (t : list book_row) (r : book_row) :
  has_key k t = true ->
  rows_with_key k (insert_or_ignore t r) = rows_with_key k t.
Proof.
  intros H. unfold insert_or_ignore.
  destruct (has_key (book_id r) t) eqn:E; [reflexivity|].
  unfold rows_with_key. rewrite filter_app. simpl.
  destruct (same_key k (book_id r)) eqn:Ek; [|apply app_nil_r].
  rewrite (has_key_compat k (book_id r) t Ek H) in E. discriminate E.
Qed.

Lemma rows_with_key_insert_ignore (k : cell) (data_iter : list book_row) :
  forall t, has_key k t = true ->
            rows_with_key k (insert_ignore t data_iter) = rows_with_key k t.
Proof.
  unfold insert_ignore.
  induction data_iter as [|r rest IH]; intros t H; simpl; [reflexivity|].
  rewrite IH by (apply has_key_insert_or_ignore, H).
  apply rows_with_key_insert_or_ignore, H.
Qed.

Lemma has_key_rows_with_key (k : cell) (t : list book_row) :
  has_key k t = true -> (1 <= length (rows_with_key k t))%nat.
Proof.
  unfold has_key, rows_with_key.
  induction t as [|r t IH]; simpl; [discriminate|].
  destruct (same_key k (book_id r)); simpl; intros H; [lia|apply IH, H].
Qed.

(** The table only grows, at its end. *)
Lemma insert_ignore_extends (data_iter : list book_row) :
  forall t, exists added, insert_ignore t data_iter = t ++ added.
Proof.
  unfold insert_ignore.
  induction data_iter as [|r rest IH]; intros t; simpl.
  - exists []. symmetry. apply app_nil_r.
  - destruct (IH (insert_or_ignore t r)) as [added E]. rewrite E.
    unfold insert_or_ignore. destruct (has_key (book_id r) t).
    + exists added. reflexivity.
    + exists ([r] ++ added). rewrite app_assoc. reflexivity.
Qed.

Lemma insert_ignore_app (t : list book_row) (l1 l2 : list book_row) :
  insert_ignore t (l1 ++ l2) = insert_ignore (insert_ignore t l1) l2.
Proof. unfold insert_ignore. apply fold_left_app. Qed.

(** Rows whose identifiers are all stored already change nothing. *)
Lemma insert_ignore_present (data_iter : list book_row) (t : list book_row) :
  Forall (fun r => has_key (book_id r) t = true) data_iter ->
  insert_ignore t data_iter = t.
Proof.
  unfold insert_ignore. induction 1 as [|r rest Hr _ IH]; simpl; [reflexivity|].
  rewrite insert_or_ignore_collision by exact Hr. exact IH.
Qed.

(** Once a batch went through, each of its identifiers is stored. *)
Lemma insert_ignore_stores (data_iter : list book_row) :
  forall t,
    Forall (fun r => notna (book_id r) = true) data_iter ->
    Forall (fun r => has_key (book_id r) (insert_ignore t data_iter) = true) data_iter.
Proof.
  induction data_iter as [|r rest IH]; intros t H; [constructor|].
  inversion H as [|? ? Hr Hrest]; subst.
  change (insert_ignore t (r :: rest)) with (insert_ignore (insert_or_ignore t r) rest).
  constructor; [|apply IH, Hrest].
  apply has_key_insert_ignore. unfold insert_or_ignore.
  destruct (has_key (book_id r) t) eqn:E; [exact E|].
  rewrite has_key_app. simpl. rewrite (same_key_refl _ Hr).
  apply orb_true_r.
Qed.

Lemma insert_ignore_idempotent (data_iter t : list book_row) :
  Forall (fun r => notna (book_id r) = true) data_iter ->
  insert_ignore (insert_ignore t data_iter) data_iter = insert_ignore t data_iter.
Proof.
  intros H. apply insert_ignore_present, insert_ignore_stores, H.
Qed.

(** ** The chunk loop *)

Lemma books_to_sql_ratings (clean_chunk : DataFrame) (d : database) :
  books (to_sql_ratings clean_chunk d) = books d.
Proof.
  unfold to_sql_ratings. generalize d.
  induction (rows clean_chunk) as [|r rest IH]; intros d0; simpl; [reflexivity|].
  rewrite IH. reflexivity.
Qed.

(** What the mappers return, when they return. *)
Lemma transform_books_ok (chunk clean_chunk : DataFrame) :
  transform_books chunk = Ok clean_chunk -> clean_chunk = clean_books chunk.
Proof.
  intros H.
  destruct (has_label "Id" (columns chunk) && has_label "Name" (columns chunk)
            && has_label "Rating" (columns chunk)) eqn:E.
  - apply andb_prop in E. destruct E as [E HR].
    apply andb_prop in E. destruct E as [HI HN].
    rewrite (transform_books_rows chunk HI HN HR) in H. congruence.
  - pose proof (transform_books_error chunk E) as E2.
    rewrite H in E2. discriminate E2.
Qed.

Lemma transform_ratings_ok (chunk clean_chunk : DataFrame) :
  transform_ratings chunk = Ok clean_chunk ->
  clean_chunk = clean_ratings chunk /\
  is_ok (str_accessor (column chunk "Rating")) = true.
Proof.
  intros H.
  destruct (has_label "Rating" (columns chunk) && has_label "Name" (columns chunk)
            && has_label "ID" (columns chunk)) eqn:E.
  - apply andb_prop in E. destruct E as [E HI].
    apply andb_prop in E. destruct E as [HR HN].
    destruct (is_ok (str_accessor (column chunk "Rating"))) eqn:HS.
    + rewrite (transform_ratings_rows chunk HR HN HI HS) in H.
      split; congruence.
    + rewrite (transform_ratings_attribute_error chunk HR HS) in H. discriminate H.
  - pose proof (transform_ratings_error chunk E) as E2.
    rewrite H in E2. discriminate E2.
Qed.

Lemma text_affinity_notna (d : dtype) (c : cell) :
  notna (text_affinity d c) = notna c.
Proof. destruct c as [|s|x]; try reflexivity. destruct d; reflexivity. Qed.

Lemma transform_books_keys (chunk clean_chunk : DataFrame) :
  transform_books chunk = Ok clean_chunk ->
  Forall (fun r => notna (book_id r) = true) (sql_books clean_chunk).
Proof.
  intros H. apply transform_books_ok in H. subst clean_chunk.
  unfold sql_books, clean_books, kept_books. cbn [rows].
  apply Forall_forall. intros b Hb.
  apply in_map_iff in Hb. destruct Hb as (r & <- & Hr).
  apply in_map_iff in Hr. destruct Hr as (r0 & <- & Hr0).
  apply filter_In in Hr0. destruct Hr0 as [_ Hq].
  unfold quarantined in Hq. unfold book_of_row. cbn [book_id].
  rewrite text_affinity_notna. unfold canonical_book, field. simpl.
  fold (field "Id" r0).
  destruct (notna (to_numeric (field "Id" r0))); [reflexivity|discriminate Hq].
Qed.

Lemma written_books_keys (filename : string) (events : list read_event) :
  Forall (fun r => notna (book_id r) = true) (written_books filename events).
Proof.
  induction events as [|[e|chunk write_error] rest IH]; simpl; try constructor.
  destruct (prefix "book" filename); [|constructor].
  destruct (transform_books chunk) as [clean_chunk|e] eqn:E; [|constructor].
  destruct write_error; [constructor|].
  apply Forall_app. split; [|exact IH].
  apply (transform_books_keys chunk), E.
Qed.

Lemma written_books_other (filename : string) (events : list read_event) :
  prefix "book" filename = false -> written_books filename events = [].
Proof.
  intros H. induction events as [|[e|chunk write_error] rest IH]; simpl;
    try reflexivity.
  rewrite H. reflexivity.
Qed.

(** The loop writes no log entry, opens and closes no connection, and
    touches the books table only through [insert_ignore]. *)
Lemma for_chunks_effect (filename : string) (events : list read_event) :
  forall v s,
    let s' := snd (for_chunks filename events v s) in
    log s' = log s /\
    open_connections s' = open_connections s /\
    books (db s') = insert_ignore (books (db s)) (written_books filename events).
Proof.
  induction events as [|[e|chunk write_error] rest IH]; intros v s;
    [repeat split..|].
  cbn [for_chunks written_books]. unfold bind at 1, loop_body.
  destruct (prefix "book" filename) eqn:Hbook.
  - unfold bind, lift, to_sql.
    destruct (transform_books chunk) as [clean_chunk|e]; [|repeat split].
    destruct write_error as [e|]; [repeat split|].
    unfold modify_db, ret.
    match goal with
    | |- context [for_chunks filename rest ?v' ?s'] =>
        destruct (IH v' s') as (Hl & Ho & Hb)
    end.
    cbv zeta. rewrite Hl, Ho, Hb. cbn [db log open_connections books to_sql_books].
    rewrite insert_ignore_app. repeat split.
  - destruct (prefix "user_rating" filename).
    + unfold bind, lift, to_sql.
      destruct (transform_ratings chunk) as [clean_chunk|e]; [|repeat split].
      destruct write_error as [e|]; [repeat split|].
      unfold modify_db, ret.
      match goal with
      | |- context [for_chunks filename rest ?v' ?s'] =>
          destruct (IH v' s') as (Hl & Ho & Hb)
      end.
      cbv zeta. rewrite Hl, Ho, Hb. cbn [db log open_connections].
      rewrite books_to_sql_ratings, (written_books_other filename rest Hbook).
      repeat split.
    + unfold bind, ret. destruct (IH v s) as (Hl & Ho & Hb).
      cbv zeta. rewrite Hl, Ho, Hb.
      rewrite (written_books_other filename rest Hbook). repeat split.
Qed.

(** ** One file *)

(** What a call of [process_single_file] leaves behind: as many open
    connections as before, a books table extended through
    [insert_ignore], and one log entry if it returns, none if it
    raises. *)
Lemma process_single_file_effect (filename : string) (env : file_env)
    (s s' : state) (r : result nat) :
  process_single_file filename env s = (r, s') ->
  open_connections s' = open_connections s /\
  books (db s') =
    insert_ignore (books (db s))
      (match connect_error env with
       | Some _ => []
       | None => written_books filename (reader env)
       end) /\
  match r with
  | Raise _ => log s' = log s
  | Ok n => exists label,
      log s' = log s ++
        [Processed n label filename (inject_Z (Z.of_nat n) / elapsed env)]
  end.
Proof.
  unfold process_single_file, connect.
  destruct (connect_error env) as [e|].
  { intros [= <- <-]. repeat split. }
  unfold bind at 1. unfold bind at 1. unfold try_finally, bind at 1.
  match goal with
  | |- context [for_chunks filename (reader env) ?v0 ?s1] =>
      pose proof (for_chunks_effect filename (reader env) v0 s1) as H;
      destruct (for_chunks filename (reader env) v0 s1) as [[v|e] s2]
  end; cbv zeta in H; cbn [fst snd db log open_connections] in H;
    destruct H as (Hl & Ho & Hb).
  - unfold log_processed, bind.
    destruct (type_label v) as [label|].
    + destruct (Qeq_bool (elapsed env) 0).
      * cbn. intros [= <- <-]. cbn. rewrite Hl, Ho, Hb. repeat split.
      * cbn. intros [= <- <-]. cbn. rewrite Hl, Ho, Hb. repeat split.
        exists label. reflexivity.
    + cbn. intros [= <- <-]. cbn. rewrite Hl, Ho, Hb. repeat split.
  - cbn. intros [= <- <-]. cbn. rewrite Hl, Ho, Hb. repeat split.
Qed.

(** C7: whatever the exit path of [process_single_file] (the reader,
    the Schema Mapper or the insert raising, the final log line
    failing, or a normal return), the connection it opened at line 50
    has been closed when it is left: the number of open connections is
    what it was before the call.  When [sqlite3.connect] itself raises,
    none was opened. *)
Theorem connection_closed_on_every_path (filename : string) (env : file_env)
    (s : state) :
  open_connections (snd (process_single_file filename env s)) = open_connections s.
Proof.
  destruct (process_single_file filename env s) as [r s'] eqn:E.
  apply (process_single_file_effect _ _ _ _ _ E).
Qed.

Lemma rows_with_key_absent (k : cell) (t : list book_row) :
  has_key k t = false -> rows_with_key k t = [].
Proof.
  unfold has_key, rows_with_key.
  induction t as [|r t IH]; simpl; [reflexivity|].
  destruct (same_key k (book_id r)); simpl; [discriminate|exact IH].
Qed.

(** [INSERT OR IGNORE] keeps the constraint. *)
Lemma keys_unique_insert_ignore (data_iter : list book_row) :
  forall t, keys_unique t -> keys_unique (insert_ignore t data_iter).
Proof.
  unfold insert_ignore.
  induction data_iter as [|r rest IH]; intros t H; simpl; [exact H|].
  apply IH. unfold insert_or_ignore.
  destruct (has_key (book_id r) t) eqn:E; [exact H|].
  intros k. unfold rows_with_key. rewrite filter_app, length_app. simpl.
  destruct (same_key k (book_id r)) eqn:Ek; simpl.
  - destruct (has_key k t) eqn:Hk.
    + rewrite (has_key_compat k (book_id r) t Ek Hk) in E. discriminate E.
    + fold (rows_with_key k t). rewrite (rows_with_key_absent k t Hk). simpl. lia.
  - specialize (H k). unfold rows_with_key in H. lia.
Qed.

Lemma Qred_inject_Z (z : Z) : Qred (inject_Z z) = inject_Z z.
Proof.
  unfold Qred, inject_Z.
  pose proof (Z.ggcd_gcd z 1) as Hg.
  pose proof (Z.ggcd_correct_divisors z 1) as Hd.
  destruct (Z.ggcd z 1) as (g, (a, b)). cbn [fst snd] in *.
  rewrite Z.gcd_1_r in Hg. subst g. destruct Hd as [Ha Hb].
  rewrite Z.mul_1_l in Ha, Hb. subst a b. reflexivity.
Qed.

(** C3: the key of [books] is the text kept for the identifier.  In a
    books table that holds a row for a key, whatever is inserted later
    (by any file, chunk or run, all of which go through [insert_ignore])
    leaves the rows stored for that key as they were, exactly one of
    them; a later row with that key is dropped and the table is left
    untouched; processing the same file a second time, in the same run or
    after the next run's schema statements, leaves the books table as the
    first time left it.  The uniqueness of stored keys that this rests on
    holds of a new table and is kept by every call.  Two rows with the
    same number for identifier have the same key when their chunks keep
    the identifiers in the same type; when one chunk keeps whole numbers
    and the other floats, the keys are the two texts of the number, and
    where these differ both rows are stored. *)
Theorem books_first_write_wins :
  (forall (t later : list book_row) (k : cell),
     keys_unique t -> has_key k t = true ->
     rows_with_key k (insert_ignore t later) = rows_with_key k t /\
     length (rows_with_key k (insert_ignore t later)) = 1%nat /\
     (forall r, same_key k (book_id r) = true ->
                insert_or_ignore (insert_ignore t later) r = insert_ignore t later)) /\
  (forall (filename : string) (env : file_env) (s : state) (k : cell),
     keys_unique (books (db s)) -> has_key k (books (db s)) = true ->
     let s' := snd (process_single_file filename env s) in
     rows_with_key k (books (db s')) = rows_with_key k (books (db s)) /\
     length (rows_with_key k (books (db s'))) = 1%nat) /\
  (forall (filename : string) (env : file_env) (s : state),
     let s1 := snd (process_single_file filename env s) in
     let s2 := snd (process_single_file filename env s1) in
     books (db s2) = books (db s1)) /\
  (forall d : database, books (init_schema (stored d)) = books d) /\
  keys_unique (books (init_schema fresh_file)) /\
  (forall (filename : string) (env : file_env) (s : state),
     keys_unique (books (db s)) ->
     keys_unique (books (db (snd (process_single_file filename env s))))) /\
  (forall (d : dtype) (r1 r2 : row) (x y : Q),
     field "book_id" r1 = Num x -> field "book_id" r2 = Num y -> x == y ->
     book_id (book_of_row d r1) = book_id (book_of_row d r2)) /\
  (forall (z : Z) (r : row) (t : list book_row),
     field "book_id" r = Num (inject_Z z) ->
     int_text z <> real_text (inject_Z z) ->
     has_key (Str (int_text z)) t = false ->
     has_key (Str (real_text (inject_Z z))) t = false ->
     insert_ignore t [book_of_row int64 r; book_of_row float64 r] =
     t ++ [book_of_row int64 r; book_of_row float64 r]).
Proof.
  assert (A : forall (t later : list book_row) (k : cell),
             keys_unique t -> has_key k t = true ->
             rows_with_key k (insert_ignore t later) = rows_with_key k t /\
             length (rows_with_key k (insert_ignore t later)) = 1%nat).
  { intros t later k Hu Hk.
    rewrite (rows_with_key_insert_ignore k later t Hk). split; [reflexivity|].
    pose proof (Hu k). pose proof (has_key_rows_with_key k t Hk). lia. }
  split; [|split; [|split; [|split; [|split; [|split; [|split]]]]]].
  - intros t later k Hu Hk. destruct (A t later k Hu Hk) as [A1 A2].
    repeat split; [exact A1|exact A2|].
    intros r Hr. apply insert_or_ignore_collision.
    apply (has_key_compat k); [exact Hr|].
    apply has_key_insert_ignore, Hk.
  - intros filename env s k Hu Hk s'. subst s'.
    destruct (process_single_file filename env s) as [r s'] eqn:E.
    destruct (process_single_file_effect _ _ _ _ _ E) as (_ & Hb & _).
    cbn [snd]. rewrite Hb. apply A; assumption.
  - intros filename env s s1 s2. subst s1 s2.
    destruct (process_single_file filename env s) as [r1 s1] eqn:E1.
    cbn [snd].
    destruct (process_single_file filename env s1) as [r2 s2] eqn:E2.
    destruct (process_single_file_effect _ _ _ _ _ E1) as (_ & Hb1 & _).
    destruct (process_single_file_effect _ _ _ _ _ E2) as (_ & Hb2 & _).
    cbn [snd]. rewrite Hb2, Hb1.
    apply insert_ignore_idempotent.
    destruct (connect_error env); [constructor|apply written_books_keys].
  - intros d. reflexivity.
  - intros k. cbn. lia.
  - intros filename env s Hu.
    destruct (process_single_file filename env s) as [r s'] eqn:E.
    destruct (process_single_file_effect _ _ _ _ _ E) as (_ & Hb & _).
    cbn [snd]. rewrite Hb. apply keys_unique_insert_ignore, Hu.
  - intros d r1 r2 x y H1 H2 Hxy. unfold book_of_row. cbn [book_id].
    rewrite H1, H2. unfold text_affinity.
    destruct d; try (rewrite (Qred_complete _ _ Hxy); reflexivity).
    rewrite Hxy. reflexivity.
  - intros z r t Hr Hne Hi Hf.
    unfold insert_ignore. cbn [fold_left]. unfold insert_or_ignore at 2.
    unfold book_of_row at 1. cbn [book_id]. rewrite Hr.
    cbn [text_affinity]. rewrite Qfloor_Z, Hi.
    unfold insert_or_ignore, book_of_row at 1. cbn [book_id]. rewrite Hr.
    cbn [text_affinity]. rewrite Qred_inject_Z, has_key_app, Hf.
    unfold has_key at 1. cbn [existsb book_id book_of_row]. rewrite Hr.
    cbn [text_affinity same_key]. rewrite Qfloor_Z.
    destruct (String.eqb (real_text (inject_Z z)) (int_text z)) eqn:E.
    + apply String.eqb_eq in E. contradiction Hne. symmetry. exact E.
    + cbn [orb]. rewrite <- app_assoc. reflexivity.
Qed.

(** ** Files of another kind *)

Lemma for_chunks_other (filename : string) (events : list read_event) :
  prefix "book" filename = false ->
  prefix "user_rating" filename = false ->
  forall v s,
    for_chunks filename events v s =
    (match first_read_error events with
     | Some e => Raise e
     | None => Ok v
     end, s).
Proof.
  intros Hb Hu.
  induction events as [|[e|chunk write_error] rest IH]; intros v s;
    try reflexivity.
  cbn [for_chunks first_read_error]. unfold bind at 1, loop_body.
  rewrite Hb, Hu. unfold ret. apply IH.
Qed.

(** C5, as the code has it: a file whose name starts with neither
    [book] nor [user_rating] writes nothing to the store and nothing to
    the log, and its connection is closed, but [process_single_file]
    never returns for it: it raises, and when connecting and reading
    went well what it raises is [UnboundLocalError] for [type_label],
    at the log line 82. *)
Theorem unrecognized_file_raises (filename : string) (env : file_env) (s : state) :
  prefix "book" filename = false ->
  prefix "user_rating" filename = false ->
  exists e,
    process_single_file filename env s = (Raise e, s) /\
    (connect_error env = None -> first_read_error (reader env) = None ->
     e = UnboundLocalError "type_label").
Proof.
  intros Hb Hu. unfold process_single_file, connect.
  destruct (connect_error env) as [e|].
  { exists e. split; [reflexivity|discriminate]. }
  unfold bind at 1. unfold bind at 1. unfold try_finally, bind at 1.
  rewrite (for_chunks_other filename (reader env) Hb Hu).
  destruct s as [d l n].
  destruct (first_read_error (reader env)) as [e|].
  - exists e. split; [reflexivity|discriminate].
  - exists (UnboundLocalError "type_label"). split; reflexivity.
Qed.

(** ** The ratings table: plain appends *)

Lemma to_sql_ratings_appends (rs : list row) :
  forall d,
    let d' := fold_left insert_rating rs d in
    ratings d' = ratings d ++ numbered (rating_seq d) rs /\
    books d' = books d /\
    rating_seq d' = (rating_seq d + Z.of_nat (length rs))%Z.
Proof.
  induction rs as [|r rest IH]; intros d; cbv zeta.
  - cbn. rewrite app_nil_r, Z.add_0_r. repeat split.
  - cbn [fold_left numbered length]. destruct (IH (insert_rating d r)) as (Hr & Hb & Hs).
    rewrite Hr, Hb, Hs. cbn [insert_rating ratings books rating_seq].
    rewrite <- app_assoc. repeat split. lia.
Qed.

Lemma numbered_length (seq : Z) (rs : list row) :
  length (numbered seq rs) = length rs.
Proof.
  revert seq. induction rs as [|r rest IH]; intros seq; simpl; [reflexivity|].
  rewrite IH. reflexivity.
Qed.

Lemma user_rating_not_book (filename : string) :
  prefix "user_rating" filename = true -> prefix "book" filename = false.
Proof.
  destruct filename as [|c r]; [discriminate|]. cbn [prefix].
  destruct (ascii_dec "u" c) as [<-|]; intros H; [|discriminate H].
  destruct (ascii_dec "b" "u") as [E|]; [discriminate E|reflexivity].
Qed.

(** The loop only ever appends to the ratings table, and for a file
    that is not a book file it counts exactly the rows it appended. *)
Lemma for_chunks_ratings (filename : string) (events : list read_event) :
  forall v s r s',
    for_chunks filename events v s = (r, s') ->
    exists added,
      ratings (db s') = ratings (db s) ++ added /\
      (prefix "book" filename = false ->
       forall v', r = Ok v' ->
                  total_processed v' = (total_processed v + length added)%nat).
Proof.
  induction events as [|[e|chunk write_error] rest IH]; intros v s r s'.
  - intros [= <- <-]. exists []. rewrite app_nil_r. split; [reflexivity|].
    intros _ v' [= <-]. cbn. lia.
  - intros [= <- <-]. exists []. rewrite app_nil_r. split; [reflexivity|].
    intros _ v' [=].
  - cbn [for_chunks]. unfold bind at 1, loop_body.
    destruct (prefix "book" filename) eqn:Hbook.
    + unfold bind, lift, to_sql.
      destruct (transform_books chunk) as [clean_chunk|e].
      2:{ intros [= <- <-]. exists []. rewrite app_nil_r. split; [reflexivity|].
          discriminate. }
      destruct write_error as [e|].
      { intros [= <- <-]. exists []. rewrite app_nil_r. split; [reflexivity|].
        discriminate. }
      unfold modify_db, ret. intros H. apply IH in H.
      destruct H as (added & Ha & _). exists added. split; [exact Ha|discriminate].
    + destruct (prefix "user_rating" filename).
      * unfold bind, lift, to_sql.
        destruct (transform_ratings chunk) as [clean_chunk|e].
        2:{ intros [= <- <-]. exists []. rewrite app_nil_r. split; [reflexivity|].
            intros _ v' [=]. }
        destruct write_error as [e|].
        { intros [= <- <-]. exists []. rewrite app_nil_r. split; [reflexivity|].
          intros _ v' [=]. }
        unfold modify_db, ret. intros H. apply IH in H.
        destruct H as (added & Ha & Hn). cbn [db total_processed] in Ha, Hn.
        unfold to_sql_ratings in Ha.
        destruct (to_sql_ratings_appends (rows clean_chunk) (db s)) as (Hr & _ & _).
        rewrite Hr in Ha.
        exists (numbered (rating_seq (db s)) (rows clean_chunk) ++ added).
        split; [rewrite Ha, app_assoc; reflexivity|].
        intros _ v' Hv. rewrite (Hn eq_refl v' Hv).
        rewrite length_app, numbered_length. unfold len. lia.
      * unfold bind, ret. intros H. apply IH in H. exact H.
Qed.

Lemma process_single_file_ratings (filename : string) (env : file_env)
    (s s' : state) (r : result nat) :
  process_single_file filename env s = (r, s') ->
  exists added,
    ratings (db s') = ratings (db s) ++ added /\
    (prefix "user_rating" filename = true ->
     forall n, r = Ok n -> length added = n).
Proof.
  unfold process_single_file, connect.
  destruct (connect_error env) as [e|].
  { intros [= <- <-]. exists []. rewrite app_nil_r. split; [reflexivity|].
    intros _ n [=]. }
  unfold bind at 1. unfold bind at 1. unfold try_finally, bind at 1.
  match goal with
  | |- context [for_chunks filename (reader env) ?v0 ?s1] =>
      pose proof (for_chunks_ratings filename (reader env) v0 s1) as H;
      destruct (for_chunks filename (reader env) v0 s1) as [[v|e] s2]
  end; destruct (H _ _ eq_refl) as (added & Ha & Hn); clear H;
    cbn [db total_processed] in Ha, Hn; intros Hrun; exists added.
  - unfold log_processed, bind in Hrun.
    destruct (type_label v) as [label|].
    + destruct (Qeq_bool (elapsed env) 0); cbn in Hrun;
        injection Hrun as <- <-; cbn; (split; [exact Ha|]); intros Hp n [=].
      subst n. rewrite (Hn (user_rating_not_book _ Hp) v eq_refl). reflexivity.
    + cbn in Hrun. injection Hrun as <- <-. cbn. split; [exact Ha|].
      intros _ n [=].
  - cbn in Hrun. injection Hrun as <- <-. cbn. split; [exact Ha|].
    intros _ n [=].
Qed.

(** ** The run *)

Lemma peek_rows_db (labels : list string) (rs : list row) :
  forall s, db (snd (peek_rows labels rs s)) = db s.
Proof.
  induction rs as [|r rest IH]; intros s; [reflexivity|].
  cbn [peek_rows]. unfold bind, lift.
  destruct (iloc labels 0 r); [|reflexivity].
  destruct (iloc labels 1 r); [|reflexivity].
  destruct (iloc labels 2 r); [|reflexivity].
  cbn. rewrite IH. reflexivity.
Qed.

Lemma preview_db (target : option (result DataFrame)) (filename : string) (s : state) :
  db (snd (preview target filename s)) = db s.
Proof.
  destruct target as [[df|e]|]; try reflexivity.
  unfold preview, bind at 1, lift. unfold peek_at_data, bind, info.
  match goal with
  | |- context [peek_rows ?l ?rs ?s0] =>
      pose proof (peek_rows_db l rs s0) as H;
      destruct (peek_rows l rs s0) as [[u|e] s1]
  end; cbn in H |- *; exact H.
Qed.

Lemma previews_db (env : run_env) (s : state) :
  db (snd (previews env s)) = db s.
Proof.
  unfold previews, bind.
  pose proof (preview_db (preview_book env) "book1-100k.csv" s) as H1.
  destruct (preview (preview_book env) "book1-100k.csv" s) as [[u|e] s1];
    cbn [snd] in H1 |- *; [|exact H1].
  rewrite preview_db. exact H1.
Qed.

Lemma executor_map_books (csv_files : list (string * file_env)) :
  forall s, exists added,
    books (db (snd (executor_map csv_files s))) = books (db s) ++ added.
Proof.
  induction csv_files as [|[filename env] rest IH]; intros s.
  - exists []. symmetry. apply app_nil_r.
  - cbn [executor_map].
    destruct (process_single_file filename env s) as [r s1] eqn:E.
    destruct (process_single_file_effect _ _ _ _ _ E) as (_ & Hb & _).
    destruct (IH s1) as [added2 H2].
    destruct (executor_map rest s1) as [futures s2]. cbn [snd] in H2 |- *.
    destruct (insert_ignore_extends
                (match connect_error env with
                 | Some _ => []
                 | None => written_books filename (reader env)
                 end) (books (db s))) as [added1 H1].
    exists (added1 ++ added2). rewrite H2, Hb, H1, app_assoc. reflexivity.
Qed.

Lemma run_steps_books (env : run_env) (s : state) :
  exists added, books (db (snd (run_steps env s))) = books (db s) ++ added.
Proof.
  unfold run_steps. unfold bind at 1. unfold connect at 1.
  unfold bind at 1.
  match goal with
  | |- context [previews env ?s0] =>
      pose proof (previews_db env s0) as Hp;
      destruct (previews env s0) as [[u|e] s1]
  end; cbn [snd db] in Hp.
  - unfold bind at 1. unfold close at 1. unfold bind at 1. unfold dispatch at 1.
    match goal with
    | |- context [executor_map (csv_files_of env) ?s0] =>
        destruct (executor_map_books (csv_files_of env) s0) as [added Ha];
        destruct (executor_map (csv_files_of env) s0) as [futures s2]
    end.
    cbn in Ha |- *. exists added. rewrite Ha, Hp. reflexivity.
  - exists []. cbn [snd]. rewrite Hp, app_nil_r. reflexivity.
Qed.

(** C6: the schema statements keep the books table when there is one
    and start an empty one otherwise, and they always start the ratings
    table empty, its counter reset; the books rows found at the start
    of a run are still there, in place, when the run ends; a ratings
    insert appends one stored row per row of the chunk, repeated rows
    included, each under a fresh rating_id, and keeps all rows stored
    before; so a ratings file that is processed to its end adds as many
    stored rows as it reports, after those of the files before it. *)
Theorem store_initializer_and_appends :
  (forall f : db_file,
     books (init_schema f) =
       match file_books f with Some t => t | None => [] end /\
     ratings (init_schema f) = [] /\
     rating_seq (init_schema f) = 0%Z) /\
  (forall (env : run_env) (f : db_file),
     exists added,
       books (db (snd (run_production_etl env f))) =
       match file_books f with Some t => t | None => [] end ++ added) /\
  (forall (clean_chunk : DataFrame) (d : database),
     ratings (to_sql_ratings clean_chunk d) =
       ratings d ++ numbered (rating_seq d) (rows clean_chunk) /\
     length (ratings (to_sql_ratings clean_chunk d)) =
       (length (ratings d) + len clean_chunk)%nat) /\
  (forall (filename : string) (env : file_env) (s : state),
     exists added,
       ratings (db (snd (process_single_file filename env s))) =
         ratings (db s) ++ added /\
       (prefix "user_rating" filename = true ->
        forall n, fst (process_single_file filename env s) = Ok n ->
                  length added = n)).
Proof.
  split; [|split; [|split]].
  - intros f. repeat split.
  - intros env f. unfold run_production_etl.
    destruct (run_steps_books env
                {| db := init_schema f; log := []; open_connections := 0 |})
      as [added H].
    exists added. exact H.
  - intros clean_chunk d. unfold to_sql_ratings.
    destruct (to_sql_ratings_appends (rows clean_chunk) d) as (Hr & _ & _).
    split; [exact Hr|].
    rewrite Hr, length_app, numbered_length. reflexivity.
  - intros filename env s.
    destruct (process_single_file filename env s) as [r s'] eqn:E.
    exact (process_single_file_ratings _ _ _ _ _ E).
Qed.

(** ** The dispatcher *)

(** The log grows by one line-82 entry per file that returned, and by
    nothing for a file that raised. *)
Lemma executor_map_log (csv_files : list (string * file_env)) :
  forall s, exists entries,
    log (snd (executor_map csv_files s)) = log s ++ entries /\
    length entries = length (filter is_ok (fst (executor_map csv_files s))) /\
    forallb is_processed entries = true.
Proof.
  induction csv_files as [|[filename env] rest IH]; intros s.
  - exists []. cbn. rewrite app_nil_r. repeat split.
  - cbn [executor_map].
    destruct (process_single_file filename env s) as [r s1] eqn:E.
    destruct (process_single_file_effect _ _ _ _ _ E) as (_ & _ & Hl).
    destruct (IH s1) as (entries & H1 & H2 & H3).
    destruct (executor_map rest s1) as [futures s2]. cbn [fst snd] in *.
    destruct r as [n|e].
    + destruct Hl as [label Hl].
      exists (Processed n label filename (inject_Z (Z.of_nat n) / elapsed env)
                :: entries).
      rewrite H1, Hl, <- app_assoc. cbn. rewrite H2, H3. repeat split.
    + exists entries. rewrite H1, Hl. cbn. rewrite H2, H3. repeat split.
Qed.

(** C10: a worker that raises leaves no log entry (and its connection
    closed); the dispatcher returns normally whatever the workers
    did, its log holding one entry per file that returned and none for
    the others; so, the two previews apart, the run always reaches the
    index and count statements, logs its completion and returns the two
    counts, which is all its report holds. *)
Theorem worker_exceptions_are_discarded :
  (forall (filename : string) (env : file_env) (s s' : state) (e : exn),
     process_single_file filename env s = (Raise e, s') ->
     log s' = log s /\ open_connections s' = open_connections s) /\
  (forall (csv_files : list (string * file_env)) (s : state),
     fst (dispatch csv_files s) = Ok tt /\
     exists entries,
       log (snd (dispatch csv_files s)) = log s ++ entries /\
       length entries = length (filter is_ok (fst (executor_map csv_files s))) /\
       forallb is_processed entries = true) /\
  (forall (env : run_env) (f : db_file),
     (forall s, is_ok (fst (previews env s)) = true) ->
     exists rep s' l,
       run_production_etl env f = (Ok rep, s') /\
       log s' = l ++ [EtlComplete] /\
       rep = {| books_count := length (books (db s'));
                ratings_count := length (ratings (db s')) |}).
Proof.
  split; [|split].
  - intros filename env s s' e E.
    destruct (process_single_file_effect _ _ _ _ _ E) as (Ho & _ & Hl).
    split; assumption.
  - intros csv_files s. split; [reflexivity|].
    unfold dispatch. cbn [snd]. apply executor_map_log.
  - intros env f Hprev. unfold run_production_etl, run_steps.
    unfold bind at 1. unfold connect at 1. unfold bind at 1.
    match goal with
    | |- context [previews env ?s0] =>
        specialize (Hprev s0); destruct (previews env s0) as [[u|e] s1]
    end; [|discriminate Hprev].
    unfold bind at 1. unfold close at 1. unfold bind at 1. unfold dispatch at 1.
    match goal with
    | |- context [executor_map (csv_files_of env) ?s0] =>
        destruct (executor_map (csv_files_of env) s0) as [futures s2]
    end.
    cbn. eexists. eexists. exists (log s2). repeat split.
Qed.

(** ** The end-to-end scenario *)

(** C8: with a parser that reads [1] as 1 and rejects [abc], a run
    over a folder that holds only the [book1-100k.csv] of the scenario,
    on a database with no table yet, ends with exactly one stored book
    row and no rating; so does a single call of [process_single_file] on
    that file.  The row has the title and the rating of the scenario; its
    identifier is the text that SQLite keeps for the float 1.0, the
    identifiers of the chunk being floats because [abc] among them is
    coerced to a missing value. *)
Theorem harry_potter_scenario (seconds : Q) :
  parse_number "1" = Some 1 ->
  parse_number "abc" = None ->
  (exists rep s,
     run_production_etl (harry_folder seconds) fresh_file = (Ok rep, s) /\
     books (db s) =
       [ {| book_id := Str (real_text 1); title := Str "Harry Potter";
            avg_rating := Num (9 # 2) |} ] /\
     ratings (db s) = [] /\
     rep = {| books_count := 1; ratings_count := 0 |}) /\
  books (db (snd (process_single_file "book1-100k.csv" (harry_file seconds)
                    {| db := init_schema fresh_file; log := [];
                       open_connections := 0 |}))) =
    [ {| book_id := Str (real_text 1); title := Str "Harry Potter";
         avg_rating := Num (9 # 2) |} ] /\
  column_dtype (clean_books harry_chunk) "book_id" = float64.
Proof.
  intros H1 Habc.
  assert (T : transform_books harry_chunk = Ok (clean_books harry_chunk))
    by (apply transform_books_rows; reflexivity).
  assert (D : column_dtype (clean_books harry_chunk) "book_id" = float64).
  { unfold column_dtype, clean_books, to_numeric_series, column, whole, reads_number.
    cbn. rewrite Habc. cbn. rewrite !andb_false_r. reflexivity. }
  assert (B : sql_books (clean_books harry_chunk) =
              [ {| book_id := Str (real_text 1); title := Str "Harry Potter";
                   avg_rating := Num (9 # 2) |} ]).
  { unfold sql_books. rewrite D.
    unfold clean_books, kept_books, quarantined, canonical_book, to_numeric, field.
    cbn. rewrite H1. cbn.
    destruct (parse_number "2"); cbn; rewrite Habc; cbn; rewrite H1;
      reflexivity. }
  assert (L : len (clean_books harry_chunk) = 1%nat).
  { pose proof (f_equal (@length book_row) B) as HL.
    unfold sql_books in HL. rewrite length_map in HL. exact HL. }
  assert (P : forall s,
            process_single_file "book1-100k.csv" (harry_file seconds) s =
            (if Qeq_bool seconds 0 then Raise ZeroDivisionError else Ok 1%nat,
             {| db := to_sql_books (clean_books harry_chunk) (db s);
                log := if Qeq_bool seconds 0 then log s
                       else log s ++ [Processed 1 "books" "book1-100k.csv"
                                        (inject_Z 1 / seconds)];
                open_connections := open_connections s |})).
  { intros s. unfold process_single_file, harry_file.
    cbn [connect_error reader elapsed for_chunks].
    unfold loop_body.
    replace (prefix "book" "book1-100k.csv") with true by reflexivity.
    unfold bind, try_finally, connect, lift. rewrite T.
    unfold log_processed. cbn [to_sql modify_db ret type_label total_processed].
    rewrite L. cbn [Nat.add].
    destruct (Qeq_bool seconds 0); reflexivity. }
  split; [|split; [|exact D]].
  - assert (F : csv_files_of (harry_folder seconds) =
                [("book1-100k.csv", harry_file seconds)]) by reflexivity.
    unfold run_production_etl, run_steps. rewrite F.
    unfold dispatch. cbn [executor_map].
    unfold bind, connect, previews, preview, close, modify_db, get_db, info, ret, lift.
    cbn [harry_folder preview_book preview_rating].
    unfold peek_at_data, bind, info. cbn -[process_single_file clean_books].
    rewrite P. cbn -[clean_books].
    eexists. eexists. split; [reflexivity|]. cbn -[clean_books]. rewrite B.
    repeat split.
  - rewrite P. cbn -[clean_books]. rewrite B. reflexivity.
Qed.

(** ** More on the Schema Mapper *)

Lemma rating_normalizer_is_level (c : cell) : is_level (rating_normalizer c).
Proof.
  destruct c as [|raw|x]; try (exists 0%Z; split; [lia|reflexivity]).
  rewrite rating_normalizer_lookup. unfold RATING_MAP, dict_get.
  repeat match goal with
  | |- context [if ?b then _ else _] => destruct b
  end;
  match goal with
  | |- is_level (Num (inject_Z ?m)) => exists m; split; [lia|reflexivity]
  | |- is_level (Num 0) => exists 0%Z; split; [lia|reflexivity]
  end.
Qed.

(** X1: on a ratings chunk that has the Rating, Name and ID columns
    and whose Rating column has the [.str] accessor, the Schema Mapper
    keeps exactly the rows whose book title and user are both present, in
    their order, renamed into book_title, user_id, rating_text and
    rating_int; the kept and the discarded rows make up the input; a kept
    row carries its raw label unchanged and one of the six levels beside
    it.  On a chunk whose Rating column has no accessor (a column of
    numbers, or of nothing but missing values) it raises
    [AttributeError]. *)
Theorem schema_mapper_ratings_discard (chunk : DataFrame) :
  has_label "Rating" (columns chunk) = true ->
  has_label "Name" (columns chunk) = true ->
  has_label "ID" (columns chunk) = true ->
  (is_ok (str_accessor (column chunk "Rating")) = true ->
   exists clean_chunk,
     transform_ratings chunk = Ok clean_chunk /\
     columns clean_chunk = ["book_title"; "user_id"; "rating_text"; "rating_int"] /\
     rows clean_chunk =
       map canonical_rating (filter (fun r => negb (discarded r)) (rows chunk)) /\
     (len clean_chunk + length (filter discarded (rows chunk)) = len chunk)%nat /\
     Forall (fun r => notna (field "book_title" r) = true /\
                      notna (field "user_id" r) = true /\
                      is_level (field "rating_int" r)) (rows clean_chunk)) /\
  (is_ok (str_accessor (column chunk "Rating")) = false ->
   transform_ratings chunk = Raise AttributeError).
Proof.
  intros HR HN HI. split; [|apply transform_ratings_attribute_error, HR].
  intros HS. exists (clean_ratings chunk).
  split; [apply transform_ratings_rows; assumption|].
  unfold clean_ratings, kept_ratings. cbn [columns rows].
  split; [reflexivity|]. split; [reflexivity|]. split.
  - unfold len. cbn [rows]. rewrite length_map. apply filter_partition_length.
  - apply Forall_forall. intros r Hin.
    apply in_map_iff in Hin. destruct Hin as (r0 & <- & Hin).
    apply filter_In in Hin. destruct Hin as [_ Hq].
    unfold discarded in Hq. unfold canonical_rating, field. cbn.
    fold (field "Name" r0). fold (field "ID" r0). fold (field "Rating" r0).
    destruct (notna (field "Name" r0)), (notna (field "ID" r0));
      try discriminate Hq.
    repeat split. apply rating_normalizer_is_level.
Qed.

(** When a chunk lacks a column that the mapper needs, what it raises is
    a [KeyError] that names missing columns only; the ratings mapper gets
    there when line 71 does not raise first. *)
Lemma transform_books_key_error (chunk : DataFrame) :
  has_label "Id" (columns chunk) && has_label "Name" (columns chunk)
  && has_label "Rating" (columns chunk) = false ->
  exists m, transform_books chunk = Raise (KeyError m) /\ m <> [] /\
            Forall (fun c => has_label c (columns chunk) = false) m.
Proof.
  intros H. unfold transform_books, getitem.
  destruct (has_label "Id" (columns chunk)) eqn:HI; cbn [rbind].
  2:{ exists ["Id"]. repeat split; [discriminate|]. constructor; [exact HI|constructor]. }
  cbn [setitem columns]. rewrite HI.
  destruct (has_label "Rating" (columns chunk)) eqn:HR; cbn [rbind].
  2:{ exists ["Rating"]. repeat split; [discriminate|]. constructor; [exact HR|constructor]. }
  destruct (has_label "Name" (columns chunk)) eqn:HN; [discriminate H|].
  unfold dropna, missing_labels. cbn [setitem columns filter].
  rewrite !HI. rewrite !HR. rewrite !HI, !HN. cbn [negb rbind].
  exists ["Name"]. repeat split; [discriminate|]. constructor; [exact HN|constructor].
Qed.

Lemma transform_ratings_key_error (chunk : DataFrame) :
  has_label "Rating" (columns chunk) && has_label "Name" (columns chunk)
  && has_label "ID" (columns chunk) = false ->
  (has_label "Rating" (columns chunk) = true ->
   is_ok (str_accessor (column chunk "Rating")) = true) ->
  exists m, transform_ratings chunk = Raise (KeyError m) /\ m <> [] /\
            Forall (fun c => has_label c (columns chunk) = false) m.
Proof.
  intros H HS. unfold transform_ratings, getitem.
  destruct (has_label "Rating" (columns chunk)) eqn:HR; cbn [rbind].
  2:{ exists ["Rating"]. repeat split; [discriminate|]. constructor; [exact HR|constructor]. }
  fold (column chunk "Rating").
  rewrite (rating_int_column_ok _ (HS eq_refl)). cbn [rbind].
  unfold dropna, missing_labels. cbn [setitem columns filter].
  set (labels := columns chunk) in *.
  assert (E : forall c, has_label c ["rating_int"] = false ->
                has_label c (if has_label "rating_int" labels then labels
                             else labels ++ ["rating_int"]) = has_label c labels).
  { intros c Hc. destruct (has_label "rating_int" labels); [reflexivity|].
    rewrite has_label_app, Hc. apply orb_false_r. }
  rewrite !E by reflexivity.
  destruct (has_label "Name" labels) eqn:HN, (has_label "ID" labels) eqn:HI;
    try discriminate H; cbn [negb rbind].
  - exists ["ID"]. repeat split; [discriminate|]. constructor; [exact HI|constructor].
  - exists ["Name"]. repeat split; [discriminate|]. constructor; [exact HN|constructor].
  - exists ["Name"; "ID"]. repeat split; [discriminate|].
    constructor; [exact HN|]. constructor; [exact HI|constructor].
Qed.

(** X2: a file of a known kind whose first chunk lacks a column that its
    mapper needs makes [process_single_file] raise a [KeyError] naming
    missing columns only, a ratings file when line 71 does not raise
    before the column is missed (its Rating column is missing too, or
    has the [.str] accessor); nothing is stored or logged and the
    connection is closed: the state is the one before the call. *)
Theorem missing_column_raises_key_error (filename : string) (env : file_env)
    (chunk : DataFrame) (write_error : option exn) (rest : list read_event)
    (s : state) :
  connect_error env = None ->
  reader env = Yield chunk write_error :: rest ->
  (prefix "book" filename = true /\
   has_label "Id" (columns chunk) && has_label "Name" (columns chunk)
   && has_label "Rating" (columns chunk) = false) \/
  (prefix "book" filename = false /\ prefix "user_rating" filename = true /\
   has_label "Rating" (columns chunk) && has_label "Name" (columns chunk)
   && has_label "ID" (columns chunk) = false /\
   (has_label "Rating" (columns chunk) = true ->
    is_ok (str_accessor (column chunk "Rating")) = true)) ->
  exists m,
    process_single_file filename env s = (Raise (KeyError m), s) /\
    m <> [] /\ Forall (fun c => has_label c (columns chunk) = false) m.
Proof.
  intros Hc Hr H. unfold process_single_file. rewrite Hc, Hr.
  cbn [for_chunks]. unfold loop_body.
  destruct s as [d l n].
  destruct H as [[Hb Hm]|(Hb & Hu & Hm & Hs)].
  - rewrite Hb. destruct (transform_books_key_error chunk Hm) as (m & E & Hne & Hall).
    exists m. split; [|split; assumption].
    unfold bind, try_finally, connect, lift. rewrite E. reflexivity.
  - rewrite Hb, Hu.
    destruct (transform_ratings_key_error chunk Hm Hs) as (m & E & Hne & Hall).
    exists m. split; [|split; assumption].
    unfold bind, try_finally, connect, lift. rewrite E. reflexivity.
Qed.

(** ** What a call returns, and when *)

(** The state in which the loop of a call starts. *)
Lemma process_single_file_unfold (filename : string) (env : file_env) (s : state) :
  process_single_file filename env s =
  match connect_error env with
  | Some e => (Raise e, s)
  | None =>
      let (r, s1) :=
        for_chunks filename (reader env) {| total_processed := 0; type_label := None |}
          {| db := db s; log := log s; open_connections := S (open_connections s) |} in
      match r with
      | Raise e =>
          (Raise e, {| db := db s1; log := log s1;
                       open_connections := pred (open_connections s1) |})
      | Ok v =>
          match type_label v with
          | None =>
              (Raise (UnboundLocalError "type_label"),
               {| db := db s1; log := log s1;
                  open_connections := pred (open_connections s1) |})
          | Some label =>
              if Qeq_bool (elapsed env) 0 then
                (Raise ZeroDivisionError,
                 {| db := db s1; log := log s1;
                    open_connections := pred (open_connections s1) |})
              else
                (Ok (total_processed v),
                 {| db := db s1;
                    log := log s1 ++
                      [Processed (total_processed v) label filename
                         (inject_Z (Z.of_nat (total_processed v)) / elapsed env)];
                    open_connections := pred (open_connections s1) |})
          end
      end
  end.
Proof.
  unfold process_single_file, connect.
  destruct (connect_error env) as [e|]; [reflexivity|].
  unfold bind at 1. unfold bind at 1. unfold try_finally, bind at 1.
  destruct (for_chunks filename (reader env) _ _) as [[v|e] s1]; [|reflexivity].
  unfold log_processed, bind.
  destruct (type_label v) as [label|]; [|reflexivity].
  destruct (Qeq_bool (elapsed env) 0); reflexivity.
Qed.

(** What the loop returns does not depend on the state it runs in. *)
Lemma for_chunks_result (filename : string) (events : list read_event) :
  forall v s1 s2,
    fst (for_chunks filename events v s1) = fst (for_chunks filename events v s2).
Proof.
  induction events as [|[e|chunk write_error] rest IH]; intros v s1 s2;
    try reflexivity.
  cbn [for_chunks]. unfold loop_body, bind, lift, to_sql.
  destruct (prefix "book" filename).
  - destruct (transform_books chunk) as [clean_chunk|e]; [|reflexivity].
    destruct write_error as [e|]; [reflexivity|].
    unfold modify_db, ret. apply IH.
  - destruct (prefix "user_rating" filename).
    + destruct (transform_ratings chunk) as [clean_chunk|e]; [|reflexivity].
      destruct write_error as [e|]; [reflexivity|].
      unfold modify_db, ret. apply IH.
    + unfold ret. apply IH.
Qed.

Lemma process_single_file_result (filename : string) (env : file_env) (s1 s2 : state) :
  fst (process_single_file filename env s1) = fst (process_single_file filename env s2).
Proof.
  rewrite !process_single_file_unfold.
  destruct (connect_error env) as [e|]; [reflexivity|].
  match goal with
  | |- fst (let (_, _) := for_chunks ?f ?ev ?v ?a in _) =
       fst (let (_, _) := for_chunks ?f ?ev ?v ?b in _) =>
      pose proof (for_chunks_result f ev v a b) as H;
      destruct (for_chunks f ev v a) as [r1 t1];
      destruct (for_chunks f ev v b) as [r2 t2]
  end.
  cbn [fst] in H. subst r2.
  destruct r1 as [v|e]; [|reflexivity].
  destruct (type_label v); [|reflexivity].
  destruct (Qeq_bool (elapsed env) 0); reflexivity.
Qed.

(** For a book file the loop counts the rows it sends to the store. *)
Lemma for_chunks_books_total (filename : string) (events : list read_event) :
  prefix "book" filename = true ->
  forall v s v' s',
    for_chunks filename events v s = (Ok v', s') ->
    total_processed v' =
      (total_processed v + length (written_books filename events))%nat.
Proof.
  intros Hbook.
  induction events as [|[e|chunk write_error] rest IH]; intros v s v' s'.
  - intros [= <- <-]. cbn. lia.
  - discriminate.
  - cbn [for_chunks written_books]. unfold bind at 1, loop_body. rewrite Hbook.
    unfold bind, lift, to_sql.
    destruct (transform_books chunk) as [clean_chunk|e]; [|discriminate].
    destruct write_error as [e|]; [discriminate|].
    unfold modify_db, ret. intros H. apply IH in H. rewrite H.
    cbn [total_processed]. unfold sql_books.
    rewrite length_app, length_map. unfold len. lia.
Qed.

Lemma insert_ignore_length (data_iter : list book_row) :
  forall t, (length (insert_ignore t data_iter) <= length t + length data_iter)%nat.
Proof.
  unfold insert_ignore.
  induction data_iter as [|r rest IH]; intros t; simpl; [lia|].
  specialize (IH (insert_or_ignore t r)). unfold insert_or_ignore in *.
  destruct (has_key (book_id r) t); [lia|].
  rewrite length_app in IH. simpl in IH. lia.
Qed.

(** X3: the number that [process_single_file] returns for a book file is
    the number of rows it sent to the store, not the number of rows the
    store kept: it is the same whatever the store already holds, and the
    books table grows by at most that many rows. *)
Theorem reported_count_is_rows_sent (filename : string) (env : file_env)
    (s s' : state) (n : nat) :
  prefix "book" filename = true ->
  process_single_file filename env s = (Ok n, s') ->
  n = length (written_books filename (reader env)) /\
  (length (books (db s')) <= length (books (db s)) + n)%nat /\
  (forall s2, fst (process_single_file filename env s2) = Ok n).
Proof.
  intros Hbook E.
  assert (Hn : n = length (written_books filename (reader env)) /\
               connect_error env = None).
  { rewrite process_single_file_unfold in E.
    destruct (connect_error env) as [e|]; [discriminate E|].
    destruct (for_chunks filename (reader env) _ _) as [[v|e] s1] eqn:F;
      [|discriminate E].
    apply (for_chunks_books_total filename _ Hbook) in F. cbn in F.
    destruct (type_label v); [|discriminate E].
    destruct (Qeq_bool (elapsed env) 0); [discriminate E|].
    injection E as <- _. split; [exact F|reflexivity]. }
  destruct Hn as [Hn Hc].
  split; [exact Hn|]. split.
  - destruct (process_single_file_effect _ _ _ _ _ E) as (_ & Hb & _).
    rewrite Hb, Hc, Hn. apply insert_ignore_length.
  - intros s2. rewrite (process_single_file_result filename env s2 s), E.
    reflexivity.
Qed.

Lemma for_chunks_no_failure (filename : string) (events : list read_event) :
  Forall (fun ev => fails filename ev = None) events ->
  forall v s, exists v' s',
    for_chunks filename events v s = (Ok v', s') /\
    (prefix "book" filename = true \/ prefix "user_rating" filename = true ->
     events <> [] \/ type_label v <> None -> type_label v' <> None).
Proof.
  induction 1 as [|[e|chunk write_error] rest Hev _ IH]; intros v s.
  - exists v, s. split; [reflexivity|]. intros _ [H|H]; [contradiction|exact H].
  - discriminate Hev.
  - cbn [for_chunks]. unfold bind at 1, loop_body. cbn [fails] in Hev.
    destruct (prefix "book" filename).
    + unfold bind, lift, to_sql.
      destruct (transform_books chunk) as [clean_chunk|e]; [|discriminate Hev].
      subst write_error. unfold modify_db, ret.
      match goal with
      | |- context [for_chunks filename rest ?v1 ?s1] =>
          destruct (IH v1 s1) as (v' & s' & E & Ht)
      end.
      exists v', s'. split; [exact E|]. intros Hk _. apply Ht; [exact Hk|].
      right. discriminate.
    + destruct (prefix "user_rating" filename).
      * unfold bind, lift, to_sql.
        destruct (transform_ratings chunk) as [clean_chunk|e]; [|discriminate Hev].
        subst write_error. unfold modify_db, ret.
        match goal with
        | |- context [for_chunks filename rest ?v1 ?s1] =>
            destruct (IH v1 s1) as (v' & s' & E & Ht)
        end.
        exists v', s'. split; [exact E|]. intros Hk _. apply Ht; [exact Hk|].
        right. discriminate.
      * unfold ret. destruct (IH v s) as (v' & s' & E & Ht).
        exists v', s'. split; [exact E|].
        intros [Hk|Hk]; discriminate Hk.
Qed.

(** X4: when the clock shows no time elapsed, [process_single_file]
    never returns normally and writes no log entry, yet it stores exactly
    what it stores for any other elapsed time; for a file of a known kind
    read, mapped and stored without incident the exception is the
    [ZeroDivisionError] of the throughput figure at line 82. *)
Theorem zero_elapsed_never_returns (filename : string) (env : file_env) (s : state) :
  Qeq_bool (elapsed env) 0 = true ->
  (exists e, fst (process_single_file filename env s) = Raise e) /\
  log (snd (process_single_file filename env s)) = log s /\
  (forall seconds,
     db (snd (process_single_file filename env s)) =
     db (snd (process_single_file filename
                {| connect_error := connect_error env; reader := reader env;
                   elapsed := seconds |} s))) /\
  (connect_error env = None ->
   Forall (fun ev => fails filename ev = None) (reader env) ->
   reader env <> [] ->
   prefix "book" filename = true \/ prefix "user_rating" filename = true ->
   fst (process_single_file filename env s) = Raise ZeroDivisionError).
Proof.
  intros Hz.
  assert (R : exists e, fst (process_single_file filename env s) = Raise e).
  { rewrite process_single_file_unfold.
    destruct (connect_error env) as [e|]; [exists e; reflexivity|].
    destruct (for_chunks filename (reader env) _ _) as [[v|e] s1];
      [|exists e; reflexivity].
    destruct (type_label v); [|eexists; reflexivity].
    rewrite Hz. eexists. reflexivity. }
  split; [exact R|]. split; [|split].
  - destruct R as [e He].
    destruct (process_single_file filename env s) as [r s'] eqn:E.
    cbn [fst snd] in *. subst r.
    apply (process_single_file_effect _ _ _ _ _ E).
  - intros seconds. rewrite !process_single_file_unfold.
    cbn [connect_error reader elapsed].
    destruct (connect_error env) as [e|]; [reflexivity|].
    destruct (for_chunks filename (reader env) _ _) as [[v|e] s1]; [|reflexivity].
    destruct (type_label v); [|reflexivity].
    rewrite Hz. destruct (Qeq_bool seconds 0); reflexivity.
  - intros Hc Hall Hne Hk. rewrite process_single_file_unfold, Hc.
    match goal with
    | |- context [for_chunks filename (reader env) ?v0 ?s0] =>
        destruct (for_chunks_no_failure filename (reader env) Hall v0 s0)
          as (v' & s' & E & Ht)
    end.
    rewrite E. specialize (Ht Hk (or_introl Hne)).
    destruct (type_label v'); [|contradiction Ht; reflexivity].
    rewrite Hz. reflexivity.
Qed.

(** ** Invariants of the store *)

(** A property of the database that both inserts keep is kept by the
    loop, by a call, by the dispatcher and by the run. *)
Lemma for_chunks_invariant (P : database -> Prop) (filename : string) :
  (forall chunk d, P d ->
     P (to_sql_books (clean_books chunk) d)) ->
  (forall chunk d, P d ->
     P (to_sql_ratings (clean_ratings chunk) d)) ->
  forall events v s, P (db s) -> P (db (snd (for_chunks filename events v s))).
Proof.
  intros Hb Hr.
  induction events as [|[e|chunk write_error] rest IH]; intros v s HP;
    try exact HP.
  cbn [for_chunks]. unfold loop_body, bind, lift, to_sql.
  destruct (prefix "book" filename).
  - destruct (transform_books chunk) as [clean_chunk|e] eqn:E; [|exact HP].
    destruct write_error as [e|]; [exact HP|].
    unfold modify_db, ret. apply IH. cbn [db].
    rewrite (transform_books_ok _ _ E). apply Hb, HP.
  - destruct (prefix "user_rating" filename).
    + destruct (transform_ratings chunk) as [clean_chunk|e] eqn:E; [|exact HP].
      destruct write_error as [e|]; [exact HP|].
      unfold modify_db, ret. apply IH. cbn [db].
      rewrite (proj1 (transform_ratings_ok _ _ E)). apply Hr, HP.
    + unfold ret. apply IH, HP.
Qed.

Lemma process_single_file_db (filename : string) (env : file_env) (s : state) :
  db (snd (process_single_file filename env s)) =
  match connect_error env with
  | Some _ => db s
  | None =>
      db (snd (for_chunks filename (reader env)
                 {| total_processed := 0; type_label := None |}
                 {| db := db s; log := log s;
                    open_connections := S (open_connections s) |}))
  end.
Proof.
  rewrite process_single_file_unfold.
  destruct (connect_error env) as [e|]; [reflexivity|].
  destruct (for_chunks filename (reader env) _ _) as [[v|e] s1]; [|reflexivity].
  destruct (type_label v); [|reflexivity].
  destruct (Qeq_bool (elapsed env) 0); reflexivity.
Qed.

Lemma process_single_file_invariant (P : database -> Prop) :
  (forall chunk d, P d ->
     P (to_sql_books (clean_books chunk) d)) ->
  (forall chunk d, P d ->
     P (to_sql_ratings (clean_ratings chunk) d)) ->
  forall filename env s,
    P (db s) -> P (db (snd (process_single_file filename env s))).
Proof.
  intros Hb Hr filename env s HP. rewrite process_single_file_db.
  destruct (connect_error env); [exact HP|].
  apply (for_chunks_invariant P filename Hb Hr). exact HP.
Qed.

Lemma executor_map_invariant (P : database -> Prop) :
  (forall filename env s,
     P (db s) -> P (db (snd (process_single_file filename env s)))) ->
  forall csv_files s, P (db s) -> P (db (snd (executor_map csv_files s))).
Proof.
  intros Hp. induction csv_files as [|[filename env] rest IH]; intros s HP;
    [exact HP|].
  cbn [executor_map]. specialize (Hp filename env s HP).
  destruct (process_single_file filename env s) as [r s1]. cbn [snd] in Hp.
  specialize (IH s1 Hp). destruct (executor_map rest s1) as [futures s2].
  exact IH.
Qed.

Lemma run_invariant (P : database -> Prop) :
  (forall filename env s,
     P (db s) -> P (db (snd (process_single_file filename env s)))) ->
  (forall d, P d -> P (create_indexes d)) ->
  forall env f, P (init_schema f) -> P (db (snd (run_production_etl env f))).
Proof.
  intros Hp Hi env f HP. unfold run_production_etl, run_steps.
  unfold bind at 1. unfold connect at 1. unfold bind at 1.
  match goal with
  | |- context [previews env ?s0] =>
      pose proof (previews_db env s0) as Hd;
      destruct (previews env s0) as [[u|e] s1]
  end; cbn [snd db] in Hd.
  - unfold bind at 1. unfold close at 1. unfold bind at 1. unfold dispatch at 1.
    match goal with
    | |- context [executor_map (csv_files_of env) ?s0] =>
        pose proof (executor_map_invariant P Hp (csv_files_of env) s0) as He;
        destruct (executor_map (csv_files_of env) s0) as [futures s2]
    end.
    cbn in He |- *. apply Hi, He. rewrite Hd. exact HP.
  - cbn [snd]. rewrite Hd. exact HP.
Qed.

Lemma numbered_ids (rs : list row) :
  forall n,
    map rating_id (numbered (Z.of_nat n) rs) = map Z.of_nat (seq (S n) (length rs)).
Proof.
  induction rs as [|r rest IH]; intros n; [reflexivity|].
  cbn [numbered map length seq rating_id]. f_equal; [lia|].
  replace (Z.of_nat n + 1)%Z with (Z.of_nat (S n)) by lia. apply IH.
Qed.

Lemma well_numbered_to_sql_ratings (clean_chunk : DataFrame) (d : database) :
  well_numbered d -> well_numbered (to_sql_ratings clean_chunk d).
Proof.
  intros [Hids Hseq]. unfold to_sql_ratings.
  destruct (to_sql_ratings_appends (rows clean_chunk) d) as (Hr & _ & Hs).
  cbv zeta in Hr, Hs. unfold well_numbered. rewrite Hr, Hs.
  rewrite map_app, length_app, numbered_length, seq_app, map_app.
  rewrite Hids, Hseq, numbered_ids. split; [reflexivity|lia].
Qed.

(** X5: at the end of every run the rating identifiers are 1, 2, ..., n
    in the order in which the rows were stored, n being the number of
    stored ratings, and the AUTOINCREMENT counter stands at n: the
    numbering starts afresh with each run and has no gap. *)
Theorem rating_ids_are_consecutive (env : run_env) (f : db_file) :
  well_numbered (db (snd (run_production_etl env f))).
Proof.
  apply run_invariant.
  - apply process_single_file_invariant.
    + intros chunk d H. exact H.
    + intros chunk d H. apply well_numbered_to_sql_ratings, H.
  - intros d H. exact H.
  - split; reflexivity.
Qed.

Lemma numbered_ok (rs : list row) :
  Forall (fun r => notna (field "book_title" r) = true /\
                   notna (field "user_id" r) = true /\
                   is_level (field "rating_int" r)) rs ->
  forall seq, Forall rating_ok (numbered seq rs).
Proof.
  induction 1 as [|r rest Hr _ IH]; intros seq; constructor; [exact Hr|apply IH].
Qed.

Lemma kept_ratings_ok (rs : list row) :
  Forall (fun r => notna (field "book_title" r) = true /\
                   notna (field "user_id" r) = true /\
                   is_level (field "rating_int" r)) (kept_ratings rs).
Proof.
  apply Forall_forall. intros r Hin. unfold kept_ratings in Hin.
  apply in_map_iff in Hin. destruct Hin as (r0 & <- & Hin).
  apply filter_In in Hin. destruct Hin as [_ Hq].
  unfold discarded in Hq. unfold canonical_rating, field. cbn.
  fold (field "Name" r0). fold (field "ID" r0). fold (field "Rating" r0).
  destruct (notna (field "Name" r0)), (notna (field "ID" r0));
    try discriminate Hq.
  repeat split. apply rating_normalizer_is_level.
Qed.

(** X6: every rating that a run leaves in the store has a book title
    and a user, and its rating_int is one of the six levels 0 to 5,
    whatever the files held and whatever failed on the way. *)
Theorem stored_ratings_are_valid (env : run_env) (f : db_file) :
  Forall rating_ok (ratings (db (snd (run_production_etl env f)))).
Proof.
  apply (run_invariant (fun d => Forall rating_ok (ratings d))).
  - apply (process_single_file_invariant (fun d => Forall rating_ok (ratings d))).
    + intros chunk d H. exact H.
    + intros chunk d H. unfold to_sql_ratings.
      destruct (to_sql_ratings_appends
                  (rows (clean_ratings chunk)) d) as (Hr & _ & _).
      cbv zeta in Hr. rewrite Hr. apply Forall_app. split; [exact H|].
      apply numbered_ok, kept_ratings_ok.
  - intros d H. exact H.
  - constructor.
Qed.

Lemma to_numeric_number (c : cell) :
  notna (to_numeric c) = true ->
  is_number (to_numeric c) = true /\ is_text (to_numeric c) = false.
Proof.
  destruct c as [|raw|x]; cbn; [discriminate| |split; reflexivity].
  destruct (parse_number raw); [split; reflexivity|discriminate].
Qed.

Lemma to_numeric_not_text (c : cell) : is_text (to_numeric c) = false.
Proof.
  destruct c as [|raw|x]; cbn; try reflexivity.
  destruct (parse_number raw); reflexivity.
Qed.

Lemma kept_books_ok (d : dtype) (rs : list row) :
  Forall book_ok (map (book_of_row d) (kept_books rs)).
Proof.
  apply Forall_forall. intros b Hb. unfold kept_books in Hb.
  apply in_map_iff in Hb. destruct Hb as (r & <- & Hr).
  apply in_map_iff in Hr. destruct Hr as (r0 & <- & Hr0).
  apply filter_In in Hr0. destruct Hr0 as [_ Hq].
  unfold quarantined in Hq. unfold book_ok, book_of_row, canonical_book, field. cbn.
  fold (field "Id" r0). fold (field "Name" r0). fold (field "Rating" r0).
  destruct (notna (to_numeric (field "Id" r0))) eqn:HI; [|discriminate Hq].
  destruct (notna (field "Name" r0)); [|discriminate Hq].
  destruct (to_numeric_number _ HI) as [Hn _].
  split; [|split; [reflexivity|apply to_numeric_not_text]].
  destruct (to_numeric (field "Id" r0)) as [|t|x]; try discriminate Hn.
  exists d, x. reflexivity.
Qed.

Lemma insert_ignore_forall (P : book_row -> Prop) (data_iter : list book_row) :
  Forall P data_iter -> forall t, Forall P t -> Forall P (insert_ignore t data_iter).
Proof.
  unfold insert_ignore. induction 1 as [|r rest Hr _ IH]; intros t Ht; [exact Ht|].
  cbn [fold_left]. apply IH. unfold insert_or_ignore.
  destruct (has_key (book_id r) t); [exact Ht|].
  apply Forall_app. split; [exact Ht|]. constructor; [exact Hr|constructor].
Qed.

(** X7: if every book found in the store at the start of a run has
    for identifier the text of a number, a title and an average rating
    that is a number or NULL, so has every book in the store at its end:
    the books path never stores a row without a numeric identifier or
    without a title. *)
Theorem stored_books_are_valid (env : run_env) (f : db_file) :
  Forall book_ok (match file_books f with Some t => t | None => [] end) ->
  Forall book_ok (books (db (snd (run_production_etl env f)))).
Proof.
  intros H. apply (run_invariant (fun d => Forall book_ok (books d))).
  - apply (process_single_file_invariant (fun d => Forall book_ok (books d))).
    + intros chunk d Hd. cbn [to_sql_books books].
      apply insert_ignore_forall; [apply kept_books_ok|exact Hd].
    + intros chunk d Hd. rewrite books_to_sql_ratings. exact Hd.
  - intros d Hd. exact Hd.
  - exact H.
Qed.

(** ** The run, step by step *)

Lemma run_production_etl_unfold (env : run_env) (f : db_file) :
  run_production_etl env f =
  match previews env {| db := init_schema f; log := []; open_connections := 1 |} with
  | (Raise e, s1) => (Raise e, s1)
  | (Ok _, s1) =>
      let (futures, s2) :=
        executor_map (csv_files_of env)
          {| db := db s1; log := log s1;
             open_connections := pred (open_connections s1) |} in
      (Ok {| books_count := length (books (db s2));
             ratings_count := length (ratings (db s2)) |},
       {| db := create_indexes (db s2);
          log := log s2 ++ [EtlComplete];
          open_connections := pred (S (open_connections s2)) |})
  end.
Proof.
  unfold run_production_etl, run_steps.
  unfold bind at 1. unfold connect at 1. unfold bind at 1.
  cbn [db log open_connections].
  destruct (previews env _) as [[u|e] s1]; [|reflexivity].
  unfold bind at 1. unfold close at 1. unfold bind at 1. unfold dispatch at 1.
  destruct (executor_map (csv_files_of env) _) as [futures s2].
  reflexivity.
Qed.

Lemma peek_rows_open (labels : list string) (rs : list row) :
  forall s, open_connections (snd (peek_rows labels rs s)) = open_connections s.
Proof.
  induction rs as [|r rest IH]; intros s; [reflexivity|].
  cbn [peek_rows]. unfold bind, lift.
  destruct (iloc labels 0 r); [|reflexivity].
  destruct (iloc labels 1 r); [|reflexivity].
  destruct (iloc labels 2 r); [|reflexivity].
  cbn. rewrite IH. reflexivity.
Qed.

Lemma preview_open (target : option (result DataFrame)) (filename : string) (s : state) :
  open_connections (snd (preview target filename s)) = open_connections s.
Proof.
  destruct target as [[df|e]|]; try reflexivity.
  unfold preview, bind at 1, lift. unfold peek_at_data, bind, info.
  match goal with
  | |- context [peek_rows ?l ?rs ?s0] =>
      pose proof (peek_rows_open l rs s0) as H;
      destruct (peek_rows l rs s0) as [[u|e] s1]
  end; cbn in H |- *; exact H.
Qed.

Lemma previews_open (env : run_env) (s : state) :
  open_connections (snd (previews env s)) = open_connections s.
Proof.
  unfold previews, bind.
  pose proof (preview_open (preview_book env) "book1-100k.csv" s) as H1.
  destruct (preview (preview_book env) "book1-100k.csv" s) as [[u|e] s1];
    cbn [snd] in H1 |- *; [|exact H1].
  rewrite preview_open. exact H1.
Qed.

Lemma executor_map_open (csv_files : list (string * file_env)) :
  forall s, open_connections (snd (executor_map csv_files s)) = open_connections s.
Proof.
  induction csv_files as [|[filename env] rest IH]; intros s; [reflexivity|].
  cbn [executor_map].
  destruct (process_single_file filename env s) as [r s1] eqn:E.
  destruct (process_single_file_effect _ _ _ _ _ E) as (Ho & _ & _).
  specialize (IH s1). destruct (executor_map rest s1) as [futures s2].
  cbn [snd] in *. rewrite IH. exact Ho.
Qed.

(** X8: a run that gets through leaves no connection open; a run whose
    preview raises ends there, with the exception of the preview: no file
    is processed, so the store holds the books it held and no rating, and
    the connection opened for the schema statements stays open, line 106
    not being reached. *)
Theorem run_connections (env : run_env) (f : db_file) :
  (forall rep s', run_production_etl env f = (Ok rep, s') ->
                  open_connections s' = 0%nat) /\
  (forall e s1,
     previews env {| db := init_schema f; log := []; open_connections := 1 |}
       = (Raise e, s1) ->
     run_production_etl env f = (Raise e, s1) /\
     open_connections s1 = 1%nat /\
     db s1 = init_schema f).
Proof.
  split.
  - intros rep s'. rewrite run_production_etl_unfold.
    pose proof (previews_open env
                  {| db := init_schema f; log := []; open_connections := 1 |}) as Hp.
    destruct (previews env _) as [[u|e] s1]; [|discriminate].
    cbn [snd open_connections] in Hp.
    match goal with
    | |- context [executor_map (csv_files_of env) ?s0] =>
        pose proof (executor_map_open (csv_files_of env) s0) as He;
        destruct (executor_map (csv_files_of env) s0) as [futures s2]
    end.
    cbn [snd open_connections] in He. intros [= _ <-]. cbn.
    rewrite He, Hp. reflexivity.
  - intros e s1 E. rewrite run_production_etl_unfold, E.
    split; [reflexivity|].
    pose proof (previews_open env
                  {| db := init_schema f; log := []; open_connections := 1 |}) as Ho.
    pose proof (previews_db env
                  {| db := init_schema f; log := []; open_connections := 1 |}) as Hd.
    rewrite E in Ho, Hd. split; [exact Ho|exact Hd].
Qed.

(** ** Sorting *)

Section Ordering.

Context {A : Type}.
Variable le : A -> A -> bool.

Lemma insert_by_perm (x : A) (l : list A) : Permutation (insert_by le x l) (x :: l).
Proof.
  induction l as [|y r IH]; cbn [insert_by]; [apply Permutation_refl|].
  destruct (le x y); [apply Permutation_refl|].
  apply perm_trans with (y :: x :: r); [apply perm_skip, IH|apply perm_swap].
Qed.

Lemma sort_by_perm (l : list A) : Permutation (sort_by le l) l.
Proof.
  induction l as [|x r IH]; [apply Permutation_refl|].
  cbn [sort_by fold_right]. fold (sort_by le r).
  apply perm_trans with (x :: sort_by le r); [apply insert_by_perm|].
  apply perm_skip, IH.
Qed.

Hypothesis le_total : forall x y, le x y = true \/ le y x = true.

Lemma insert_by_sorted (x : A) (l : list A) :
  Sorted (fun a b => le a b = true) l ->
  Sorted (fun a b => le a b = true) (insert_by le x l).
Proof.
  induction 1 as [|y r Hs IH Hd]; cbn [insert_by].
  - constructor; constructor.
  - destruct (le x y) eqn:E.
    + constructor; [constructor; assumption|constructor; exact E].
    + constructor; [exact IH|].
      destruct r as [|z r']; cbn [insert_by].
      * constructor. destruct (le_total x y) as [H|H]; [congruence|exact H].
      * destruct (le x z).
        -- constructor. destruct (le_total x y) as [H|H]; [congruence|exact H].
        -- constructor. apply HdRel_inv in Hd. exact Hd.
Qed.

Lemma sort_by_sorted (l : list A) : Sorted (fun a b => le a b = true) (sort_by le l).
Proof.
  induction l as [|x r IH]; [constructor|].
  cbn [sort_by fold_right]. apply insert_by_sorted, IH.
Qed.

Hypothesis le_trans : forall x y z, le x y = true -> le y z = true -> le x z = true.

Lemma sort_by_strongly_sorted (l : list A) :
  StronglySorted (fun a b => le a b = true) (sort_by le l).
Proof.
  apply Sorted_StronglySorted; [|apply sort_by_sorted].
  intros x y z. apply le_trans.
Qed.

(** In a sorted list, what [LIMIT n] keeps stands before what it
    drops. *)
Lemma firstn_before_skipn (l : list A) :
  StronglySorted (fun a b => le a b = true) l ->
  forall n x y, In x (firstn n l) -> In y (skipn n l) -> le x y = true.
Proof.
  induction 1 as [|a r Hs IH Ha]; intros n x y Hx Hy.
  - destruct n; contradiction.
  - destruct n as [|n]; [contradiction|].
    cbn [firstn skipn] in Hx, Hy. destruct Hx as [<-|Hx].
    + rewrite Forall_forall in Ha. apply Ha.
      rewrite <- (firstn_skipn n r). apply in_or_app. right. exact Hy.
    + apply (IH n); assumption.
Qed.

End Ordering.

Lemma insert_sorted_insert_by {B} (x : string * B) (l : list (string * B)) :
  insert_sorted x l = insert_by (fun a b => String.leb (fst a) (fst b)) x l.
Proof.
  induction l as [|y r IH]; [reflexivity|].
  cbn [insert_sorted insert_by]. rewrite IH. reflexivity.
Qed.

Lemma sorted_sort_by {B} (l : list (string * B)) :
  sorted l = sort_by (fun a b => String.leb (fst a) (fst b)) l.
Proof.
  induction l as [|x r IH]; [reflexivity|].
  cbn [sorted sort_by fold_right]. fold (sorted r). rewrite IH.
  apply insert_sorted_insert_by.
Qed.

Lemma endswith_suffix (suffix s : string) :
  endswith suffix s = true <-> exists stem, s = (stem ++ suffix)%string.
Proof.
  induction s as [|c r IH]; cbn [endswith].
  - rewrite orb_false_r. split.
    + intros H. apply String.eqb_eq in H. subst. exists EmptyString. reflexivity.
    + intros [stem H]. destruct stem; [|discriminate H].
      cbn in H. subst. reflexivity.
  - split.
    + intros H. apply orb_prop in H. destruct H as [H|H].
      * apply String.eqb_eq in H. exists EmptyString. exact H.
      * apply IH in H. destruct H as [stem ->]. exists (String c stem). reflexivity.
    + intros [stem H]. apply orb_true_intro. destruct stem as [|c' stem].
      * left. cbn in H. rewrite H. apply String.eqb_refl.
      * right. cbn in H. injection H as _ H. apply IH. exists stem. exact H.
Qed.

(** X9: the files handed to the workers are the entries of the folder
    whose name ends in [.csv], each as often as the folder lists it and
    no other, in the order of their names. *)
Theorem dispatched_files_are_the_csv_files (env : run_env) :
  Permutation (csv_files_of env)
    (filter (fun entry => endswith ".csv" (fst entry)) (listdir env)) /\
  Sorted (fun a b => String.leb (fst a) (fst b) = true) (csv_files_of env) /\
  (forall entry, In entry (csv_files_of env) <->
                 In entry (listdir env) /\
                 exists stem, fst entry = (stem ++ ".csv")%string).
Proof.
  unfold csv_files_of. rewrite sorted_sort_by.
  split; [apply sort_by_perm|]. split.
  - apply sort_by_sorted. intros x y. apply String.leb_total.
  - intros entry. split.
    + intros H. apply (Permutation_in _ (sort_by_perm _ _)) in H.
      apply filter_In in H. destruct H as [Hin He].
      split; [exact Hin|]. apply endswith_suffix, He.
    + intros [Hin He].
      apply (Permutation_in _ (Permutation_sym (sort_by_perm _ _))).
      apply filter_In. split; [exact Hin|]. apply endswith_suffix, He.
Qed.

(** ** The preview *)

Lemma peek_rows_log (c0 c1 c2 : string) (more : list string) (rs : list row) :
  forall d l n,
    peek_rows (c0 :: c1 :: c2 :: more) rs (mkState d l n) =
    (Ok tt,
     mkState d
       (l ++ map (fun r => TableRow (field c0 r) (shorten (field c1 r)) (field c2 r)) rs)
       n).
Proof.
  induction rs as [|r rest IH]; intros d l n.
  - cbn. rewrite app_nil_r. reflexivity.
  - cbn [peek_rows]. unfold bind, lift, info. cbn [iloc nth_error].
    cbn [db log open_connections]. rewrite IH. cbn [map].
    rewrite <- app_assoc. reflexivity.
Qed.

(** X10: on a frame with at least three columns [peek_at_data] never
    raises and leaves the store alone; it logs the banner, the header and
    a rule, then one line for each of the first five rows at most, made of
    the cells of the first three columns by position, the second one
    shortened, then the closing rule. *)
Theorem peek_at_data_logs_five_rows (df : DataFrame) (filename : string)
    (c0 c1 c2 : string) (more : list string) (s : state) :
  columns df = c0 :: c1 :: c2 :: more ->
  peek_at_data df filename s =
  (Ok tt,
   {| db := db s;
      log := log s ++ [TableView filename; TableHeader; TableRule] ++
             map (fun r => TableRow (field c0 r) (shorten (field c1 r)) (field c2 r))
               (firstn 5 (rows df)) ++ [TableEnd];
      open_connections := open_connections s |}) /\
  (length (log (snd (peek_at_data df filename s))) <= length (log s) + 9)%nat.
Proof.
  intros Hc.
  assert (E : peek_at_data df filename s =
    (Ok tt,
     {| db := db s;
        log := log s ++ [TableView filename; TableHeader; TableRule] ++
               map (fun r => TableRow (field c0 r) (shorten (field c1 r)) (field c2 r))
                 (firstn 5 (rows df)) ++ [TableEnd];
        open_connections := open_connections s |})).
  { unfold peek_at_data, bind, info. cbn [db log open_connections head columns rows].
    rewrite Hc, peek_rows_log. cbn [db log open_connections].
    rewrite <- !app_assoc. reflexivity. }
  split; [exact E|].
  rewrite E. cbn [snd log].
  rewrite !length_app, length_map, length_firstn. cbn [length]. lia.
Qed.

Lemma peek_rows_short (labels : list string) (r : row) (rest : list row) (s : state) :
  (length labels < 3)%nat ->
  peek_rows labels (r :: rest) s = (Raise IndexError, s).
Proof.
  intros H. cbn [peek_rows]. unfold bind, lift, iloc.
  destruct labels as [|c0 [|c1 [|c2 more]]]; cbn [nth_error]; try reflexivity.
  cbn [length] in H. lia.
Qed.

(** X11: on a frame with fewer than three columns [peek_at_data]
    raises [IndexError] as soon as there is a row to show, after the
    banner, the header and the rule have been logged and before any row
    or the closing rule is; with no row to show it logs the four framing
    lines and returns. *)
Theorem peek_at_data_needs_three_columns (df : DataFrame) (filename : string)
    (s : state) :
  (length (columns df) < 3)%nat ->
  (rows df <> [] ->
   peek_at_data df filename s =
   (Raise IndexError,
    {| db := db s;
       log := log s ++ [TableView filename; TableHeader; TableRule];
       open_connections := open_connections s |})) /\
  (rows df = [] ->
   peek_at_data df filename s =
   (Ok tt,
    {| db := db s;
       log := log s ++ [TableView filename; TableHeader; TableRule; TableEnd];
       open_connections := open_connections s |})).
Proof.
  intros Hc. split; intros Hr.
  - unfold peek_at_data, bind, info. cbn [db log open_connections head columns rows].
    destruct (rows df) as [|r rest]; [contradiction Hr; reflexivity|].
    cbn [firstn]. rewrite (peek_rows_short _ _ _ _ Hc).
    rewrite <- !app_assoc. reflexivity.
  - unfold peek_at_data, bind, info. cbn [db log open_connections head columns rows].
    rewrite Hr. cbn [firstn peek_rows]. unfold ret. cbn [db log open_connections].
    rewrite <- !app_assoc. reflexivity.
Qed.

(** ** The indexes *)

Lemma indexes_to_sql_ratings (clean_chunk : DataFrame) (d : database) :
  indexes (to_sql_ratings clean_chunk d) = indexes d.
Proof.
  unfold to_sql_ratings. generalize d.
  induction (rows clean_chunk) as [|r rest IH]; intros d0; simpl; [reflexivity|].
  rewrite IH. reflexivity.
Qed.

Lemma has_label_in (c : string) (l : list string) :
  has_label c l = true <-> In c l.
Proof.
  unfold has_label. rewrite existsb_exists. split.
  - intros (x & Hin & E). apply String.eqb_eq in E. subst. exact Hin.
  - intros H. exists c. split; [exact H|apply String.eqb_refl].
Qed.

Lemma add_index_present (name : string) (l : list string) :
  has_label name (add_index name l) = true.
Proof.
  unfold add_index. destruct (has_label name l) eqn:E; [exact E|].
  rewrite has_label_app. cbn. rewrite String.eqb_refl. apply orb_true_r.
Qed.

Lemma add_index_keeps (name c : string) (l : list string) :
  has_label c l = true -> has_label c (add_index name l) = true.
Proof.
  intros H. unfold add_index. destruct (has_label name l); [exact H|].
  rewrite has_label_app, H. reflexivity.
Qed.

Lemma add_index_nodup (name : string) (l : list string) :
  NoDup l -> NoDup (add_index name l).
Proof.
  intros H. unfold add_index. destruct (has_label name l) eqn:E; [exact H|].
  apply NoDup_app_remove_l with (l := []). cbn.
  apply (Permutation_NoDup (l := name :: l)).
  - apply Permutation_cons_append.
  - constructor; [|exact H]. intros Hin. apply has_label_in in Hin. congruence.
Qed.

(** X12: a run that gets through ends with both indexes in place,
    whatever the file held, and creates neither of them twice; a run
    stopped by its preview ends without the index on ratings, which went
    with the table. *)
Theorem indexes_after_a_run (env : run_env) (f : db_file) :
  (forall rep s', run_production_etl env f = (Ok rep, s') ->
     has_label "idx_book_title" (indexes (db s')) = true /\
     has_label "idx_rating_title" (indexes (db s')) = true /\
     (NoDup (file_indexes f) -> NoDup (indexes (db s')))) /\
  (forall e s', run_production_etl env f = (Raise e, s') ->
     has_label "idx_rating_title" (indexes (db s')) = false).
Proof.
  assert (P : forall filename fenv s,
            indexes (db s) = indexes (init_schema f) ->
            indexes (db (snd (process_single_file filename fenv s))) =
            indexes (init_schema f)).
  { apply (process_single_file_invariant
             (fun d => indexes d = indexes (init_schema f))).
    - intros chunk d H. exact H.
    - intros chunk d H. rewrite indexes_to_sql_ratings. exact H. }
  assert (D : has_label "idx_rating_title" (indexes (init_schema f)) = false).
  { cbn [init_schema indexes]. destruct (has_label _ _) eqn:E; [|reflexivity].
    apply has_label_in, filter_In in E. destruct E as [_ E].
    rewrite String.eqb_refl in E. discriminate E. }
  split.
  - intros rep s'. rewrite run_production_etl_unfold.
    pose proof (previews_db env
                  {| db := init_schema f; log := []; open_connections := 1 |}) as Hp.
    destruct (previews env _) as [[u|e] s1]; [|discriminate].
    cbn [snd] in Hp.
    match goal with
    | |- context [executor_map (csv_files_of env) ?s0] =>
        pose proof (executor_map_invariant
                      (fun d => indexes d = indexes (init_schema f)) P
                      (csv_files_of env) s0) as He;
        destruct (executor_map (csv_files_of env) s0) as [futures s2]
    end.
    cbn [snd db] in He. rewrite Hp in He. specialize (He eq_refl).
    intros [= _ <-]. cbn [db create_indexes indexes]. rewrite He.
    split; [apply add_index_keeps, add_index_present|].
    split; [apply add_index_present|].
    intros Hn. apply add_index_nodup, add_index_nodup.
    cbn [init_schema indexes]. apply NoDup_filter, Hn.
  - intros e s'. rewrite run_production_etl_unfold.
    pose proof (previews_db env
                  {| db := init_schema f; log := []; open_connections := 1 |}) as Hp.
    destruct (previews env _) as [[u|e1] s1].
    + destruct (executor_map (csv_files_of env) _) as [futures s2]. discriminate.
    + cbn [snd] in Hp. intros [= _ <-]. rewrite Hp. exact D.
Qed.

(** ** The first failure ends the file *)

Lemma for_chunks_stops (filename : string) (before : list read_event)
    (ev : read_event) (e : exn) :
  Forall (fun ev' => fails filename ev' = None) before ->
  fails filename ev = Some e ->
  forall after v s,
    for_chunks filename (before ++ ev :: after) v s =
    (Raise e, snd (for_chunks filename before v s)).
Proof.
  intros Hb He after. induction Hb as [|[e0|chunk w] rest Hev _ IH]; intros v s.
  - cbn [app for_chunks snd ret]. destruct ev as [e0|chunk w].
    + cbn [fails] in He. injection He as ->. reflexivity.
    + cbn [for_chunks fails] in *. unfold loop_body, bind, lift, to_sql.
      destruct (prefix "book" filename).
      * destruct (transform_books chunk) as [clean|e1].
        -- subst w. reflexivity.
        -- injection He as ->. reflexivity.
      * destruct (prefix "user_rating" filename); [|discriminate He].
        destruct (transform_ratings chunk) as [clean|e1].
        -- subst w. reflexivity.
        -- injection He as ->. reflexivity.
  - discriminate Hev.
  - cbn [app for_chunks fails] in *. unfold loop_body, bind, lift, to_sql.
    destruct (prefix "book" filename).
    + destruct (transform_books chunk) as [clean|e1]; [|discriminate Hev].
      subst w. unfold modify_db, ret. apply IH.
    + destruct (prefix "user_rating" filename).
      * destruct (transform_ratings chunk) as [clean|e1]; [|discriminate Hev].
        subst w. unfold modify_db, ret. apply IH.
      * unfold ret. apply IH.
Qed.

(** X13: the first event on which the loop fails (the reader raising, a
    column missing, line 71 raising on a Rating column without the [.str]
    accessor, or the store refusing the insert) ends the file: the call
    raises that exception and logs nothing, and it leaves the store as a
    call on the file cut before the failing event leaves it, so the
    failing chunk and whatever follows it add nothing. *)
Theorem first_failure_ends_the_file (filename : string) (env : file_env)
    (before after : list read_event) (ev : read_event) (e : exn) (s : state) :
  connect_error env = None ->
  reader env = before ++ ev :: after ->
  Forall (fun ev' => fails filename ev' = None) before ->
  fails filename ev = Some e ->
  fst (process_single_file filename env s) = Raise e /\
  log (snd (process_single_file filename env s)) = log s /\
  db (snd (process_single_file filename env s)) =
  db (snd (process_single_file filename
             {| connect_error := None; reader := before; elapsed := elapsed env |} s)).
Proof.
  intros Hc Hr Hb He.
  assert (R : fst (process_single_file filename env s) = Raise e).
  { rewrite process_single_file_unfold, Hc, Hr.
    rewrite (for_chunks_stops filename before ev e Hb He). reflexivity. }
  split; [exact R|]. split.
  - destruct (process_single_file filename env s) as [r s'] eqn:E.
    cbn [fst snd] in *. subst r.
    apply (process_single_file_effect _ _ _ _ _ E).
  - rewrite !process_single_file_db. cbn [connect_error reader].
    rewrite Hc, Hr, (for_chunks_stops filename before ev e Hb He). reflexivity.
Qed.

(** ** The order of arrival *)

Lemma same_key_compat (a b x : cell) :
  same_key a b = true -> same_key x a = same_key x b.
Proof.
  intros H. destruct (same_key x a) eqn:E1, (same_key x b) eqn:E2;
    try reflexivity.
  - rewrite (same_key_trans x a b E1 H) in E2. discriminate E2.
  - rewrite same_key_sym in H. rewrite (same_key_trans x b a E2 H) in E1.
    discriminate E1.
Qed.

Lemma same_keys_refl (t : list book_row) : same_keys t t.
Proof. split; reflexivity. Qed.

Lemma same_keys_trans (t1 t2 t3 : list book_row) :
  same_keys t1 t2 -> same_keys t2 t3 -> same_keys t1 t3.
Proof.
  intros [L1 K1] [L2 K2]. split; [congruence|].
  intros k. rewrite K1. apply K2.
Qed.

Lemma same_keys_insert (t t' : list book_row) (r : book_row) :
  same_keys t t' -> same_keys (insert_or_ignore t r) (insert_or_ignore t' r).
Proof.
  intros [L K]. unfold insert_or_ignore. rewrite <- (K (book_id r)).
  destruct (has_key (book_id r) t); [split; assumption|].
  split.
  - rewrite !length_app, L. reflexivity.
  - intros k. rewrite !has_key_app, K. reflexivity.
Qed.

Lemma same_keys_insert_ignore (l : list book_row) :
  forall t t', same_keys t t' -> same_keys (insert_ignore t l) (insert_ignore t' l).
Proof.
  unfold insert_ignore. induction l as [|r rest IH]; intros t t' H; [exact H|].
  cbn [fold_left]. apply IH, same_keys_insert, H.
Qed.

Lemma same_keys_swap (t : list book_row) (a b : book_row) :
  same_keys (insert_or_ignore (insert_or_ignore t a) b)
            (insert_or_ignore (insert_or_ignore t b) a).
Proof.
  unfold insert_or_ignore.
  destruct (has_key (book_id a) t) eqn:Ha, (has_key (book_id b) t) eqn:Hb;
    rewrite ?Ha, ?Hb, ?has_key_app, ?Ha, ?Hb; cbn [orb];
    try apply same_keys_refl.
  unfold has_key at 1 2. cbn [existsb]. rewrite !orb_false_r.
  rewrite (same_key_sym (book_id a) (book_id b)).
  destruct (same_key (book_id b) (book_id a)) eqn:E.
  - split; [rewrite !length_app; reflexivity|].
    intros k. rewrite !has_key_app. f_equal.
    unfold has_key. cbn [existsb]. rewrite !orb_false_r.
    symmetry. apply same_key_compat, E.
  - split; [rewrite !length_app; reflexivity|].
    intros k. rewrite !has_key_app, <- !orb_assoc. f_equal. apply orb_comm.
Qed.

Lemma same_keys_permutation (l l' : list book_row) :
  Permutation l l' ->
  forall t t', same_keys t t' -> same_keys (insert_ignore t l) (insert_ignore t' l').
Proof.
  induction 1 as [|x l l' _ IH|x y l|l1 l2 l3 _ IH1 _ IH2]; intros t t' H.
  - exact H.
  - apply IH, same_keys_insert, H.
  - change (insert_ignore t (y :: x :: l))
      with (insert_ignore (insert_or_ignore (insert_or_ignore t y) x) l).
    change (insert_ignore t' (x :: y :: l))
      with (insert_ignore (insert_or_ignore (insert_or_ignore t' x) y) l).
    apply same_keys_insert_ignore.
    apply same_keys_trans with (insert_or_ignore (insert_or_ignore t x) y);
      [apply same_keys_swap|].
    apply same_keys_insert, same_keys_insert, H.
  - apply same_keys_trans with (insert_ignore t l2);
      [apply IH1, same_keys_refl|apply IH2, H].
Qed.

(** X14: the order in which rows reach [insert_ignore] decides which of
    two rows with one identifier is kept, and nothing else: two orders of
    the same rows leave tables of the same size that hold the same
    identifiers. *)
Theorem insert_order_keeps_size_and_keys (t l l' : list book_row) :
  Permutation l l' ->
  length (insert_ignore t l) = length (insert_ignore t l') /\
  forall k, has_key k (insert_ignore t l) = has_key k (insert_ignore t l').
Proof.
  intros H. apply (same_keys_permutation l l' H t t (same_keys_refl t)).
Qed.

Lemma numbered_app (a b : list row) :
  forall z,
    numbered z (a ++ b) = numbered z a ++ numbered (z + Z.of_nat (length a)) b.
Proof.
  induction a as [|r rest IH]; intros z.
  - cbn. rewrite Z.add_0_r. reflexivity.
  - cbn [numbered app length]. rewrite IH. cbn [app]. f_equal. f_equal. f_equal. lia.
Qed.

(** What the loop sends to the ratings table. *)
Lemma for_chunks_written_ratings (filename : string) (events : list read_event) :
  forall v s,
    ratings (db (snd (for_chunks filename events v s))) =
    ratings (db s) ++ numbered (rating_seq (db s)) (written_ratings filename events).
Proof.
  induction events as [|[e|chunk write_error] rest IH]; intros v s;
    try (cbn; rewrite app_nil_r; reflexivity).
  cbn [for_chunks written_ratings]. unfold loop_body, bind, lift, to_sql.
  destruct (prefix "book" filename).
  - destruct (transform_books chunk) as [clean|e];
      [|cbn; rewrite app_nil_r; reflexivity].
    destruct write_error as [e|]; [cbn; rewrite app_nil_r; reflexivity|].
    unfold modify_db, ret. rewrite IH. reflexivity.
  - destruct (prefix "user_rating" filename).
    + destruct (transform_ratings chunk) as [clean|e];
        [|cbn; rewrite app_nil_r; reflexivity].
      destruct write_error as [e|]; [cbn; rewrite app_nil_r; reflexivity|].
      unfold modify_db, ret. rewrite IH. cbn [db]. unfold to_sql_ratings.
      destruct (to_sql_ratings_appends (rows clean) (db s)) as (Hr & _ & Hs).
      cbv zeta in Hr, Hs. rewrite Hr, Hs, numbered_app, app_assoc. reflexivity.
    + unfold ret. apply IH.
Qed.

Lemma process_single_file_ratings_length (filename : string) (env : file_env)
    (s : state) :
  length (ratings (db (snd (process_single_file filename env s)))) =
  (length (ratings (db s)) +
   match connect_error env with
   | Some _ => 0
   | None => length (written_ratings filename (reader env))
   end)%nat.
Proof.
  rewrite process_single_file_db.
  destruct (connect_error env); [lia|].
  rewrite for_chunks_written_ratings, length_app, numbered_length. reflexivity.
Qed.

(** X15: the two counts of the report do not depend on the order in
    which the files are processed one after the other: any two orders of
    the same files end with books tables of the same size that hold the
    same identifiers, and with as many ratings. *)
Theorem file_order_keeps_counts (csv_files csv_files' : list (string * file_env))
    (s : state) :
  Permutation csv_files csv_files' ->
  let d := db (snd (executor_map csv_files s)) in
  let d' := db (snd (executor_map csv_files' s)) in
  length (books d) = length (books d') /\
  (forall k, has_key k (books d) = has_key k (books d')) /\
  length (ratings d) = length (ratings d').
Proof.
  intros H. cbv zeta.
  assert (B : forall files s1,
            books (db (snd (executor_map files s1))) =
            insert_ignore (books (db s1))
              (flat_map (fun fe =>
                 match connect_error (snd fe) with
                 | Some _ => []
                 | None => written_books (fst fe) (reader (snd fe))
                 end) files)).
  { induction files as [|[filename env] rest IH]; intros s1; [reflexivity|].
    cbn [executor_map flat_map fst snd].
    destruct (process_single_file filename env s1) as [r s2] eqn:E.
    destruct (process_single_file_effect _ _ _ _ _ E) as (_ & Hb & _).
    specialize (IH s2). destruct (executor_map rest s2) as [futures s3].
    cbn [snd] in *. rewrite IH, Hb, insert_ignore_app. reflexivity. }
  assert (R : forall files s1,
            length (ratings (db (snd (executor_map files s1)))) =
            (length (ratings (db s1)) +
             list_sum (map (fun fe =>
                match connect_error (snd fe) with
                | Some _ => 0
                | None => length (written_ratings (fst fe) (reader (snd fe)))
                end) files))%nat).
  { induction files as [|[filename env] rest IH]; intros s1; [cbn; lia|].
    cbn [executor_map map list_sum fst snd].
    pose proof (process_single_file_ratings_length filename env s1) as Hr.
    destruct (process_single_file filename env s1) as [r s2].
    specialize (IH s2). destruct (executor_map rest s2) as [futures s3].
    cbn [snd] in *. rewrite IH, Hr. unfold list_sum. cbn [fold_right]. lia. }
  rewrite !B, !R.
  pose proof (same_keys_permutation _ _
                (Permutation_flat_map
                   (fun fe : string * file_env =>
                      match connect_error (snd fe) with
                      | Some _ => []
                      | None => written_books (fst fe) (reader (snd fe))
                      end) H)
                (books (db s)) (books (db s)) (same_keys_refl _)) as [L K].
  split; [exact L|]. split; [exact K|].
  f_equal. apply Permutation_list_sum, Permutation_map, H.
Qed.

(** ** The top-5 query *)

Lemma strongly_sorted_firstn {B} (R : B -> B -> Prop) (l : list B) :
  StronglySorted R l -> forall n, StronglySorted R (firstn n l).
Proof.
  induction 1 as [|a r Hs IH Ha]; intros n; destruct n; cbn [firstn];
    try constructor.
  - apply IH.
  - rewrite Forall_forall in *. intros x Hx. apply Ha.
    rewrite <- (firstn_skipn n r). apply in_or_app. left. exact Hx.
Qed.

Lemma in_firstn {B} (n : nat) (l : list B) (x : B) : In x (firstn n l) -> In x l.
Proof.
  intros H. rewrite <- (firstn_skipn n l). apply in_or_app. left. exact H.
Qed.

Lemma same_key_left (a b x : cell) :
  same_key a b = true -> same_key a x = same_key b x.
Proof.
  intros H. rewrite (same_key_sym a x), (same_key_sym b x).
  apply same_key_compat, H.
Qed.

Lemma same_key_notna (a b : cell) : same_key a b = true -> same_key a a = true.
Proof.
  intros H. apply same_key_trans with b; [exact H|].
  rewrite same_key_sym. exact H.
Qed.

(** A title carried by [m] books and named by [n] ratings has [m * n]
    rows in the join. *)
Lemma reviews_product (d : database) (t : cell) :
  reviews d t = (books_titled d t * ratings_titled d t)%nat.
Proof.
  unfold reviews, joined, books_titled.
  induction (books d) as [|b bs IH]; [reflexivity|].
  cbn [flat_map filter]. rewrite filter_app, length_app, IH.
  destruct (same_key t (title b)) eqn:E.
  - cbn [length Nat.mul]. f_equal.
    assert (F : forall (X : list (book_row * rating_row)),
              (forall p, In p X -> fst p = b) ->
              filter (fun p => same_key t (title (fst p))) X = X).
    { induction X as [|p X IHX]; intros HX; [reflexivity|].
      cbn [filter]. rewrite (HX p (or_introl eq_refl)), E.
      f_equal. apply IHX. intros q Hq. apply HX. right. exact Hq. }
    rewrite F.
    + rewrite length_map. unfold ratings_titled. f_equal.
      apply filter_ext. intros r. symmetry. apply same_key_left, E.
    + intros p Hp. apply in_map_iff in Hp. destruct Hp as (r & <- & _). reflexivity.
  - assert (F : forall (X : list (book_row * rating_row)),
              (forall p, In p X -> fst p = b) ->
              filter (fun p => same_key t (title (fst p))) X = []).
    { induction X as [|p X IHX]; intros HX; [reflexivity|].
      cbn [filter]. rewrite (HX p (or_introl eq_refl)), E.
      apply IHX. intros q Hq. apply HX. right. exact Hq. }
    rewrite F; [reflexivity|].
    intros p Hp. apply in_map_iff in Hp. destruct Hp as (r & <- & _). reflexivity.
Qed.

Lemma group_keys_in (l : list cell) (g : cell) : In g (group_keys l) -> In g l.
Proof.
  induction l as [|t rest IH]; [intros []|].
  cbn [group_keys]. intros [<-|H]; [left; reflexivity|].
  right. apply IH. apply filter_In in H. apply H.
Qed.

Lemma group_keys_cover (l : list cell) (x : cell) :
  In x l -> same_key x x = true ->
  exists g, In g (group_keys l) /\ same_key g x = true.
Proof.
  induction l as [|t rest IH]; [intros []|].
  intros [<-|Hin] Hx.
  - exists t. split; [left; reflexivity|exact Hx].
  - destruct (IH Hin Hx) as (g & Hg & Hgx).
    destruct (same_key t g) eqn:E.
    + exists t. split; [left; reflexivity|].
      apply same_key_trans with g; assumption.
    + exists g. split; [|exact Hgx].
      cbn [group_keys]. right. apply filter_In. split; [exact Hg|].
      rewrite E. reflexivity.
Qed.

Lemma joined_title_notna (d : database) (p : book_row * rating_row) :
  In p (joined d) -> same_key (title (fst p)) (title (fst p)) = true.
Proof.
  unfold joined. intros H. apply in_flat_map in H. destruct H as (b & _ & H).
  apply in_map_iff in H. destruct H as (r & <- & H).
  apply filter_In in H. destruct H as [_ H]. cbn [fst].
  apply (same_key_notna _ _ H).
Qed.

Lemma reviews_positive (d : database) (t : cell) :
  (1 <= reviews d t)%nat <->
  exists p, In p (joined d) /\ same_key t (title (fst p)) = true.
Proof.
  unfold reviews. split.
  - intros H. destruct (filter _ (joined d)) as [|p X] eqn:E; [cbn in H; lia|].
    exists p. apply (proj1 (filter_In (fun p => same_key t (title (fst p))) p (joined d))).
    rewrite E. left. reflexivity.
  - intros (p & Hin & Hp).
    assert (Hf : In p (filter (fun p => same_key t (title (fst p))) (joined d)))
      by (apply filter_In; split; assumption).
    destruct (filter _ (joined d)); [contradiction|cbn; lia].
Qed.

(** X16: the top-5 query returns at most five titles, each with at
    least one review, in the order of their counts, largest first; the
    count of a title is the number of books that carry it times the
    number of ratings that name it, so a title stored for two books has
    each of its ratings counted twice; a title with reviews is left out
    only when every listed title has at least as many. *)
Theorem top_reviewed_is_top_five (d : database) :
  (length (top_reviewed d) <= 5)%nat /\
  Forall (fun tn => snd tn = (books_titled d (fst tn) * ratings_titled d (fst tn))%nat /\
                    (1 <= snd tn)%nat) (top_reviewed d) /\
  StronglySorted (fun a b => (snd b <=? snd a)%nat = true) (top_reviewed d) /\
  (forall t, (1 <= books_titled d t * ratings_titled d t)%nat ->
     (exists tn, In tn (top_reviewed d) /\ same_key t (fst tn) = true) \/
     Forall (fun tn => (books_titled d t * ratings_titled d t <= snd tn)%nat)
       (top_reviewed d)).
Proof.
  unfold top_reviewed.
  set (le := fun a b : cell * nat => (snd b <=? snd a)%nat).
  set (groups := group_keys (map (fun p => title (fst p)) (joined d))).
  set (counted := map (fun t => (t, reviews d t)) groups).
  assert (Tot : forall x y, le x y = true \/ le y x = true).
  { intros x y. unfold le. destruct (Nat.leb_spec (snd y) (snd x)); [left; reflexivity|].
    right. apply Nat.leb_le. lia. }
  assert (Tr : forall x y z, le x y = true -> le y z = true -> le x z = true).
  { intros x y z. unfold le. rewrite !Nat.leb_le. lia. }
  assert (S : StronglySorted (fun a b => le a b = true) (sort_by le counted))
    by (apply sort_by_strongly_sorted; assumption).
  assert (In_counted : forall tn, In tn (sort_by le counted) ->
            snd tn = reviews d (fst tn) /\ In (fst tn) groups).
  { intros tn H. apply (Permutation_in _ (sort_by_perm le counted)) in H.
    apply in_map_iff in H. destruct H as (t & <- & H). split; [reflexivity|exact H]. }
  split; [apply firstn_le_length|]. split; [|split].
  - apply Forall_forall. intros tn H. apply in_firstn, In_counted in H.
    destruct H as [Hn Hg]. rewrite Hn, <- reviews_product. split; [reflexivity|].
    apply reviews_positive. apply group_keys_in, in_map_iff in Hg.
    destruct Hg as (p & Hp & Hin). exists p. split; [exact Hin|].
    rewrite <- Hp. apply (joined_title_notna d), Hin.
  - apply strongly_sorted_firstn. exact S.
  - intros t Ht. rewrite <- reviews_product in Ht.
    apply reviews_positive in Ht. destruct Ht as (p & Hin & Hp).
    destruct (group_keys_cover (map (fun p => title (fst p)) (joined d))
                (title (fst p))) as (g & Hg & Hgp).
    { apply (in_map (fun q : book_row * rating_row => title (fst q))), Hin. }
    { apply (joined_title_notna d), Hin. }
    fold groups in Hg.
    assert (Htg : same_key t g = true).
    { apply same_key_trans with (title (fst p)); [exact Hp|].
      rewrite same_key_sym. exact Hgp. }
    assert (Hc : In (g, reviews d g) (sort_by le counted)).
    { apply (Permutation_in _ (Permutation_sym (sort_by_perm le counted))).
      apply in_map_iff. exists g. split; [reflexivity|exact Hg]. }
    rewrite <- (firstn_skipn 5 (sort_by le counted)) in Hc.
    apply in_app_or in Hc. destruct Hc as [Hc|Hc].
    + left. exists (g, reviews d g). split; [exact Hc|exact Htg].
    + right. apply Forall_forall. intros tn Htn.
      pose proof (firstn_before_skipn le _ S 5 tn (g, reviews d g) Htn Hc) as H.
      unfold le in H. cbn [snd] in H. apply Nat.leb_le in H.
      rewrite <- reviews_product.
      replace (reviews d t) with (reviews d g); [exact H|].
      unfold reviews. f_equal. apply filter_ext. intros q.
      symmetry. apply same_key_left, Htg.
Qed.

(** ** Running the pipeline again *)






Lemma for_chunks_rating_seq (filename : string) (events : list read_event) :
  forall v s,
    rating_seq (db (snd (for_chunks filename events v s))) =
    (rating_seq (db s) + Z.of_nat (length (written_ratings filename events)))%Z.
Proof.
  induction events as [|[e|chunk write_error] rest IH]; intros v s;
    try (cbn; lia).
  cbn [for_chunks written_ratings]. unfold loop_body, bind, lift, to_sql.
  destruct (prefix "book" filename).
  - destruct (transform_books chunk) as [clean|e]; [|cbn; lia].
    destruct write_error as [e|]; [cbn; lia|].
    unfold modify_db, ret. rewrite IH. reflexivity.
  - destruct (prefix "user_rating" filename).
    + destruct (transform_ratings chunk) as [clean|e]; [|cbn; lia].
      destruct write_error as [e|]; [cbn; lia|].
      unfold modify_db, ret. rewrite IH. cbn [db]. unfold to_sql_ratings.
      destruct (to_sql_ratings_appends (rows clean) (db s)) as (_ & _ & Hs).
      cbv zeta in Hs. rewrite Hs, length_app. lia.
    + unfold ret. apply IH.
Qed.

Lemma executor_map_sent_books (csv_files : list (string * file_env)) :
  forall s,
    books (db (snd (executor_map csv_files s))) =
    insert_ignore (books (db s)) (flat_map sent_books csv_files).
Proof.
  induction csv_files as [|[filename env] rest IH]; intros s; [reflexivity|].
  cbn [executor_map flat_map].
  destruct (process_single_file filename env s) as [r s1] eqn:E.
  destruct (process_single_file_effect _ _ _ _ _ E) as (_ & Hb & _).
  specialize (IH s1). destruct (executor_map rest s1) as [futures s2].
  cbn [snd] in *. rewrite IH, Hb, insert_ignore_app. reflexivity.
Qed.

Lemma executor_map_sent_ratings (csv_files : list (string * file_env)) :
  forall s,
    ratings (db (snd (executor_map csv_files s))) =
      ratings (db s) ++
      numbered (rating_seq (db s)) (flat_map sent_ratings csv_files) /\
    rating_seq (db (snd (executor_map csv_files s))) =
      (rating_seq (db s) + Z.of_nat (length (flat_map sent_ratings csv_files)))%Z.
Proof.
  induction csv_files as [|[filename env] rest IH]; intros s.
  - cbn. rewrite app_nil_r. split; [reflexivity|lia].
  - cbn [executor_map flat_map].
    assert (H1 : ratings (db (snd (process_single_file filename env s))) =
                 ratings (db s) ++
                 numbered (rating_seq (db s)) (sent_ratings (filename, env)) /\
                 rating_seq (db (snd (process_single_file filename env s))) =
                 (rating_seq (db s) +
                  Z.of_nat (length (sent_ratings (filename, env))))%Z).
    { rewrite process_single_file_db. unfold sent_ratings. cbn [fst snd].
      destruct (connect_error env).
      - cbn. rewrite app_nil_r. split; [reflexivity|lia].
      - rewrite for_chunks_written_ratings, for_chunks_rating_seq. split; reflexivity. }
    destruct (process_single_file filename env s) as [r s1]. cbn [snd] in H1.
    destruct H1 as [Hr Hs].
    destruct (IH s1) as [IHr IHs]. destruct (executor_map rest s1) as [futures s2].
    cbn [snd] in *. rewrite IHr, IHs, Hr, Hs, numbered_app, length_app.
    rewrite <- app_assoc. split; [reflexivity|lia].
Qed.




(** ** Reading in chunks *)

Lemma chunks_from_fills {A} (chunksize : nat) (rest l : list A) :
  forall cur, l <> [] ->
    chunks_from chunksize (length l) cur (l ++ rest) =
    (rev cur ++ l) :: chunks_from chunksize chunksize [] rest.
Proof.
  induction l as [|a l IH]; intros cur Hl; [contradiction|].
  destruct l as [|b l'].
  - reflexivity.
  - change (chunks_from chunksize (Datatypes.length (a :: b :: l')) cur
              ((a :: b :: l') ++ rest))
      with (chunks_from chunksize (Datatypes.length (b :: l')) (a :: cur)
              ((b :: l') ++ rest)).
    rewrite (IH (a :: cur)) by discriminate. cbn [rev].
    rewrite <- app_assoc. reflexivity.
Qed.

(** [n] lines and one more, read [n] at a time, are two chunks; read
    [n + 1] at a time they are one. *)
Lemma chunks_of_two {A} (n : nat) (a b : A) :
  (1 <= n)%nat -> chunks_of n (repeat a n ++ [b]) = [repeat a n; [b]].
Proof.
  intros Hn. destruct n as [|n]; [lia|].
  pose proof (chunks_from_fills (S n) [b] (repeat a (S n)) [] ltac:(discriminate)) as H.
  rewrite repeat_length in H. cbn [rev app] in H.
  unfold chunks_of. cbn [repeat app] in *. rewrite H. f_equal.
  destruct n; reflexivity.
Qed.

Lemma chunks_of_one {A} (n : nat) (a b : A) :
  chunks_of (S n) (repeat a n ++ [b]) = [repeat a n ++ [b]].
Proof.
  pose proof (chunks_from_fills (S n) [] (repeat a n ++ [b]) []) as H.
  rewrite length_app, repeat_length, Nat.add_1_r, app_nil_r in H.
  cbn [rev app chunks_from] in H. unfold chunks_of.
  destruct (repeat a n ++ [b]) as [|c l] eqn:E.
  - destruct n; discriminate E.
  - apply H. discriminate.
Qed.

Lemma forallb_repeat_app {A} (p : A -> bool) (a b : A) (n : nat) :
  forallb p (repeat a (S n) ++ [b]) = p a && p b.
Proof.
  induction n as [|n IH].
  - cbn. rewrite andb_true_r. reflexivity.
  - change (repeat a (S (S n)) ++ [b]) with (a :: (repeat a (S n) ++ [b])).
    cbn [forallb]. rewrite IH. destruct (p a); reflexivity.
Qed.

Lemma forallb_repeat {A} (p : A -> bool) (a : A) (n : nat) :
  forallb p (repeat a (S n)) = p a.
Proof.
  induction n as [|n IH].
  - cbn. apply andb_true_r.
  - change (repeat a (S (S n))) with (a :: repeat a (S n)).
    cbn [forallb]. rewrite IH. destruct (p a); reflexivity.
Qed.

Lemma filter_repeat {A} (p : A -> bool) (a : A) (n : nat) :
  p a = true -> filter p (repeat a n) = repeat a n.
Proof.
  intros H. induction n as [|n IH]; [reflexivity|].
  cbn [repeat filter]. rewrite H, IH. reflexivity.
Qed.

(** The type of a column is decided on the fields the chunk holds, not
    on how often each occurs. *)
Lemma infer_dtype_repeat_app (f g : option string) (n : nat) :
  (1 <= n)%nat -> infer_dtype (repeat f n ++ [g]) = infer_dtype [f; g].
Proof.
  intros Hn. destruct n as [|n]; [lia|]. unfold infer_dtype.
  change (match repeat f (S n) ++ [g] with
          | [] => object
          | _ :: _ =>
              if forallb integer_field (repeat f (S n) ++ [g]) then int64
              else if forallb (fun f0 => missing f0 || number_field f0)
                        (repeat f (S n) ++ [g])
                   then float64 else object
          end =
          if forallb integer_field [f; g] then int64
          else if forallb (fun f0 => missing f0 || number_field f0) [f; g]
               then float64 else object).
  cbn [repeat app]. change (f :: repeat f n ++ [g]) with (repeat f (S n) ++ [g]).
  rewrite !forallb_repeat_app. cbn [forallb]. rewrite !andb_true_r. reflexivity.
Qed.

Lemma infer_dtype_repeat (f : option string) (n : nat) :
  (1 <= n)%nat -> infer_dtype (repeat f n) = infer_dtype [f].
Proof.
  intros Hn. destruct n as [|n]; [lia|]. unfold infer_dtype.
  cbn [repeat]. change (f :: repeat f n) with (repeat f (S n)).
  rewrite !forallb_repeat. cbn [forallb]. rewrite !andb_true_r. reflexivity.
Qed.

Lemma str_accessor_text (s : Series) :
  dtype_of s = object -> existsb is_text (values s) = true ->
  is_ok (str_accessor s) = true.
Proof.
  intros Hd Ht. unfold str_accessor. rewrite Hd, Ht, andb_false_r. reflexivity.
Qed.

Lemma for_chunks_nil (filename : string) (v : locals) (s : state) :
  for_chunks filename [] v s = (Ok v, s).
Proof. reflexivity. Qed.

Lemma for_chunks_cons_ok (filename : string) (chunk : DataFrame)
    (write_error : option exn) (rest : list read_event) (v v' : locals)
    (s s' : state) :
  loop_body filename chunk write_error v s = (Ok v', s') ->
  for_chunks filename (Yield chunk write_error :: rest) v s =
  for_chunks filename rest v' s'.
Proof. intros H. cbn [for_chunks]. unfold bind. rewrite H. reflexivity. Qed.

Lemma for_chunks_cons_raise (filename : string) (chunk : DataFrame)
    (write_error : option exn) (rest : list read_event) (v : locals)
    (s s' : state) (e : exn) :
  loop_body filename chunk write_error v s = (Raise e, s') ->
  for_chunks filename (Yield chunk write_error :: rest) v s = (Raise e, s').
Proof. intros H. cbn [for_chunks]. unfold bind. rewrite H. reflexivity. Qed.

(** One turn of the loop on a chunk that has its columns. *)
Lemma loop_body_books (filename : string) (chunk : DataFrame) (v : locals)
    (s : state) :
  prefix "book" filename = true ->
  has_label "Id" (columns chunk) = true ->
  has_label "Name" (columns chunk) = true ->
  has_label "Rating" (columns chunk) = true ->
  loop_body filename chunk None v s =
  (Ok {| total_processed := total_processed v + len (clean_books chunk);
         type_label := Some "books" |},
   {| db := to_sql_books (clean_books chunk) (db s); log := log s;
      open_connections := open_connections s |}).
Proof.
  intros Hb HI HN HR. unfold loop_body. rewrite Hb.
  rewrite (transform_books_rows chunk HI HN HR). reflexivity.
Qed.

Lemma loop_body_ratings (filename : string) (chunk : DataFrame) (v : locals)
    (s : state) :
  prefix "book" filename = false ->
  prefix "user_rating" filename = true ->
  has_label "Rating" (columns chunk) = true ->
  has_label "Name" (columns chunk) = true ->
  has_label "ID" (columns chunk) = true ->
  is_ok (str_accessor (column chunk "Rating")) = true ->
  loop_body filename chunk None v s =
  (Ok {| total_processed := total_processed v + len (clean_ratings chunk);
         type_label := Some "ratings" |},
   {| db := to_sql_ratings (clean_ratings chunk) (db s); log := log s;
      open_connections := open_connections s |}).
Proof.
  intros Hb Hu HR HN HI HS. unfold loop_body. rewrite Hb, Hu.
  rewrite (transform_ratings_rows chunk HR HN HI HS). reflexivity.
Qed.

Lemma loop_body_ratings_raises (filename : string) (chunk : DataFrame)
    (write_error : option exn) (v : locals) (s : state) :
  prefix "book" filename = false ->
  prefix "user_rating" filename = true ->
  has_label "Rating" (columns chunk) = true ->
  is_ok (str_accessor (column chunk "Rating")) = false ->
  loop_body filename chunk write_error v s = (Raise AttributeError, s).
Proof.
  intros Hb Hu HR HS. unfold loop_body. rewrite Hb, Hu.
  rewrite (transform_ratings_attribute_error chunk HR HS). reflexivity.
Qed.

(** Equal rows, sent to an empty table, leave one row. *)
Lemma insert_ignore_repeat (b : book_row) (n : nat) :
  same_key (book_id b) (book_id b) = true ->
  insert_ignore [] (repeat b (S n)) = [b].
Proof.
  intros H. change (repeat b (S n)) with ([b] ++ repeat b n).
  rewrite insert_ignore_app.
  replace (insert_ignore [] [b]) with [b] by reflexivity.
  apply insert_ignore_present. apply Forall_forall. intros r Hr.
  apply repeat_spec in Hr. subst r. cbn. rewrite H. reflexivity.
Qed.

(** ** The worker pool *)

(** A turn of the loop either goes through, and then it has written
    what the file was to send for this chunk, or raises, and then it has
    written nothing and the file sends nothing more. *)
Lemma loop_body_cases (filename : string) (chunk : DataFrame)
    (write_error : option exn) (rest : list read_event) (v : locals) (s : state) :
  (exists v' s1 sent_b sent_r,
     loop_body filename chunk write_error v s = (Ok v', s1) /\
     written_books filename (Yield chunk write_error :: rest) =
       sent_b ++ written_books filename rest /\
     written_ratings filename (Yield chunk write_error :: rest) =
       sent_r ++ written_ratings filename rest /\
     books (db s1) = insert_ignore (books (db s)) sent_b /\
     length (ratings (db s1)) = (length (ratings (db s)) + length sent_r)%nat) \/
  (exists e,
     loop_body filename chunk write_error v s = (Raise e, s) /\
     written_books filename (Yield chunk write_error :: rest) = [] /\
     written_ratings filename (Yield chunk write_error :: rest) = []).
Proof.
  unfold loop_body. cbn [written_books written_ratings].
  destruct (prefix "book" filename) eqn:Hb.
  - unfold bind, lift, to_sql.
    destruct (transform_books chunk) as [clean|e];
      [|right; exists e; repeat split].
    destruct write_error as [e|]; [right; exists e; repeat split|].
    left. unfold modify_db, ret. do 2 eexists. exists (sql_books clean), [].
    split; [reflexivity|]. cbn [db to_sql_books books ratings length].
    repeat split. lia.
  - destruct (prefix "user_rating" filename) eqn:Hu.
    + unfold bind, lift, to_sql.
      destruct (transform_ratings chunk) as [clean|e];
        [|right; exists e; repeat split].
      destruct write_error as [e|]; [right; exists e; repeat split|].
      left. unfold modify_db, ret. do 2 eexists. exists [], (rows clean).
      split; [reflexivity|]. cbn [db app].
      rewrite (written_books_other filename rest Hb).
      split; [reflexivity|]. split; [reflexivity|].
      rewrite books_to_sql_ratings. split; [reflexivity|].
      unfold to_sql_ratings.
      destruct (to_sql_ratings_appends (rows clean) (db s)) as (Hr & _ & _).
      cbv zeta in Hr. rewrite Hr, length_app, numbered_length. reflexivity.
    + left. exists v, s, [], []. unfold ret.
      rewrite (written_books_other filename rest Hb).
      repeat split. cbn. lia.
Qed.

Lemma try_finally_close_db {A} (body : M A) (s : state) :
  db (snd (body s)) = db s -> db (snd (try_finally body close s)) = db s.
Proof.
  unfold try_finally, close. destruct (body s) as [r s1]. cbn. auto.
Qed.

Lemma log_processed_db (filename : string) (seconds : Q) (v : locals) (s : state) :
  db (snd (log_processed filename seconds v s)) = db s.
Proof.
  unfold log_processed. destruct (type_label v); [|reflexivity].
  destruct (Qeq_bool seconds 0); reflexivity.
Qed.

(** What a step changes: rows move from what is still to be sent to
    the tables, and the books table is filled through [insert_ignore]. *)
Lemma worker_step_moves (w w' : worker) (queue queue' : list (string * file_env))
    (s s' : state) (before after : list book_row) :
  worker_step w queue s = (w', queue', s') ->
  same_keys
    (insert_ignore (books (db s'))
       (before ++ pending_books w' ++ after ++ flat_map sent_books queue'))
    (insert_ignore (books (db s))
       (before ++ pending_books w ++ after ++ flat_map sent_books queue)) /\
  (length (ratings (db s')) + length (pending_ratings w') +
   length (flat_map sent_ratings queue') =
   length (ratings (db s)) + length (pending_ratings w) +
   length (flat_map sent_ratings queue))%nat.
Proof.
  destruct w as [|filename env events v].
  - destruct queue as [|[filename env] queue0].
    + intros [= <- <- <-]. split; [apply same_keys_refl|reflexivity].
    + cbn [worker_step]. unfold connect, sent_books, sent_ratings.
      cbn [flat_map fst snd].
      destruct (connect_error env) as [e|].
      * cbn. intros [= <- <- <-]. split; [apply same_keys_refl|reflexivity].
      * intros [= <- <- <-]. cbn [db pending_books pending_ratings app].
        split.
        -- apply same_keys_permutation; [|apply same_keys_refl].
           apply Permutation_app_head.
           rewrite !app_assoc. apply Permutation_app_tail, Permutation_app_comm.
        -- rewrite !length_app. cbn [Datatypes.length]. lia.
  - destruct events as [|[e|chunk write_error] rest]; cbn [worker_step].
    + intros [= <- <- <-].
      rewrite try_finally_close_db by apply log_processed_db.
      split; [apply same_keys_refl|reflexivity].
    + intros [= <- <- <-]. split; [apply same_keys_refl|reflexivity].
    + destruct (loop_body_cases filename chunk write_error rest v s)
        as [(v' & s1 & sent_b & sent_r & E & Hb & Hr & Hbooks & Hlen)|(e & E & Hb & Hr)];
        rewrite E.
      * intros [= <- <- <-]. cbn [pending_books pending_ratings].
        rewrite Hb, Hr, Hbooks. split.
        -- rewrite <- insert_ignore_app.
           apply same_keys_permutation; [|apply same_keys_refl].
           rewrite <- !app_assoc. rewrite !app_assoc.
           do 3 apply Permutation_app_tail. apply Permutation_app_comm.
        -- rewrite Hlen, !length_app. lia.
      * intros [= <- <- <-]. cbn [pending_books pending_ratings close snd db].
        rewrite Hb, Hr. split; [apply same_keys_refl|reflexivity].
Qed.

Lemma step_thread_moves (i : nat) (threads : list worker) :
  forall (threads' : list worker) (queue queue' : list (string * file_env))
         (s s' : state) (before : list book_row),
    step_thread i threads queue s = (threads', queue', s') ->
    same_keys
      (insert_ignore (books (db s'))
         (before ++ flat_map pending_books threads' ++ flat_map sent_books queue'))
      (insert_ignore (books (db s))
         (before ++ flat_map pending_books threads ++ flat_map sent_books queue)) /\
    (length (ratings (db s')) + length (flat_map pending_ratings threads') +
     length (flat_map sent_ratings queue') =
     length (ratings (db s)) + length (flat_map pending_ratings threads) +
     length (flat_map sent_ratings queue))%nat.
Proof.
  revert i. induction threads as [|w rest IH]; intros i threads' queue queue' s s' before.
  - intros [= <- <- <-]. split; [apply same_keys_refl|reflexivity].
  - destruct i as [|j]; cbn [step_thread].
    + destruct (worker_step w queue s) as [[w' q1] s1] eqn:E.
      intros [= <- <- <-]. cbn [flat_map].
      destruct (worker_step_moves _ _ _ _ _ _ before (flat_map pending_books rest) E)
        as [Hk Hr].
      rewrite <- !app_assoc. split; [exact Hk|].
      rewrite !length_app. lia.
    + destruct (step_thread j rest queue s) as [[rest' q1] s1] eqn:E.
      intros [= <- <- <-]. cbn [flat_map].
      destruct (IH _ _ _ _ _ _ (before ++ pending_books w) E) as [Hk Hr].
      rewrite <- !app_assoc in Hk. rewrite <- !app_assoc.
      split; [exact Hk|]. rewrite !length_app. lia.
Qed.

Lemma run_pool_moves (schedule : list nat) :
  forall (threads threads' : list worker) (queue queue' : list (string * file_env))
         (s s' : state),
    run_pool schedule threads queue s = (threads', queue', s') ->
    same_keys
      (insert_ignore (books (db s'))
         (flat_map pending_books threads' ++ flat_map sent_books queue'))
      (insert_ignore (books (db s))
         (flat_map pending_books threads ++ flat_map sent_books queue)) /\
    (length (ratings (db s')) + length (flat_map pending_ratings threads') +
     length (flat_map sent_ratings queue') =
     length (ratings (db s)) + length (flat_map pending_ratings threads) +
     length (flat_map sent_ratings queue))%nat.
Proof.
  induction schedule as [|i later IH]; intros threads threads' queue queue' s s'.
  - intros [= <- <- <-]. split; [apply same_keys_refl|reflexivity].
  - cbn [run_pool].
    destruct (step_thread i threads queue s) as [[t1 q1] s1] eqn:E.
    intros H. destruct (IH _ _ _ _ _ _ H) as [Hk Hr].
    destruct (step_thread_moves _ _ _ _ _ _ _ [] E) as [Hk1 Hr1].
    cbn [app] in Hk1. split; [|lia].
    apply same_keys_trans with (1 := Hk). exact Hk1.
Qed.

Lemma idle_pending (threads : list worker) :
  forallb idle threads = true ->
  flat_map pending_books threads = [] /\ flat_map pending_ratings threads = [].
Proof.
  induction threads as [|[|f env ev v] rest IH]; intros H;
    [split; reflexivity| |discriminate H].
  cbn [flat_map pending_books pending_ratings app]. apply IH, H.
Qed.

Lemma run_pool_app (l1 l2 : list nat) :
  forall threads queue s,
    run_pool (l1 ++ l2) threads queue s =
    let '(t1, q1, s1) := run_pool l1 threads queue s in run_pool l2 t1 q1 s1.
Proof.
  induction l1 as [|i l1 IH]; intros threads queue s; [reflexivity|].
  cbn [app run_pool].
  destruct (step_thread i threads queue s) as [[t1 q1] s1]. apply IH.
Qed.

Lemma bind_bind_ok {A B C} (c : M A) (k : A -> M B) (h : B -> M C)
    (a : A) (s s1 : state) :
  c s = (Ok a, s1) -> bind (bind c k) h s = bind (k a) h s1.
Proof. intros H. unfold bind. rewrite H. reflexivity. Qed.

Lemma bind_bind_raise {A B C} (c : M A) (k : A -> M B) (h : B -> M C)
    (e : exn) (s s1 : state) :
  c s = (Raise e, s1) -> bind (bind c k) h s = (Raise e, s1).
Proof. intros H. unfold bind. rewrite H. reflexivity. Qed.

(** The first thread, left alone, carries the call it is in to its
    end. *)
Lemma first_thread_ends_the_call (filename : string) (env : file_env)
    (others : list worker) (queue : list (string * file_env))
    (events : list read_event) :
  forall v s,
    exists n,
      run_pool (repeat 0%nat n) (Busy filename env events v :: others) queue s =
      (Idle :: others, queue,
       snd (try_finally
              (v' <- for_chunks filename events v ;;
               log_processed filename (elapsed env) v' ;;
               ret v')
              close s)).
Proof.
  induction events as [|[e|chunk write_error] rest IH]; intros v s.
  - exists 1%nat. cbn [repeat run_pool step_thread worker_step for_chunks].
    f_equal. unfold try_finally, bind, ret.
    destruct (log_processed filename (elapsed env) v s) as [[u|e] s1]; reflexivity.
  - exists 1%nat. cbn [repeat run_pool step_thread worker_step for_chunks].
    reflexivity.
  - destruct (loop_body filename chunk write_error v s) as [[v'|e] s1] eqn:E.
    + destruct (IH v' s1) as [n Hn]. exists (S n).
      cbn [repeat run_pool step_thread worker_step]. rewrite E, Hn.
      f_equal. cbn [for_chunks]. unfold try_finally.
      rewrite (bind_bind_ok _ _ _ _ _ _ E). reflexivity.
    + exists 1%nat. cbn [repeat run_pool step_thread worker_step]. rewrite E.
      f_equal. cbn [for_chunks]. unfold try_finally.
      rewrite (bind_bind_raise _ _ _ _ _ _ E). reflexivity.
Qed.

(** So the first thread alone does what the sequential run does. *)
Lemma first_thread_alone (others : list worker)
    (csv_files : list (string * file_env)) :
  forall s,
    exists n,
      run_pool (repeat 0%nat n) (Idle :: others) csv_files s =
      (Idle :: others, [], snd (executor_map csv_files s)).
Proof.
  induction csv_files as [|[filename env] rest IH]; intros s.
  - exists 0%nat. reflexivity.
  - cbn [executor_map].
    destruct (process_single_file filename env s) as [r s1] eqn:E.
    destruct (IH s1) as [n2 H2].
    destruct (executor_map rest s1) as [futures s2]. cbn [snd] in *.
    unfold process_single_file in E.
    destruct (connect_error env) as [e|] eqn:Ec.
    + exists (S n2). cbn [repeat run_pool step_thread worker_step].
      rewrite Ec. unfold connect, raise in *. unfold bind in E.
      injection E as <- <-. exact H2.
    + unfold connect in E. unfold bind at 1 in E.
      destruct (first_thread_ends_the_call filename env others rest (reader env)
                  {| total_processed := 0; type_label := None |}
                  {| db := db s; log := log s;
                     open_connections := S (open_connections s) |}) as [n1 H1].
      exists (S (n1 + n2)).
      cbn [repeat run_pool step_thread worker_step]. rewrite Ec.
      unfold connect. rewrite repeat_app, run_pool_app, H1.
      assert (Hs : snd (try_finally
                (v' <- for_chunks filename (reader env)
                         {| total_processed := 0; type_label := None |} ;;
                 log_processed filename (elapsed env) v' ;;
                 ret v')
                close
                {| db := db s; log := log s;
                   open_connections := S (open_connections s) |}) = s1).
      { unfold bind at 1 in E.
        destruct (try_finally _ close _) as [[v|e] s3]; cbn [snd];
          unfold ret in E; congruence. }
      rewrite Hs. exact H2.
Qed.

Lemma step_thread_at (before : list worker) (w : worker) (after : list worker)
    (queue : list (string * file_env)) (s : state) :
  step_thread (length before) (before ++ w :: after) queue s =
  let '(w', queue', s') := worker_step w queue s in
  (before ++ w' :: after, queue', s').
Proof.
  induction before as [|b before IH]; cbn [Datatypes.length app step_thread].
  - destruct (worker_step w queue s) as [[w' q'] s']. reflexivity.
  - rewrite IH. destruct (worker_step w queue s) as [[w' q'] s']. reflexivity.
Qed.

(** Any thread, scheduled often enough, ends the call it is in. *)
Lemma thread_ends_the_call (before after : list worker) (filename : string)
    (env : file_env) (queue : list (string * file_env)) (events : list read_event) :
  forall v s,
    exists n s',
      run_pool (repeat (length before) n)
        (before ++ Busy filename env events v :: after) queue s =
      (before ++ Idle :: after, queue, s').
Proof.
  induction events as [|[e|chunk write_error] rest IH]; intros v s.
  - exists 1%nat. eexists. cbn [repeat run_pool]. rewrite step_thread_at.
    reflexivity.
  - exists 1%nat. eexists. cbn [repeat run_pool]. rewrite step_thread_at.
    reflexivity.
  - destruct (loop_body filename chunk write_error v s) as [[v'|e] s1] eqn:E.
    + destruct (IH v' s1) as (n & s' & Hn). exists (S n), s'.
      cbn [repeat run_pool]. rewrite step_thread_at. cbn [worker_step].
      rewrite E. exact Hn.
    + exists 1%nat. eexists. cbn [repeat run_pool]. rewrite step_thread_at.
      cbn [worker_step]. rewrite E. reflexivity.
Qed.

(** So the calls under way can all be ended, the queue left as it
    is. *)
Lemma threads_end_their_calls (queue : list (string * file_env))
    (after : list worker) :
  forall (before : list worker) (s : state),
    exists schedule s',
      run_pool schedule (before ++ after) queue s =
      (before ++ map (fun _ => Idle) after, queue, s').
Proof.
  induction after as [|w after IH]; intros before s.
  - exists [], s. reflexivity.
  - destruct w as [|filename env events v].
    + destruct (IH (before ++ [Idle]) s) as (schedule & s' & H).
      exists schedule, s'. rewrite <- !app_assoc in H. exact H.
    + destruct (thread_ends_the_call before after filename env queue events v s)
        as (n & s1 & H1).
      destruct (IH (before ++ [Idle]) s1) as (schedule & s' & H).
      exists (repeat (length before) n ++ schedule), s'.
      rewrite run_pool_app, H1. rewrite <- !app_assoc in H. exact H.
Qed.

Lemma step_thread_length (i : nat) (threads : list worker) :
  forall threads' queue queue' s s',
    step_thread i threads queue s = (threads', queue', s') ->
    length threads' = length threads.
Proof.
  revert i. induction threads as [|w rest IH]; intros i threads' queue queue' s s'.
  - intros [= <- _ _]. reflexivity.
  - destruct i as [|j]; cbn [step_thread].
    + destruct (worker_step w queue s) as [[w' q1] s1]. intros [= <- _ _].
      reflexivity.
    + destruct (step_thread j rest queue s) as [[rest' q1] s1] eqn:E.
      intros [= <- _ _]. cbn [Datatypes.length]. f_equal. apply (IH _ _ _ _ _ _ E).
Qed.

Lemma run_pool_length (schedule : list nat) :
  forall threads threads' queue queue' s s',
    run_pool schedule threads queue s = (threads', queue', s') ->
    length threads' = length threads.
Proof.
  induction schedule as [|i later IH]; intros threads threads' queue queue' s s'.
  - intros [= <- _ _]. reflexivity.
  - cbn [run_pool].
    destruct (step_thread i threads queue s) as [[t1 q1] s1] eqn:E.
    intros H. rewrite (IH _ _ _ _ _ _ H). apply (step_thread_length _ _ _ _ _ _ _ E).
Qed.

Lemma idle_threads (threads : list worker) :
  forallb idle (map (fun _ => Idle) threads) = true.
Proof. induction threads as [|w rest IH]; [reflexivity|exact IH]. Qed.

(** C9: whatever the number of threads and whatever the schedule, when
    every file has been taken and every thread is idle again the books
    table has as many rows as after the sequential run, and the same
    keys, and the ratings table has as many rows; the order of the rows,
    and which of two rows with one key was kept, depend on the schedule.
    With one thread or more the pool gets there: the schedule on which
    the first thread does all the work ends in the very state of the
    sequential run, and every run under way can be continued until every
    file has been taken and every thread is idle. *)
Theorem parallel_dispatch_keeps_the_counts (W : nat)
    (csv_files : list (string * file_env)) (s : state) :
  (forall (schedule : list nat) (threads : list worker) (s' : state),
     run_pool schedule (repeat Idle W) csv_files s = (threads, [], s') ->
     forallb idle threads = true ->
     length (books (db s')) =
       length (books (db (snd (executor_map csv_files s)))) /\
     (forall k, has_key k (books (db s')) =
                has_key k (books (db (snd (executor_map csv_files s))))) /\
     length (ratings (db s')) =
       length (ratings (db (snd (executor_map csv_files s))))) /\
  ((1 <= W)%nat ->
   exists schedule,
     run_pool schedule (repeat Idle W) csv_files s =
     (repeat Idle W, [], snd (executor_map csv_files s))) /\
  ((1 <= W)%nat ->
   forall (schedule : list nat) (threads : list worker)
          (queue : list (string * file_env)) (s' : state),
     run_pool schedule (repeat Idle W) csv_files s = (threads, queue, s') ->
     exists more threads' s'',
       run_pool (schedule ++ more) (repeat Idle W) csv_files s =
         (threads', [], s'') /\
       forallb idle threads' = true).
Proof.
  split; [|split].
  - intros schedule threads s' H Hidle.
    destruct (run_pool_moves _ _ _ _ _ _ _ H) as [Hk Hr].
    destruct (idle_pending threads Hidle) as [Pb Pr].
    assert (I : forallb idle (repeat Idle W) = true)
      by (clear; induction W; [reflexivity|exact IHW]).
    destruct (idle_pending _ I) as [Qb Qr].
    rewrite Pb, Qb in Hk. rewrite Pr, Qr in Hr. cbn [app flat_map length] in Hk, Hr.
    rewrite executor_map_sent_books.
    destruct (executor_map_sent_ratings csv_files s) as [Er _]. rewrite Er.
    destruct Hk as [Hl Hkeys]. split; [exact Hl|]. split; [exact Hkeys|].
    rewrite length_app, numbered_length. lia.
  - intros HW. destruct W as [|W']; [lia|]. cbn [repeat].
    destruct (first_thread_alone (repeat Idle W') csv_files s) as [n Hn].
    exists (repeat 0%nat n). exact Hn.
  - intros HW schedule threads queue s' H.
    pose proof (run_pool_length _ _ _ _ _ _ _ H) as Hlen.
    rewrite repeat_length in Hlen.
    destruct (threads_end_their_calls queue threads [] s') as (sched1 & s1 & H1).
    cbn [app] in H1.
    destruct threads as [|w others]; [cbn in Hlen; lia|]. cbn [map] in H1.
    destruct (first_thread_alone (map (fun _ => Idle) others) queue s1) as [n Hn].
    exists (sched1 ++ repeat 0%nat n). do 2 eexists.
    rewrite run_pool_app, H. rewrite run_pool_app, H1. split; [exact Hn|].
    cbn [forallb idle andb]. apply idle_threads.
Qed.


End Pipeline.

(** ** The search tool *)

Lemma ascii_compare_refl (a : ascii) : Ascii.compare a a = Eq.
Proof. unfold Ascii.compare. apply N.compare_refl. Qed.




Section Search_results.

Variable sql_like : string -> string -> bool.
Variable sql_text : Q -> string.



Lemma search_query_length (keyword : string) (t : list book_row) :
  length (search_query sql_like sql_text keyword t) = Nat.min 10 (length (filter (matches sql_like sql_text keyword) t)).
Proof.
  unfold search_query. rewrite length_firstn.
  rewrite (Permutation_length (sort_by_perm better_rated _)). reflexivity.
Qed.

Lemma search_query_in (keyword : string) (t : list book_row) (b : book_row) :
  In b (search_query sql_like sql_text keyword t) -> In b t /\ matches sql_like sql_text keyword b = true.
Proof.
  unfold search_query. intros H. apply in_firstn in H.
  apply (Permutation_in _ (sort_by_perm better_rated _)) in H.
  apply filter_In in H. exact H.
Qed.


(** X19: the search session ends with its connection closed exactly
    when the file has a books table; without one the query raises after
    the welcome line; with one, the tool prints the no-books line exactly
    when no stored title matches, and otherwise one line for each result
    of the query, in its order. *)
Theorem search_vault_report (keyword : string) (f : db_file) :
  let out := search_vault sql_like sql_text keyword f in
  (open_handles (snd out) = 0%nat <-> file_books f <> None) /\
  (file_books f = None -> exists e, fst out = Raise e /\ console (snd out) = [Welcome]) /\
  (forall t, file_books f = Some t ->
     fst out = Ok tt /\
     exists lines, console (snd out) = Welcome :: MatchesFor keyword :: lines /\
       (lines = [NoBooksFound] <-> forall b, In b t -> matches sql_like sql_text keyword b = false) /\
       ((exists b, In b t /\ matches sql_like sql_text keyword b = true) ->
          lines = map (fun b => Found (avg_rating b) (title b)) (search_query sql_like sql_text keyword t))).
Proof.
  unfold search_vault. cbv zeta.
  destruct (file_books f) as [t|] eqn:Ef; cbn [fst snd open_handles console].
  - split; [split; [congruence|reflexivity]|]. split; [discriminate|].
    intros t' [= <-]. split; [reflexivity|].
    pose proof (search_query_length keyword t) as Hlen.
    pose proof (search_query_in keyword t) as Hall.
    destruct (search_query sql_like sql_text keyword t) as [|r rs] eqn:Eq.
    + assert (Hnone : forall b, In b t -> matches sql_like sql_text keyword b = false).
      { intros b Hb. destruct (matches sql_like sql_text keyword b) eqn:Em; [|reflexivity].
        assert (Hf : In b (filter (matches sql_like sql_text keyword) t))
          by (apply filter_In; split; assumption).
        destruct (filter (matches sql_like sql_text keyword) t); [contradiction|].
        cbn in Hlen. discriminate. }
      exists [NoBooksFound]. split; [reflexivity|]. split.
      * split; [intros _; exact Hnone|reflexivity].
      * intros (b & Hb & Hm). rewrite (Hnone b Hb) in Hm. discriminate.
    + exists (map (fun b => Found (avg_rating b) (title b)) (r :: rs)).
      split; [reflexivity|]. split; [|reflexivity].
      split; [discriminate|]. intros Hnone.
      destruct (Hall r (or_introl eq_refl)) as [Hin Hm].
      rewrite (Hnone r Hin) in Hm. discriminate.
  - split; [split; [discriminate|congruence]|].
    split; [|discriminate]. intros _. eexists. split; reflexivity.
Qed.

End Search_results.

(** ** The model at work

    The theorems above, applied to the ASCII instances and the scenario
    inputs. *)

Import Ascii_text.

(** The chunks of the scenarios are those that [read_csv] makes of the
    lines of their files. *)
Example harry_chunk_read :
  read_frame parse_decimal is_integer na_field ["Id"; "Name"; "Rating"]
    [ ["1"; "Harry Potter"; "4.5"]; ["2"; EmptyString; "3.0"];
      ["abc"; "BadId"; "2.0"] ] = harry_chunk.
Proof. reflexivity. Qed.

Example rating_chunk_read :
  read_frame parse_decimal is_integer na_field ["ID"; "Name"; "Rating"]
    [ ["u1"; "Harry Potter"; "it was amazing"]; ["u2"; "Dune"; "unknown text"] ] =
  rating_chunk.
Proof. reflexivity. Qed.

Example narrow_chunk_read :
  read_frame parse_decimal is_integer na_field ["Id"; "Name"]
    [ ["1"; "Harry Potter"] ] = narrow_chunk.
Proof. reflexivity. Qed.

Lemma rating_normalizer_levels_witness :
  rating_normalizer lower strip (Str "  It Was AMAZING ") = Num 5 /\
  rating_normalizer lower strip (Str "Really liked it") = Num 4 /\
  rating_normalizer lower strip (Str "Liked It") = Num 3 /\
  rating_normalizer lower strip (Str "it was ok ") = Num 2 /\
  rating_normalizer lower strip (Str "DID NOT LIKE IT") = Num 1 /\
  rating_normalizer lower strip (Str to_read_label) = Num 0 /\
  rating_normalizer lower strip (Str "   ") = Num 0 /\
  rating_normalizer lower strip (Str "unknown text") = Num 0 /\
  (exists levels,
     rating_int_column lower strip (column rating_chunk "Rating") = Ok levels /\
     values levels = [Num 5; Num 0]) /\
  rating_int_column lower strip (column blank_chunk "Rating") = Raise AttributeError /\
  is_ok (str_accessor {| dtype_of := float64; values := [Num 5] |}) = false /\
  is_ok (str_accessor {| dtype_of := object; values := [NaN; Str "liked it"] |}) = true.
Proof.
  destruct (rating_normalizer_levels lower strip)
    as (H & _ & _ & Hok & Herr & Hnum & Htext).
  destruct (H "  It Was AMAZING ") as (H5 & _).
  destruct (H "Really liked it") as (_ & H4 & _).
  destruct (H "Liked It") as (_ & _ & H3 & _).
  destruct (H "it was ok ") as (_ & _ & _ & H2 & _).
  destruct (H "DID NOT LIKE IT") as (_ & _ & _ & _ & H1 & _).
  destruct (H to_read_label) as (_ & _ & _ & _ & _ & H0 & _).
  destruct (H "   ") as (_ & _ & _ & _ & _ & _ & He & _).
  destruct (H "unknown text") as (_ & _ & _ & _ & _ & _ & _ & Hu).
  split; [apply H5; reflexivity|].
  split; [apply H4; reflexivity|].
  split; [apply H3; reflexivity|].
  split; [apply H2; reflexivity|].
  split; [apply H1; reflexivity|].
  split; [apply H0; reflexivity|].
  split; [apply He; reflexivity|].
  split.
  { apply Hu. intros n Hin. simpl in Hin.
    repeat (destruct Hin as [Hin|Hin]; [discriminate Hin|]).
    exact Hin. }
  split.
  { destruct (Hok (column rating_chunk "Rating") eq_refl) as (levels & Hl & Hv).
    exists levels. split; [exact Hl|]. rewrite Hv. reflexivity. }
  split; [apply Herr; reflexivity|].
  split; [apply Hnum; discriminate|].
  apply Htext; reflexivity.
Defined.

Lemma schema_mapper_books_quarantine_witness :
  exists clean_chunk,
    transform_books parse_decimal is_integer harry_chunk = Ok clean_chunk /\
    columns clean_chunk = ["book_id"; "title"; "avg_rating"] /\
    len clean_chunk = 1%nat /\
    length (filter (quarantined parse_decimal) (rows harry_chunk)) = 2%nat.
Proof.
  destruct (schema_mapper_books_quarantine parse_decimal is_integer harry_chunk
              eq_refl eq_refl eq_refl)
    as (clean_chunk & H1 & H2 & H3 & H4 & _).
  exists clean_chunk. split; [exact H1|]. split; [exact H2|].
  unfold len in *. rewrite H3. split; reflexivity.
Defined.

Lemma books_first_write_wins_witness :
  rows_with_key (Str "1.0")
    (insert_ignore [harry_row]
       [ {| book_id := Str "1.0"; title := Str "Another title"; avg_rating := NaN |};
         dune_row ]) =
  [harry_row] /\
  rows_with_key (Str "1.0")
    (books (db (snd (process_single_file lower strip parse_decimal is_integer text_of_Z text_of_real "book1-100k.csv"
                       (harry_file 1)
                       {| db := {| books := [harry_row]; ratings := [];
                                   rating_seq := 0; indexes := [] |};
                          log := []; open_connections := 0 |})))) =
  [harry_row] /\
  keys_unique
    (books (db (snd (process_single_file lower strip parse_decimal is_integer text_of_Z text_of_real "book1-100k.csv"
                       (harry_file 1) first_run)))) /\
  insert_ignore []
    [ book_of_row text_of_Z text_of_real int64
        [("book_id", Num 1); ("title", Str "Harry Potter"); ("avg_rating", Num (9 # 2))];
      book_of_row text_of_Z text_of_real float64
        [("book_id", Num 1); ("title", Str "Harry Potter"); ("avg_rating", Num (9 # 2))] ] =
  [harry_row_int; harry_row].
Proof.
  assert (U : keys_unique [harry_row]).
  { intros k. unfold rows_with_key. simpl.
    destruct (same_key k (Str "1.0")); simpl; lia. }
  destruct (books_first_write_wins lower strip parse_decimal is_integer text_of_Z text_of_real)
    as (H & Hp & _ & _ & U0 & Hu & _ & Htwo).
  split; [|split; [|split]].
  - destruct (H [harry_row]
                [ {| book_id := Str "1.0"; title := Str "Another title";
                     avg_rating := NaN |};
                  dune_row ]
                (Str "1.0") U eq_refl) as (H1 & _).
    rewrite H1. reflexivity.
  - destruct (Hp "book1-100k.csv" (harry_file 1)
                {| db := {| books := [harry_row]; ratings := [];
                            rating_seq := 0; indexes := [] |};
                   log := []; open_connections := 0 |}
                (Str "1.0") U eq_refl) as (H1 & _).
    rewrite H1. reflexivity.
  - apply Hu. exact U0.
  - apply (Htwo 1%Z
             [("book_id", Num 1); ("title", Str "Harry Potter");
              ("avg_rating", Num (9 # 2))] []);
      [reflexivity|discriminate|reflexivity|reflexivity].
Defined.

(** Two book files that both hold the identifier 1, the second one
    next to an identifier that is not a number: the store ends with two
    rows for it, under the keys 1 and 1.0. *)
Example identifier_stored_twice :
  books (db (snd (executor_map lower strip parse_decimal is_integer text_of_Z text_of_real
    [ ("book1-100k.csv",
       streamed parse_decimal is_integer na_field 100 ["Id"; "Name"; "Rating"]
         [harry_line] 1);
      ("book100k-200k.csv",
       streamed parse_decimal is_integer na_field 100 ["Id"; "Name"; "Rating"]
         [harry_line; bad_id_line] 1) ]
    first_run))) = [harry_row_int; harry_row].
Proof. vm_compute. reflexivity. Qed.

(** A ratings file whose only line has no label: line 71 raises and the
    row is not stored. *)
Example unlabelled_rating_is_lost :
  process_single_file lower strip parse_decimal is_integer text_of_Z text_of_real "user_rating_0_to_1000.csv"
    (streamed parse_decimal is_integer na_field 100 ["ID"; "Name"; "Rating"]
       [unlabelled_line] 1) first_run =
  (Raise AttributeError, first_run).
Proof. vm_compute. reflexivity. Qed.

(** ** Reading across a chunk boundary *)

Lemma late_blank_ratings_two_chunks (n : nat) :
  (1 <= n)%nat ->
  read_chunks parse_decimal is_integer na_field n ["ID"; "Name"; "Rating"]
    (late_blank_ratings n) = [labelled_chunk n; blank_chunk].
Proof.
  intros Hn. unfold read_chunks, late_blank_ratings.
  rewrite chunks_of_two by exact Hn. cbn [map]. f_equal.
  unfold read_frame. cbn [Datatypes.length seq map]. rewrite !map_repeat.
  rewrite !infer_dtype_repeat by exact Hn. reflexivity.
Qed.

Lemma late_blank_ratings_one_chunk (n : nat) :
  (1 <= n)%nat ->
  read_chunks parse_decimal is_integer na_field (S n) ["ID"; "Name"; "Rating"]
    (late_blank_ratings n) = [late_blank_chunk n].
Proof.
  intros Hn. unfold read_chunks, late_blank_ratings.
  rewrite chunks_of_one. cbn [map]. f_equal.
  unfold read_frame. cbn [Datatypes.length seq map]. rewrite !map_app, !map_repeat.
  cbn [map]. rewrite !infer_dtype_repeat_app by exact Hn. reflexivity.
Qed.

Lemma late_text_books_two_chunks (n : nat) :
  (1 <= n)%nat ->
  read_chunks parse_decimal is_integer na_field n ["Id"; "Name"; "Rating"]
    (late_text_books n) = [whole_id_chunk n; bad_id_chunk].
Proof.
  intros Hn. unfold read_chunks, late_text_books.
  rewrite chunks_of_two by exact Hn. cbn [map]. f_equal.
  unfold read_frame. cbn [Datatypes.length seq map]. rewrite !map_repeat.
  rewrite !infer_dtype_repeat by exact Hn. reflexivity.
Qed.

Lemma late_text_books_one_chunk (n : nat) :
  (1 <= n)%nat ->
  read_chunks parse_decimal is_integer na_field (S n) ["Id"; "Name"; "Rating"]
    (late_text_books n) = [late_text_chunk n].
Proof.
  intros Hn. unfold read_chunks, late_text_books.
  rewrite chunks_of_one. cbn [map]. f_equal.
  unfold read_frame. cbn [Datatypes.length seq map]. rewrite !map_app, !map_repeat.
  cbn [map]. rewrite !infer_dtype_repeat_app by exact Hn. reflexivity.
Qed.

Lemma labelled_chunk_accessor (n : nat) :
  (1 <= n)%nat -> is_ok (str_accessor (column (labelled_chunk n) "Rating")) = true.
Proof.
  intros Hn. apply str_accessor_text; [reflexivity|].
  destruct n as [|m]; [lia|reflexivity].
Qed.

Lemma late_blank_chunk_accessor (n : nat) :
  (1 <= n)%nat -> is_ok (str_accessor (column (late_blank_chunk n) "Rating")) = true.
Proof.
  intros Hn. apply str_accessor_text; [reflexivity|].
  destruct n as [|m]; [lia|reflexivity].
Qed.

Lemma labelled_chunk_kept (n : nat) :
  len (clean_ratings lower strip (labelled_chunk n)) = n.
Proof.
  unfold len, clean_ratings, kept_ratings. cbn [rows labelled_chunk].
  rewrite filter_repeat by reflexivity. rewrite length_map. apply repeat_length.
Qed.

Lemma late_blank_chunk_kept (n : nat) :
  len (clean_ratings lower strip (late_blank_chunk n)) = S n.
Proof.
  unfold len, clean_ratings, kept_ratings. cbn [rows late_blank_chunk].
  rewrite filter_app, filter_repeat by reflexivity.
  rewrite length_map, length_app, repeat_length. cbn. lia.
Qed.

Lemma ratings_after_to_sql (clean_chunk : DataFrame) (d : database) :
  length (ratings (to_sql_ratings clean_chunk d)) =
  (length (ratings d) + len clean_chunk)%nat.
Proof.
  destruct (to_sql_ratings_appends (rows clean_chunk) d) as (H & _).
  unfold to_sql_ratings. cbv zeta in H. rewrite H, length_app, numbered_length.
  reflexivity.
Qed.

Lemma whole_id_chunk_books (n : nat) :
  sql_books text_of_Z text_of_real
    (clean_books parse_decimal is_integer (whole_id_chunk (S n))) =
  repeat harry_row_int (S n).
Proof.
  unfold sql_books, clean_books, kept_books. cbn [rows whole_id_chunk].
  rewrite filter_repeat by reflexivity. rewrite !map_repeat. reflexivity.
Qed.

Lemma late_text_chunk_books (n : nat) :
  sql_books text_of_Z text_of_real
    (clean_books parse_decimal is_integer (late_text_chunk (S n))) =
  repeat harry_row (S n).
Proof.
  assert (D : column_dtype (clean_books parse_decimal is_integer (late_text_chunk (S n)))
                "book_id" = float64).
  { transitivity (dtype_of (to_numeric_series parse_decimal is_integer
                              (column (late_text_chunk (S n)) "Id")));
      [reflexivity|].
    unfold to_numeric_series, column. cbn [dtype_of values].
    change (column_dtype (late_text_chunk (S n)) "Id") with object.
    cbv beta iota. unfold late_text_chunk. cbn [rows].
    rewrite map_app, map_repeat. cbn [map].
    rewrite forallb_repeat_app. reflexivity. }
  unfold sql_books. rewrite D. unfold clean_books, kept_books.
  cbn [rows late_text_chunk].
  rewrite filter_app, filter_repeat by reflexivity. cbn [filter].
  replace (negb (quarantined parse_decimal
                   [("Id", Str "abc"); ("Name", Str "BadId"); ("Rating", Num 2)]))
    with false by reflexivity.
  rewrite app_nil_r, !map_repeat. reflexivity.
Qed.

(** C4: a file of [n] lines followed by one line that the chunk boundary
    cuts off, read [n] lines at a time and [n + 1] lines at a time.  In
    the ratings file the last line has no label: alone in its chunk it
    makes line 71 raise AttributeError and is not stored, the call
    raising; within a chunk that holds a label it is stored, with the
    level 0.  In the book file the last line has a text for identifier:
    without it the chunk binds the identifier 1 as a whole number and the
    store keeps the text 1, with it the same identifier is bound as a
    float and the store keeps 1.0. *)
Theorem chunk_size_changes_the_rows (n : nat) :
  (1 <= n)%nat ->
  (fst (process_single_file lower strip parse_decimal is_integer text_of_Z text_of_real
          "user_rating_0_to_1000.csv"
          (streamed parse_decimal is_integer na_field n ["ID"; "Name"; "Rating"]
             (late_blank_ratings n) 1) first_run) = Raise AttributeError /\
   length (ratings (db (snd
     (process_single_file lower strip parse_decimal is_integer text_of_Z text_of_real
        "user_rating_0_to_1000.csv"
        (streamed parse_decimal is_integer na_field n ["ID"; "Name"; "Rating"]
           (late_blank_ratings n) 1) first_run)))) = n) /\
  (fst (process_single_file lower strip parse_decimal is_integer text_of_Z text_of_real
          "user_rating_0_to_1000.csv"
          (streamed parse_decimal is_integer na_field (S n) ["ID"; "Name"; "Rating"]
             (late_blank_ratings n) 1) first_run) = Ok (S n) /\
   length (ratings (db (snd
     (process_single_file lower strip parse_decimal is_integer text_of_Z text_of_real
        "user_rating_0_to_1000.csv"
        (streamed parse_decimal is_integer na_field (S n) ["ID"; "Name"; "Rating"]
           (late_blank_ratings n) 1) first_run)))) = S n) /\
  books (db (snd
    (process_single_file lower strip parse_decimal is_integer text_of_Z text_of_real
       "book1-100k.csv"
       (streamed parse_decimal is_integer na_field n ["Id"; "Name"; "Rating"]
          (late_text_books n) 1) first_run))) = [harry_row_int] /\
  books (db (snd
    (process_single_file lower strip parse_decimal is_integer text_of_Z text_of_real
       "book1-100k.csv"
       (streamed parse_decimal is_integer na_field (S n) ["Id"; "Name"; "Rating"]
          (late_text_books n) 1) first_run))) = [harry_row].
Proof.
  intros Hn. unfold streamed.
  rewrite (late_blank_ratings_two_chunks n Hn), (late_blank_ratings_one_chunk n Hn),
    (late_text_books_two_chunks n Hn), (late_text_books_one_chunk n Hn).
  cbn [map]. rewrite !process_single_file_unfold.
  cbn [connect_error reader elapsed].
  split; [|split; [|split]].
  - rewrite (for_chunks_cons_ok _ _ _ _ _ _ _ _ _ _ _ _ _ _
               (loop_body_ratings lower strip parse_decimal is_integer text_of_Z
                  text_of_real "user_rating_0_to_1000.csv" (labelled_chunk n) _ _
                  eq_refl eq_refl eq_refl eq_refl eq_refl
                  (labelled_chunk_accessor n Hn))).
    rewrite (for_chunks_cons_raise _ _ _ _ _ _ _ _ _ _ _ _ _ _
               (loop_body_ratings_raises lower strip parse_decimal is_integer
                  text_of_Z text_of_real "user_rating_0_to_1000.csv" blank_chunk
                  None _ _ eq_refl eq_refl eq_refl eq_refl)).
    cbn [fst snd db]. split; [reflexivity|].
    rewrite ratings_after_to_sql, labelled_chunk_kept. reflexivity.
  - rewrite (for_chunks_cons_ok _ _ _ _ _ _ _ _ _ _ _ _ _ _
               (loop_body_ratings lower strip parse_decimal is_integer text_of_Z
                  text_of_real "user_rating_0_to_1000.csv" (late_blank_chunk n) _ _
                  eq_refl eq_refl eq_refl eq_refl eq_refl
                  (late_blank_chunk_accessor n Hn))).
    rewrite for_chunks_nil. change (Qeq_bool 1 0) with false.
    cbn [type_label total_processed fst snd db Nat.add].
    rewrite ratings_after_to_sql, late_blank_chunk_kept.
    split; reflexivity.
  - rewrite (for_chunks_cons_ok _ _ _ _ _ _ _ _ _ _ _ _ _ _
               (loop_body_books lower strip parse_decimal is_integer text_of_Z
                  text_of_real "book1-100k.csv" (whole_id_chunk n) _ _
                  eq_refl eq_refl eq_refl eq_refl)).
    rewrite (for_chunks_cons_ok _ _ _ _ _ _ _ _ _ _ _ _ _ _
               (loop_body_books lower strip parse_decimal is_integer text_of_Z
                  text_of_real "book1-100k.csv" bad_id_chunk _ _
                  eq_refl eq_refl eq_refl eq_refl)).
    rewrite for_chunks_nil. change (Qeq_bool 1 0) with false.
    cbn [type_label snd db to_sql_books books].
    destruct n as [|m]; [lia|]. rewrite whole_id_chunk_books.
    rewrite insert_ignore_repeat by reflexivity. reflexivity.
  - rewrite (for_chunks_cons_ok _ _ _ _ _ _ _ _ _ _ _ _ _ _
               (loop_body_books lower strip parse_decimal is_integer text_of_Z
                  text_of_real "book1-100k.csv" (late_text_chunk n) _ _
                  eq_refl eq_refl eq_refl eq_refl)).
    rewrite for_chunks_nil. change (Qeq_bool 1 0) with false.
    cbn [type_label snd db to_sql_books books].
    destruct n as [|m]; [lia|]. rewrite late_text_chunk_books.
    rewrite insert_ignore_repeat by reflexivity. reflexivity.
Qed.

Lemma chunk_size_changes_the_rows_witness :
  fst (process_single_file lower strip parse_decimal is_integer text_of_Z text_of_real
         "user_rating_0_to_1000.csv"
         (streamed parse_decimal is_integer na_field 2 ["ID"; "Name"; "Rating"]
            (late_blank_ratings 2) 1) first_run) = Raise AttributeError /\
  fst (process_single_file lower strip parse_decimal is_integer text_of_Z text_of_real
         "user_rating_0_to_1000.csv"
         (streamed parse_decimal is_integer na_field 3 ["ID"; "Name"; "Rating"]
            (late_blank_ratings 2) 1) first_run) = Ok 3%nat /\
  books (db (snd
    (process_single_file lower strip parse_decimal is_integer text_of_Z text_of_real
       "book1-100k.csv"
       (streamed parse_decimal is_integer na_field 2 ["Id"; "Name"; "Rating"]
          (late_text_books 2) 1) first_run))) = [harry_row_int] /\
  books (db (snd
    (process_single_file lower strip parse_decimal is_integer text_of_Z text_of_real
       "book1-100k.csv"
       (streamed parse_decimal is_integer na_field 3 ["Id"; "Name"; "Rating"]
          (late_text_books 2) 1) first_run))) = [harry_row].
Proof.
  destruct (chunk_size_changes_the_rows 2 (le_S 1 1 (le_n 1)))
    as ((H1 & _) & (H2 & _) & H3 & H4).
  split; [exact H1|]. split; [exact H2|]. split; [exact H3|exact H4].
Defined.

Lemma unrecognized_file_raises_witness :
  process_single_file lower strip parse_decimal is_integer text_of_Z text_of_real "notes.csv" (harry_file 1) first_run =
  (Raise (UnboundLocalError "type_label"), first_run).
Proof.
  destruct (unrecognized_file_raises lower strip parse_decimal is_integer text_of_Z text_of_real "notes.csv"
              (harry_file 1) first_run eq_refl eq_refl) as (e & H & He).
  rewrite H, (He eq_refl eq_refl). reflexivity.
Defined.

Lemma store_initializer_and_appends_witness :
  exists added,
    ratings (db (snd (process_single_file lower strip parse_decimal is_integer text_of_Z text_of_real
                        "user_rating_0_to_1000.csv" rating_file first_run))) =
      ratings (db first_run) ++ added /\
    length added = 2%nat.
Proof.
  destruct (store_initializer_and_appends lower strip parse_decimal is_integer text_of_Z text_of_real) as (_ & _ & _ & H).
  destruct (H "user_rating_0_to_1000.csv" rating_file first_run) as (added & Ha & Hn).
  exists added. split; [exact Ha|].
  apply Hn; reflexivity.
Defined.

Lemma harry_potter_scenario_witness :
  books (db (snd (run_production_etl lower strip parse_decimal is_integer text_of_Z text_of_real
                    (harry_folder 1) fresh_file))) = [harry_row].
Proof.
  destruct (harry_potter_scenario lower strip parse_decimal is_integer text_of_Z text_of_real 1
              eq_refl eq_refl)
    as ((rep & s & H & Hb & _) & _).
  rewrite H. exact Hb.
Defined.

Lemma parallel_dispatch_keeps_the_counts_witness :
  length (books (db (snd
    (run_pool lower strip parse_decimal is_integer text_of_Z text_of_real [1; 0; 1; 0; 0; 1]%nat [Idle; Idle]
       [("book1-100k.csv", harry_file 1);
        ("user_rating_0_to_1000.csv", rating_file)] first_run)))) =
  length (books (db (snd
    (executor_map lower strip parse_decimal is_integer text_of_Z text_of_real
       [("book1-100k.csv", harry_file 1);
        ("user_rating_0_to_1000.csv", rating_file)] first_run)))) /\
  length (ratings (db (snd
    (run_pool lower strip parse_decimal is_integer text_of_Z text_of_real [1; 0; 1; 0; 0; 1]%nat [Idle; Idle]
       [("book1-100k.csv", harry_file 1);
        ("user_rating_0_to_1000.csv", rating_file)] first_run)))) =
  length (ratings (db (snd
    (executor_map lower strip parse_decimal is_integer text_of_Z text_of_real
       [("book1-100k.csv", harry_file 1);
        ("user_rating_0_to_1000.csv", rating_file)] first_run)))) /\
  exists schedule,
    run_pool lower strip parse_decimal is_integer text_of_Z text_of_real schedule [Idle; Idle]
      [("book1-100k.csv", harry_file 1);
       ("user_rating_0_to_1000.csv", rating_file)] first_run =
    ([Idle; Idle], [],
     snd (executor_map lower strip parse_decimal is_integer text_of_Z text_of_real
            [("book1-100k.csv", harry_file 1);
             ("user_rating_0_to_1000.csv", rating_file)] first_run)).
Proof.
  destruct (parallel_dispatch_keeps_the_counts lower strip parse_decimal is_integer text_of_Z text_of_real 2
              [("book1-100k.csv", harry_file 1);
               ("user_rating_0_to_1000.csv", rating_file)] first_run)
    as (H & Hs & _).
  destruct (H [1; 0; 1; 0; 0; 1]%nat [Idle; Idle]
              (snd (run_pool lower strip parse_decimal is_integer text_of_Z text_of_real [1; 0; 1; 0; 0; 1]%nat [Idle; Idle]
                      [("book1-100k.csv", harry_file 1);
                       ("user_rating_0_to_1000.csv", rating_file)] first_run))
              eq_refl eq_refl) as (Hb & _ & Hr).
  split; [exact Hb|]. split; [exact Hr|].
  apply Hs. apply le_S, le_n.
Defined.

Lemma worker_exceptions_are_discarded_witness :
  (exists rep s' l,
     run_production_etl lower strip parse_decimal is_integer text_of_Z text_of_real mixed_folder fresh_file = (Ok rep, s') /\
     log s' = l ++ [EtlComplete] /\
     rep = {| books_count := length (books (db s'));
              ratings_count := length (ratings (db s')) |}) /\
  log (snd (process_single_file lower strip parse_decimal is_integer text_of_Z text_of_real "notes.csv"
              (harry_file 1) first_run)) = log first_run.
Proof.
  destruct (worker_exceptions_are_discarded lower strip parse_decimal is_integer text_of_Z text_of_real) as (Hw & _ & H).
  split.
  - apply (H mixed_folder fresh_file). intros s. reflexivity.
  - apply (Hw "notes.csv" (harry_file 1) first_run
              (snd (process_single_file lower strip parse_decimal is_integer text_of_Z text_of_real "notes.csv"
                      (harry_file 1) first_run))
              (UnboundLocalError "type_label")).
    reflexivity.
Defined.

(** The ratings scenario: both rows are stored, the known label as 5 and
    the unknown one as 0. *)
Example ratings_scenario :
  ratings (db (snd (process_single_file lower strip parse_decimal is_integer text_of_Z text_of_real
                      "user_rating_0_to_1000.csv" rating_file first_run))) =
  [ {| rating_id := 1; book_title := Str "Harry Potter"; user_id := Str "u1";
       rating_text := Str "it was amazing"; rating_int := Num 5 |};
    {| rating_id := 2; book_title := Str "Dune"; user_id := Str "u2";
       rating_text := Str "unknown text"; rating_int := Num 0 |} ].
Proof. reflexivity. Qed.

(** A file of neither kind and a file that is not a CSV file leave the
    run as it would be without them. *)
Example mixed_folder_run :
  fst (run_production_etl lower strip parse_decimal is_integer text_of_Z text_of_real mixed_folder fresh_file) =
  Ok {| books_count := 1; ratings_count := 2 |}.
Proof. reflexivity. Qed.

(** The further properties, on the same inputs. *)

Lemma schema_mapper_ratings_discard_witness :
  (exists clean_chunk,
     transform_ratings lower strip rating_chunk = Ok clean_chunk /\
     len clean_chunk = 2%nat) /\
  transform_ratings lower strip blank_chunk = Raise AttributeError.
Proof.
  split.
  - destruct (schema_mapper_ratings_discard lower strip rating_chunk
                eq_refl eq_refl eq_refl) as (H & _).
    destruct (H eq_refl) as (clean_chunk & H1 & _ & H3 & _).
    exists clean_chunk. split; [exact H1|].
    unfold len. rewrite H3. reflexivity.
  - destruct (schema_mapper_ratings_discard lower strip blank_chunk
                eq_refl eq_refl eq_refl) as (_ & H).
    exact (H eq_refl).
Defined.

Lemma missing_column_raises_key_error_witness :
  exists m,
    process_single_file lower strip parse_decimal is_integer text_of_Z text_of_real "book1-100k.csv" narrow_file first_run =
      (Raise (KeyError m), first_run) /\
    m <> [].
Proof.
  destruct (missing_column_raises_key_error lower strip parse_decimal is_integer text_of_Z text_of_real
              "book1-100k.csv" narrow_file narrow_chunk None [] first_run
              eq_refl eq_refl (or_introl (conj eq_refl eq_refl)))
    as (m & H & Hm & _).
  exists m. split; [exact H|exact Hm].
Defined.

Lemma zero_elapsed_never_returns_witness :
  fst (process_single_file lower strip parse_decimal is_integer text_of_Z text_of_real "book1-100k.csv"
         (harry_file 0) first_run) = Raise ZeroDivisionError.
Proof.
  destruct (zero_elapsed_never_returns lower strip parse_decimal is_integer text_of_Z text_of_real "book1-100k.csv"
              (harry_file 0) first_run eq_refl) as (_ & _ & _ & H).
  apply H.
  - reflexivity.
  - constructor; [reflexivity|constructor].
  - discriminate.
  - left. reflexivity.
Defined.

Lemma reported_count_is_rows_sent_witness :
  fst (process_single_file lower strip parse_decimal is_integer text_of_Z text_of_real "book1-100k.csv" (harry_file 1)
         {| db := {| books := [harry_row]; ratings := []; rating_seq := 0;
                     indexes := [] |};
            log := []; open_connections := 0 |}) = Ok 1%nat.
Proof.
  destruct (reported_count_is_rows_sent lower strip parse_decimal is_integer text_of_Z text_of_real "book1-100k.csv"
              (harry_file 1) first_run
              (snd (process_single_file lower strip parse_decimal is_integer text_of_Z text_of_real "book1-100k.csv"
                      (harry_file 1) first_run))
              1%nat eq_refl eq_refl) as (_ & _ & H).
  apply H.
Defined.

Lemma stored_books_are_valid_witness :
  Forall (book_ok text_of_Z text_of_real)
    (books (db (snd (run_production_etl lower strip parse_decimal is_integer text_of_Z text_of_real
                       (harry_folder 1) stocked_file)))).
Proof.
  apply (stored_books_are_valid lower strip parse_decimal is_integer text_of_Z text_of_real (harry_folder 1) stocked_file).
  constructor.
  { split; [exists float64, 1; reflexivity|split; reflexivity]. }
  constructor.
  { split; [exists int64, 2; reflexivity|split; reflexivity]. }
  constructor.
Defined.

Lemma run_connections_witness :
  open_connections
    (snd (run_production_etl lower strip parse_decimal is_integer text_of_Z text_of_real (harry_folder 1) fresh_file))
    = 0%nat /\
  fst (run_production_etl lower strip parse_decimal is_integer text_of_Z text_of_real narrow_folder stocked_file)
    = Raise IndexError /\
  db (snd (run_production_etl lower strip parse_decimal is_integer text_of_Z text_of_real narrow_folder stocked_file))
    = init_schema stocked_file.
Proof.
  split.
  - destruct (run_connections lower strip parse_decimal is_integer text_of_Z text_of_real (harry_folder 1) fresh_file)
      as (H & _).
    apply (H {| books_count := 1; ratings_count := 0 |}). reflexivity.
  - destruct (run_connections lower strip parse_decimal is_integer text_of_Z text_of_real narrow_folder stocked_file)
      as (_ & H).
    destruct (H IndexError
                (snd (previews narrow_folder
                        {| db := init_schema stocked_file; log := [];
                           open_connections := 1 |}))
                eq_refl) as (Hr & _ & Hd).
    rewrite Hr. split; [reflexivity|exact Hd].
Defined.

Lemma dispatched_files_are_the_csv_files_witness :
  In ("notes.csv", harry_file 1) (csv_files_of mixed_folder).
Proof.
  destruct (dispatched_files_are_the_csv_files mixed_folder) as (_ & _ & H).
  apply H. split.
  - right. left. reflexivity.
  - exists "notes". reflexivity.
Defined.

Lemma peek_at_data_logs_five_rows_witness :
  fst (peek_at_data harry_chunk "book1-100k.csv" first_run) = Ok tt /\
  (length (log (snd (peek_at_data harry_chunk "book1-100k.csv" first_run))) <= 9)%nat.
Proof.
  destruct (peek_at_data_logs_five_rows harry_chunk "book1-100k.csv"
              "Id" "Name" "Rating" [] first_run eq_refl) as (H & Hn).
  split; [rewrite H; reflexivity|exact Hn].
Defined.

Lemma peek_at_data_needs_three_columns_witness :
  fst (peek_at_data narrow_chunk "book1-100k.csv" first_run) = Raise IndexError /\
  fst (peek_at_data {| columns := ["Id"; "Name"]; rows := [];
                       dtypes := [("Id", object); ("Name", object)] |}
         "book1-100k.csv" first_run) = Ok tt.
Proof.
  split.
  - destruct (peek_at_data_needs_three_columns narrow_chunk "book1-100k.csv"
                first_run (le_n 3)) as (H & _).
    rewrite H; [reflexivity|discriminate].
  - destruct (peek_at_data_needs_three_columns
                {| columns := ["Id"; "Name"]; rows := [];
                   dtypes := [("Id", object); ("Name", object)] |}
                "book1-100k.csv" first_run (le_n 3)) as (_ & H).
    rewrite (H eq_refl). reflexivity.
Defined.

Lemma indexes_after_a_run_witness :
  NoDup (indexes (db (snd (run_production_etl lower strip parse_decimal is_integer text_of_Z text_of_real
                             (harry_folder 1) fresh_file)))) /\
  has_label "idx_rating_title"
    (indexes (db (snd (run_production_etl lower strip parse_decimal is_integer text_of_Z text_of_real
                         narrow_folder stocked_file)))) = false.
Proof.
  split.
  - destruct (indexes_after_a_run lower strip parse_decimal is_integer text_of_Z text_of_real (harry_folder 1) fresh_file)
      as (H & _).
    destruct (H {| books_count := 1; ratings_count := 0 |}
                (snd (run_production_etl lower strip parse_decimal is_integer text_of_Z text_of_real
                        (harry_folder 1) fresh_file))
                eq_refl) as (_ & _ & Hn).
    apply Hn. constructor.
  - destruct (indexes_after_a_run lower strip parse_decimal is_integer text_of_Z text_of_real narrow_folder stocked_file)
      as (_ & H).
    apply (H IndexError). reflexivity.
Defined.

Lemma first_failure_ends_the_file_witness :
  fst (process_single_file lower strip parse_decimal is_integer text_of_Z text_of_real "book1-100k.csv"
         interrupted_file first_run) = Raise (EnvError "Error tokenizing data") /\
  db (snd (process_single_file lower strip parse_decimal is_integer text_of_Z text_of_real "book1-100k.csv"
             interrupted_file first_run)) =
  db (snd (process_single_file lower strip parse_decimal is_integer text_of_Z text_of_real "book1-100k.csv"
             (harry_file 1) first_run)) /\
  fst (process_single_file lower strip parse_decimal is_integer text_of_Z text_of_real "user_rating_0_to_1000.csv"
         {| connect_error := None;
            reader := [Yield rating_chunk None; Yield blank_chunk None;
                       Yield rating_chunk None];
            elapsed := 1 |} first_run) = Raise AttributeError /\
  db (snd (process_single_file lower strip parse_decimal is_integer text_of_Z text_of_real "user_rating_0_to_1000.csv"
             {| connect_error := None;
                reader := [Yield rating_chunk None; Yield blank_chunk None;
                           Yield rating_chunk None];
                elapsed := 1 |} first_run)) =
  db (snd (process_single_file lower strip parse_decimal is_integer text_of_Z text_of_real "user_rating_0_to_1000.csv"
             rating_file first_run)).
Proof.
  assert (Hb : Forall (fun ev => fails lower strip parse_decimal is_integer
                                   "book1-100k.csv" ev = None)
                 [Yield harry_chunk None]).
  { constructor; [reflexivity|constructor]. }
  assert (Hr : Forall (fun ev => fails lower strip parse_decimal is_integer
                                   "user_rating_0_to_1000.csv" ev = None)
                 [Yield rating_chunk None]).
  { constructor; [reflexivity|constructor]. }
  destruct (first_failure_ends_the_file lower strip parse_decimal is_integer text_of_Z text_of_real "book1-100k.csv"
              interrupted_file [Yield harry_chunk None] [Yield harry_chunk None]
              (ReadError (EnvError "Error tokenizing data"))
              (EnvError "Error tokenizing data") first_run
              eq_refl eq_refl Hb eq_refl) as (H1 & _ & H3).
  destruct (first_failure_ends_the_file lower strip parse_decimal is_integer text_of_Z text_of_real "user_rating_0_to_1000.csv"
              {| connect_error := None;
                 reader := [Yield rating_chunk None; Yield blank_chunk None;
                            Yield rating_chunk None];
                 elapsed := 1 |}
              [Yield rating_chunk None] [Yield rating_chunk None]
              (Yield blank_chunk None) AttributeError first_run
              eq_refl eq_refl Hr eq_refl) as (H4 & _ & H6).
  split; [exact H1|]. split; [exact H3|]. split; [exact H4|exact H6].
Defined.

Lemma insert_order_keeps_size_and_keys_witness :
  length (insert_ignore [] [harry_row; dune_row]) =
  length (insert_ignore [] [dune_row; harry_row]).
Proof.
  destruct (insert_order_keeps_size_and_keys [] [harry_row; dune_row]
              [dune_row; harry_row] (perm_swap _ _ _)) as (H & _).
  exact H.
Defined.

Lemma file_order_keeps_counts_witness :
  length (books (db (snd (executor_map lower strip parse_decimal is_integer text_of_Z text_of_real
                            [("book1-100k.csv", harry_file 1);
                             ("user_rating_0_to_1000.csv", rating_file)] first_run)))) =
  length (books (db (snd (executor_map lower strip parse_decimal is_integer text_of_Z text_of_real
                            [("user_rating_0_to_1000.csv", rating_file);
                             ("book1-100k.csv", harry_file 1)] first_run)))).
Proof.
  destruct (file_order_keeps_counts lower strip parse_decimal is_integer text_of_Z text_of_real
              [("book1-100k.csv", harry_file 1);
               ("user_rating_0_to_1000.csv", rating_file)]
              [("user_rating_0_to_1000.csv", rating_file);
               ("book1-100k.csv", harry_file 1)]
              first_run (perm_swap _ _ _)) as (H & _).
  exact H.
Defined.

Lemma top_reviewed_is_top_five_witness :
  (exists tn,
     In tn (top_reviewed
              (db (snd (run_production_etl lower strip parse_decimal is_integer text_of_Z text_of_real
                          mixed_folder fresh_file)))) /\
     same_key (Str "Harry Potter") (fst tn) = true) \/
  Forall (fun tn => (1 <= snd tn)%nat)
    (top_reviewed
       (db (snd (run_production_etl lower strip parse_decimal is_integer text_of_Z text_of_real
                   mixed_folder fresh_file)))).
Proof.
  destruct (top_reviewed_is_top_five
              (db (snd (run_production_etl lower strip parse_decimal is_integer text_of_Z text_of_real
                          mixed_folder fresh_file)))) as (_ & _ & _ & H).
  apply (H (Str "Harry Potter") (le_n 1)).
Defined.


Lemma search_vault_report_witness :
  fst (search_vault like (fun _ => EmptyString) "potter" stocked_file) = Ok tt /\
  (exists e,
     fst (search_vault like (fun _ => EmptyString) "potter" fresh_file) = Raise e /\
     console (snd (search_vault like (fun _ => EmptyString) "potter" fresh_file))
       = [Welcome]) /\
  open_handles (snd (search_vault like (fun _ => EmptyString) "potter" fresh_file))
    <> 0%nat.
Proof.
  split; [|split].
  - destruct (search_vault_report like (fun _ => EmptyString) "potter" stocked_file)
      as (_ & _ & H).
    destruct (H [harry_row; dune_row] eq_refl) as (Hok & _). exact Hok.
  - destruct (search_vault_report like (fun _ => EmptyString) "potter" fresh_file)
      as (_ & H & _).
    exact (H eq_refl).
  - destruct (search_vault_report like (fun _ => EmptyString) "potter" fresh_file)
      as (H & _ & _).
    intros H0. apply H in H0. apply H0. reflexivity.
Defined.

